(** * halo-node-sdk: the 402 recovery protocol of [src/index.ts]

    A shallow embedding of [HaloPaymentTools], [haloSystem] and
    [HaloAutoHandler] and the properties of the recovery sequence.

    Conventions of the embedding.
    - JavaScript values are the trees of [JS.value]: the JSON shapes plus
      [undefined] and a fetch [Headers] instance; no value is a function.
      Numbers are the integers ([Z]).  Strings are byte strings ([string])
      holding the UTF-8 form of the text: [includes], [trim] and the
      regular expression work on the bytes, [length], indices and the
      spread count UTF-16 code units ([Str.units]).
    - An object is its list of own properties in definition order, each
      key once; [JS.lookup] reads the first binding of a key.
    - A computation that may throw returns [JS.outcome]; the asynchronous
      methods, which talk to the network and to the wallet, return a
      [trace] of the calls they made together with their outcome.
    - What the program takes from its host (JSON.parse, Buffer, ethers,
      the printing of numbers beyond the safe range, the case mapping of
      Unicode) is the class [Host]; what it reads from the world during one
      run (clock, random bytes, the two HTTP responses) is the record
      [World]. *)

From Stdlib Require Import ZArith NArith Arith List String Ascii Bool Lia.
From Stdlib Require Import DecimalString.
From Stdlib Require DecimalPos.

Set Warnings "-register-all".
Set Implicit Arguments.
Import ListNotations.

Local Open Scope string_scope.
Local Open Scope Z_scope.

(* ================================================================== *)
(** * JavaScript strings *)
(* ================================================================== *)

Module Str.

(** [String.prototype.includes]: [includes needle hay] is
    [hay.includes(needle)]. *)
Fixpoint includes (needle hay : string) : bool :=
  if String.prefix needle hay then true
  else match hay with
       | EmptyString => false
       | String _ rest => includes needle rest
       end.

Definition is_empty (s : string) : bool :=
  match s with EmptyString => true | _ => false end.

(** Is [c] the character of code [n]? *)
Definition is_char (c : ascii) (n : nat) : bool := Nat.eqb (nat_of_ascii c) n.

Definition is_digit (c : ascii) : bool :=
  let n := nat_of_ascii c in Nat.leb 48 n && Nat.leb n 57.

(** White space and line terminators of the ASCII range. *)
Definition is_space (c : ascii) : bool :=
  match nat_of_ascii c with
  | 9%nat | 10%nat | 11%nat | 12%nat | 13%nat | 32%nat => true
  | _ => false
  end.

(** The number of bytes of the white space or line terminator that the
    text starts with, 0 when it starts with none: the ASCII ones, and in
    UTF-8 U+00A0, U+1680, U+2000 to U+200A, U+2028, U+2029, U+202F,
    U+205F, U+3000 and U+FEFF. *)
Definition space_width (s : string) : nat :=
  match s with
  | EmptyString => 0
  | String a rest =>
      if is_space a then 1
      else
        match rest with
        | String b rest' =>
            if is_char a 194 then (if is_char b 160 then 2 else 0)
            else
              match rest' with
              | String c _ =>
                  let n := nat_of_ascii c in
                  if is_char a 225 then
                    (if is_char b 154 && is_char c 128 then 3 else 0)
                  else if is_char a 226 then
                    (if is_char b 128
                        && (Nat.leb 128 n && Nat.leb n 138
                            || Nat.eqb n 168 || Nat.eqb n 169 || Nat.eqb n 175)
                     then 3
                     else if is_char b 129 && Nat.eqb n 159 then 3 else 0)
                  else if is_char a 227 then
                    (if is_char b 128 && is_char c 128 then 3 else 0)
                  else if is_char a 239 then
                    (if is_char b 187 && is_char c 191 then 3 else 0)
                  else 0
              | EmptyString => 0
              end
        | EmptyString => 0
        end
  end.

(** Drops the white space the text starts with; [skip] counts the bytes
    still to drop of a character that was recognised. *)
Fixpoint drop_spaces (skip : nat) (s : string) : string :=
  match s with
  | EmptyString => EmptyString
  | String _ rest =>
      match skip with
      | S k => drop_spaces k rest
      | O =>
          match space_width s with
          | S k => drop_spaces k rest
          | O => s
          end
      end
  end.

Definition trimStart (s : string) : string := drop_spaces 0 s.

(** Is the text white space from here to its end? *)
Fixpoint spaces_only (skip : nat) (s : string) : bool :=
  match s with
  | EmptyString => true
  | String _ rest =>
      match skip with
      | S k => spaces_only k rest
      | O =>
          match space_width s with
          | S k => spaces_only k rest
          | O => false
          end
      end
  end.

(** Drops the trailing white space: a character is kept unless the text
    is white space from there on. *)
Fixpoint trimEnd (s : string) : string :=
  match s with
  | EmptyString => EmptyString
  | String c rest => if spaces_only 0 s then EmptyString else String c (trimEnd rest)
  end.

(** [String.prototype.trim]. *)
Definition trim (s : string) : string := trimEnd (trimStart s).

Fixpoint is_ascii (s : string) : bool :=
  match s with
  | EmptyString => true
  | String c rest => Nat.ltb (nat_of_ascii c) 128 && is_ascii rest
  end.

Definition upper_char (c : ascii) : ascii :=
  let n := nat_of_ascii c in
  if andb (Nat.leb 97 n) (Nat.leb n 122) then ascii_of_nat (n - 32) else c.

(** [String.prototype.toUpperCase] on a text of ASCII characters. *)
Fixpoint upper_ascii (s : string) : string :=
  match s with
  | EmptyString => EmptyString
  | String c rest => String (upper_char c) (upper_ascii rest)
  end.

(** [String.prototype.replace] of the pattern [/\/$/] by the empty string:
    one trailing slash removed. *)
Fixpoint stripTrailingSlash (s : string) : string :=
  match s with
  | EmptyString => EmptyString
  | String c EmptyString => if Ascii.eqb c "/" then EmptyString else s
  | String c rest => String c (stripTrailingSlash rest)
  end.

(** The three bytes that stand for the code unit [u] (U+0800 and
    above) in UTF-8, surrogates included. *)
Definition three_bytes (u : N) : string :=
  String (ascii_of_N (224 + u / 4096))
    (String (ascii_of_N (128 + (u / 64) mod 64))
       (String (ascii_of_N (128 + u mod 64)) EmptyString)).

(** The code point above U+FFFF that four bytes of UTF-8 stand for, less
    0x10000. *)
Definition astral (a b c d : ascii) : N :=
  (N_of_ascii a mod 8) * 262144 + (N_of_ascii b mod 64) * 4096
  + (N_of_ascii c mod 64) * 64 + N_of_ascii d mod 64 - 65536.

(** The UTF-16 code units of a text, which is what [length], an index and
    the spread of a string count: one per character of one, two or three
    bytes, and the two surrogates of a character of four bytes. *)
Fixpoint units (s : string) : list string :=
  match s with
  | EmptyString => []
  | String a rest =>
      let n := nat_of_ascii a in
      if Nat.ltb n 192 then String a EmptyString :: units rest
      else
        match rest with
        | EmptyString => [s]
        | String b rest2 =>
            if Nat.ltb n 224 then String a (String b EmptyString) :: units rest2
            else
              match rest2 with
              | EmptyString => [s]
              | String c rest3 =>
                  if Nat.ltb n 240 then
                    String a (String b (String c EmptyString)) :: units rest3
                  else
                    match rest3 with
                    | EmptyString => [s]
                    | String d rest4 =>
                        three_bytes (55296 + astral a b c d / 1024)
                          :: three_bytes (56320 + astral a b c d mod 1024)
                          :: units rest4
                    end
              end
        end
  end.

End Str.

(* ================================================================== *)
(** * JavaScript values *)
(* ================================================================== *)

Module JS.

(** The values the program meets: what JSON holds, [undefined], and the
    [Headers] of a fetch response with its entries under their
    lower-case names. *)
Inductive value : Type :=
| VUndef
| VNull
| VBool (b : bool)
| VNum (n : Z)
| VStr (s : string)
| VArr (items : list value)
| VObj (props : list (string * value))
| VHeaders (entries : list (string * string)).

(** What a computation can throw. *)
Inductive exn : Type :=
| Thrown (v : value)      (* a value thrown by foreign code *)
| TypeError               (* property of null/undefined, call of a non-function *)
| SyntaxError             (* JSON.parse, BigInt of a malformed string *)
| HostError               (* thrown inside ethers or Buffer *)
| Error (msg : string).   (* [new Error(msg)] of this program *)

Inductive outcome (A : Type) : Type :=
| Ok (a : A)
| Throw (e : exn).
Arguments Ok {A} a.
Arguments Throw {A} e.

Definition bind {A B} (m : outcome A) (k : A -> outcome B) : outcome B :=
  match m with
  | Ok a => k a
  | Throw e => Throw e
  end.

(** ToBoolean. *)
Definition truthy (v : value) : bool :=
  match v with
  | VUndef | VNull => false
  | VBool b => b
  | VNum n => negb (n =? 0)
  | VStr s => negb (Str.is_empty s)
  | VArr _ | VObj _ | VHeaders _ => true
  end.

Definition nullish (v : value) : bool :=
  match v with
  | VUndef | VNull => true
  | _ => false
  end.

(** [a || b] on values; [b] is only looked at when [a] is falsy. *)
Definition or_else (a b : value) : value := if truthy a then a else b.

Fixpoint lookup {A} (k : string) (props : list (string * A)) : option A :=
  match props with
  | [] => None
  | (k', v) :: rest => if String.eqb k k' then Some v else lookup k rest
  end.

Definition from_option (o : option value) : value :=
  match o with Some v => v | None => VUndef end.

(** [v.name] for a data property [name] (not an index, not a prototype
    method): reading from null or undefined throws, an object gives its
    own property, an array its length, a string its length in code units,
    anything else [undefined]. *)
Definition get (v : value) (name : string) : outcome value :=
  match v with
  | VUndef | VNull => Throw TypeError
  | VObj props => Ok (from_option (lookup name props))
  | VArr items =>
      Ok (if String.eqb name "length" then VNum (Z.of_nat (List.length items)) else VUndef)
  | VStr s =>
      Ok (if String.eqb name "length"
          then VNum (Z.of_nat (List.length (Str.units s))) else VUndef)
  | VBool _ | VNum _ | VHeaders _ => Ok VUndef
  end.

(** [v?.name] *)
Definition get_opt (v : value) (name : string) : outcome value :=
  if nullish v then Ok VUndef else get v name.

Definition decimal (n : nat) : string :=
  NilZero.string_of_uint (Nat.to_uint n).

(** [v[i]] for a non-negative index. *)
Definition index (v : value) (i : nat) : outcome value :=
  match v with
  | VUndef | VNull => Throw TypeError
  | VArr items => Ok (nth i items VUndef)
  | VObj props => Ok (from_option (lookup (decimal i) props))
  | VStr s =>
      Ok (match nth_error (Str.units s) i with
          | Some unit => VStr unit
          | None => VUndef
          end)
  | VBool _ | VNum _ | VHeaders _ => Ok VUndef
  end.

(** [v?.[i]] *)
Definition index_opt (v : value) (i : nat) : outcome value :=
  if nullish v then Ok VUndef else index v i.

Definition is_string (v : value) (s : string) : bool :=
  match v with
  | VStr s' => String.eqb s' s
  | _ => false
  end.

(** [v.includes(needle)] for a value [v] that is not nullish: the
    substring test on a string, the membership test on an array, and a
    TypeError on everything else, which has no callable [includes]. *)
Definition call_includes (v : value) (needle : string) : outcome bool :=
  match v with
  | VStr s => Ok (Str.includes needle s)
  | VArr items => Ok (existsb (fun x => is_string x needle) items)
  | _ => Throw TypeError
  end.

(** [v?.includes(needle)], as a condition: [undefined] is false. *)
Definition includes_opt (v : value) (needle : string) : outcome bool :=
  if nullish v then Ok false else call_includes v needle.

(** [Array.isArray] *)
Definition isArray (v : value) : bool :=
  match v with VArr _ => true | _ => false end.

(** [headers.get?.(name)]: the accessor of a [Headers] instance gives the
    entry or [null]; a plain object has no [get] unless it has a property
    of that name, which is then not callable. *)
Definition call_get_opt (headers : value) (name : string) : outcome value :=
  match headers with
  | VUndef | VNull => Throw TypeError
  | VHeaders entries =>
      Ok (match lookup name entries with Some s => VStr s | None => VNull end)
  | VObj props =>
      if nullish (from_option (lookup "get" props)) then Ok VUndef
      else Throw TypeError
  | _ => Ok VUndef
  end.

End JS.

Export JS.

Declare Scope js_scope.
Delimit Scope js_scope with js.
Notation "'let*' x ':=' m 'in' k" := (JS.bind m (fun x => k))
  (at level 10, x name, m at level 100, k at level 200, only parsing) : js_scope.
Local Open Scope js_scope.

(* ================================================================== *)
(** * The host *)
(* ================================================================== *)

(** [ethers.Wallet]: the key it was built from, the RPC endpoint of its
    provider and the account address derived from the key. *)
Record Wallet : Type := {
  wallet_key : string;
  wallet_rpc : string;
  address : string
}.

(** The EIP-712 domain and the [TransferWithAuthorization] message handed
    to [wallet.signTypedData]. *)
Record TypedDomain : Type := {
  domain_name : value;
  domain_version : value;
  domain_chainId : Z;
  verifyingContract : value
}.

Record Authorization : Type := {
  auth_from : string;
  auth_to : value;
  auth_value : Z;
  validAfter : Z;
  validBefore : Z;
  nonce : string
}.

(** The library functions the program calls.  [None] is a throw. *)
Class Host : Type := {
  (** [JSON.parse(text)] *)
  JSON_parse : string -> option value;
  (** [Buffer.from(header, 'base64').toString()] *)
  Buffer_from_base64 : value -> option string;
  (** the address of [new ethers.Wallet(privateKey, provider)] *)
  Wallet_address : string -> option string;
  (** [wallet.signTypedData(domain, types, message)] *)
  signTypedData : Wallet -> TypedDomain -> Authorization -> option string;
  (** [Number.prototype.toString] of an integer beyond the safe range,
      where the digits are those of the nearest double and the exponent
      form sets in *)
  Number_toString : Z -> string;
  (** [String.prototype.toUpperCase] of a text that is not all ASCII: the
      case mapping of Unicode *)
  Unicode_toUpperCase : string -> string
}.

(* ================================================================== *)
(** * Conversions and serialisation *)
(* ================================================================== *)

Module Conv.

(** The decimal form of an integer: [BigInt.prototype.toString]. *)
Definition Zstr (n : Z) : string := NilZero.string_of_int (Z.to_int n).

Definition digit_val (c : ascii) : option Z :=
  let n := Z.of_nat (nat_of_ascii c) in
  if (48 <=? n) && (n <=? 57) then Some (n - 48)
  else if (97 <=? n) && (n <=? 102) then Some (n - 87)
  else if (65 <=? n) && (n <=? 70) then Some (n - 55)
  else None.

Fixpoint digits_from (base : Z) (s : string) (acc : Z) : option Z :=
  match s with
  | EmptyString => Some acc
  | String c rest =>
      match digit_val c with
      | Some d => if d <? base then digits_from base rest (acc * base + d) else None
      | None => None
      end
  end.

(** One or more digits of the base. *)
Definition digits (base : Z) (s : string) : option Z :=
  match s with
  | EmptyString => None
  | _ => digits_from base s 0
  end.

Definition radix_of (c : ascii) : option Z :=
  if Str.is_char c 120 || Str.is_char c 88 then Some 16
  else if Str.is_char c 111 || Str.is_char c 79 then Some 8
  else if Str.is_char c 98 || Str.is_char c 66 then Some 2
  else None.

(** A literal that starts with 0x, 0o or 0b: its base and its digits. *)
Definition radix_literal (t : string) : option (Z * string) :=
  match t with
  | String zero (String r ds) =>
      if Str.is_char zero 48 then option_map (fun base => (base, ds)) (radix_of r)
      else None
  | _ => None
  end.

(** StringToBigInt: optional white space around a signed decimal or an
    unsigned 0x / 0o / 0b literal; the empty string is zero. *)
Definition StringToBigInt (s : string) : option Z :=
  match Str.trim s with
  | EmptyString => Some 0
  | String c rest as t =>
      if Str.is_char c 45 then option_map Z.opp (digits 10 rest)
      else if Str.is_char c 43 then digits 10 rest
      else
        match radix_literal t with
        | Some (base, ds) => digits base ds
        | None => digits 10 t
        end
  end.

Definition hex_digit (n : nat) : ascii :=
  if Nat.ltb n 10 then ascii_of_nat (48 + n) else ascii_of_nat (87 + n).

Definition hex_byte (b : Byte.byte) (rest : string) : string :=
  let n := N.to_nat (Byte.to_N b) in
  String (hex_digit (n / 16)) (String (hex_digit (n mod 16)) rest).

(** [ethers.hexlify] of a byte array. *)
Definition hexlify (bytes : list Byte.byte) : string :=
  "0x" ++ fold_right hex_byte EmptyString bytes.

Definition dquote : ascii := ascii_of_nat 34.
Definition backslash : ascii := ascii_of_nat 92.

(** QuoteJSONString, without the surrounding quotes. *)
Definition escape_char (c : ascii) (rest : string) : string :=
  let n := nat_of_ascii c in
  if Nat.eqb n 34 then String backslash (String dquote rest)
  else if Nat.eqb n 92 then String backslash (String backslash rest)
  else if Nat.eqb n 8 then String backslash (String "b" rest)
  else if Nat.eqb n 9 then String backslash (String "t" rest)
  else if Nat.eqb n 10 then String backslash (String "n" rest)
  else if Nat.eqb n 12 then String backslash (String "f" rest)
  else if Nat.eqb n 13 then String backslash (String "r" rest)
  else if Nat.ltb n 32 then
    String backslash
      ("u00" ++ String (hex_digit (n / 16)) (String (hex_digit (n mod 16)) rest))
  else String c rest.

Fixpoint escape (s : string) : string :=
  match s with
  | EmptyString => EmptyString
  | String c rest => escape_char c (escape rest)
  end.

Definition quote (s : string) : string :=
  String dquote (escape s ++ String dquote EmptyString).

Definition base64_char (n : nat) : ascii :=
  if Nat.ltb n 26 then ascii_of_nat (65 + n)
  else if Nat.ltb n 52 then ascii_of_nat (71 + n)
  else if Nat.ltb n 62 then ascii_of_nat (n - 4)
  else if Nat.eqb n 62 then "+"%char
  else "/"%char.

(** [Buffer.from(s).toString("base64")]: three bytes make four characters,
    a last group of one or two bytes is padded with [=]. *)
Fixpoint base64 (s : string) : string :=
  match s with
  | EmptyString => EmptyString
  | String a EmptyString =>
      let a := nat_of_ascii a in
      String (base64_char (a / 4))
        (String (base64_char (a mod 4 * 16)) "==")
  | String a (String b EmptyString) =>
      let a := nat_of_ascii a in
      let b := nat_of_ascii b in
      String (base64_char (a / 4))
        (String (base64_char (a mod 4 * 16 + b / 16))
           (String (base64_char (b mod 16 * 4)) "="))
  | String a (String b (String c rest)) =>
      let a := nat_of_ascii a in
      let b := nat_of_ascii b in
      let c := nat_of_ascii c in
      String (base64_char (a / 4))
        (String (base64_char (a mod 4 * 16 + b / 16))
           (String (base64_char (b mod 16 * 4 + c / 64))
              (String (base64_char (c mod 64)) (base64 rest))))
  end.

Section Printing.

Context `{Host}.

(** [Number.prototype.toString] of an integer: its decimal form as long
    as it is a safe integer, what the host prints beyond. *)
Definition number_text (n : Z) : string :=
  if Z.abs n <=? 9007199254740991 then Zstr n else Number_toString n.

(** [String.prototype.toUpperCase]. *)
Definition toUpperCase (s : string) : string :=
  if Str.is_ascii s then Str.upper_ascii s else Unicode_toUpperCase s.

(** Does the object have a property of that name of its own? *)
Definition has_own (name : string) (props : list (string * value)) : bool :=
  match lookup name props with
  | Some _ => true
  | None => false
  end.

(** ToString on a value, as a template literal applies it.  An object
    prints through [Object.prototype.toString] unless it has a
    [toString] of its own, which is then not a function: nothing is left
    to call and the conversion throws.  An array prints through
    [Array.prototype.join], which prints null and undefined elements as
    nothing and converts the others in turn. *)
Fixpoint toString (v : value) : outcome string :=
  match v with
  | VUndef => Ok "undefined"
  | VNull => Ok "null"
  | VBool b => Ok (if b then "true" else "false")
  | VNum n => Ok (number_text n)
  | VStr s => Ok s
  | VArr items =>
      let* parts :=
        (fix each (l : list value) : outcome (list string) :=
           match l with
           | [] => Ok []
           | x :: rest =>
               let* first := (if nullish x then Ok EmptyString else toString x) in
               let* others := each rest in
               Ok (first :: others)
           end) items in
      Ok (String.concat "," parts)
  | VObj props =>
      if has_own "toString" props then Throw TypeError
      else Ok "[object Object]"
  | VHeaders _ => Ok "[object Headers]"
  end.

(** [BigInt(v)]: a number gives its value, anything that is not a
    primitive is printed first. *)
Definition BigInt (v : value) : outcome Z :=
  match v with
  | VUndef | VNull => Throw TypeError
  | VBool b => Ok (if b then 1 else 0)
  | VNum n => Ok n
  | other =>
      let* text := toString other in
      match StringToBigInt text with
      | Some n => Ok n
      | None => Throw SyntaxError
      end
  end.

(** [JSON.stringify(v)]; [None] is the result [undefined].  A property
    whose value is undefined is left out, an undefined array element is
    printed as null, a [Headers] instance has no own property. *)
Fixpoint stringify (v : value) : option string :=
  match v with
  | VUndef => None
  | VNull => Some "null"
  | VBool b => Some (if b then "true" else "false")
  | VNum n => Some (number_text n)
  | VStr s => Some (quote s)
  | VArr items =>
      Some ("[" ++ String.concat ","
              ((fix each (l : list value) : list string :=
                  match l with
                  | [] => []
                  | x :: rest =>
                      match stringify x with
                      | Some s => s
                      | None => "null"
                      end :: each rest
                  end) items) ++ "]")
  | VObj props =>
      Some ("{" ++ String.concat ","
              ((fix each (l : list (string * value)) : list string :=
                  match l with
                  | [] => []
                  | (k, x) :: rest =>
                      match stringify x with
                      | Some s => (quote k ++ ":" ++ s) :: each rest
                      | None => each rest
                      end
                  end) props) ++ "}")
  | VHeaders _ => Some "{}"
  end.

End Printing.

End Conv.

(* ================================================================== *)
(** * World and effects *)
(* ================================================================== *)

Local Open Scope list_scope.

(** A settled [fetch]: rejected by the transport, or a response with its
    [ok] flag and its body as [text()] and [json()] decode it. *)
Inductive fetched : Type :=
| Rejected (reason : value)
| Responded (ok : bool) (body : string).

(** What one recovery run reads from outside: the answer to the judge
    request, the two readings of [Date.now()] (milliseconds), the bytes of
    [ethers.randomBytes(32)] and the answer to the retry request. *)
Record World : Type := {
  judge_response : fetched;
  now_first : Z;
  now_second : Z;
  random_bytes : list Byte.byte;
  retry_response : fetched
}.

(** The lines the program writes to the console: the texts a template
    interpolates, the values [console.log] is handed as they are. *)
Inductive log_line : Type :=
| LogRescue (context amountStr : string)
| LogCaught (status message : string)
| LogDetected
| LogHeaderFailed (e : exn)
| LogDump (error : value)
| LogAutoPay
| LogRetry.

(** The observable steps of a run, in the order they happen: a line on
    the console, the POST of [consultJudge] with the two texts its prompt
    interpolates, the entry into [signPayment], the call of
    [wallet.signTypedData], the POST of [retry]. *)
Inductive event : Type :=
| Console (line : log_line)
| JudgeRequest (url : string) (context amountStr : string)
| SignPaymentCall (requirement : value)
| SignTypedDataCall (domain : TypedDomain) (message : Authorization)
| RetryRequest (url : string) (signature : string) (body : value).

Definition trace : Type := list event.

(** An asynchronous computation: the steps it made and how it settled. *)
Definition Eff (A : Type) : Type := (trace * outcome A)%type.

Definition ret {A} (a : A) : Eff A := ([], Ok a).
Definition throw {A} (e : exn) : Eff A := ([], Throw e).
Definition emit (ev : event) : Eff unit := ([ev], Ok tt).
Definition lift {A} (m : outcome A) : Eff A := ([], m).

Definition ebind {A B} (m : Eff A) (k : A -> Eff B) : Eff B :=
  match m with
  | (t, Ok a) => let (t', r) := k a in (t ++ t', r)
  | (t, Throw e) => (t, Throw e)
  end.

Notation "'let!' x ':=' m 'in' k" := (ebind m (fun x => k))
  (at level 10, x name, m at level 100, k at level 200, only parsing) : js_scope.
Notation "m ';;' k" := (ebind m (fun _ => k))
  (at level 100, k at level 200, right associativity, only parsing) : js_scope.

Definition steps {A} (m : Eff A) : trace := fst m.
Definition settled {A} (m : Eff A) : outcome A := snd m.

(** [await response.json()] *)
Definition response_json `{Host} (body : string) : outcome value :=
  match JSON_parse body with
  | Some v => Ok v
  | None => Throw SyntaxError
  end.

(* ================================================================== *)
(** * Types & configuration *)
(* ================================================================== *)

Record HaloConfig : Type := {
  privateKey : option string;
  apiKey : option string;
  haloUrl : option string;
  rpcUrl : option string
}.

(** [process.env], as far as the program reads it. *)
Record Env : Type := {
  HALO_API_KEY : option string;
  HALO_PROXY_URL : option string;
  HALO_WALLET_PRIVATE_KEY : option string
}.

Definition DEFAULT_HALO_URL : string := "https://api.agihalo.com".

(** [a || b] on optional strings: absent and empty are both falsy. *)
Definition or_string (a b : option string) : option string :=
  match a with
  | Some s => if Str.is_empty s then b else a
  | None => b
  end.

Definition string_or (a : option string) (default : string) : string :=
  match or_string a (Some default) with
  | Some s => s
  | None => default
  end.

Definition is_set (a : option string) : bool :=
  match a with
  | Some s => negb (Str.is_empty s)
  | None => false
  end.

(* ================================================================== *)
(** * 1. Halo Payment Tools *)
(* ================================================================== *)

Record HaloPaymentTools : Type := {
  wallet : option Wallet;
  tools_apiKey : string;
  tools_haloUrl : string
}.

Section Program.

Context `{Host}.

(** [new HaloPaymentTools(config)] *)
Definition new_HaloPaymentTools (env : Env) (config : HaloConfig)
  : outcome HaloPaymentTools :=
  let* w :=
    match privateKey config with
    | Some pk =>
        if Str.is_empty pk then Ok None
        else
          let rpc := string_or (rpcUrl config) "https://mainnet.base.org" in
          match Wallet_address pk with
          | Some a => Ok (Some {| wallet_key := pk; wallet_rpc := rpc; address := a |})
          | None => Throw HostError
          end
    | None => Ok None
    end in
  Ok {| wallet := w;
        tools_apiKey :=
          string_or (or_string (apiKey config) (HALO_API_KEY env)) EmptyString;
        tools_haloUrl :=
          Str.stripTrailingSlash
            (string_or (or_string (haloUrl config) (HALO_PROXY_URL env))
               DEFAULT_HALO_URL) |}.

(** The endpoint of both the judge request and the retry request. *)
Definition endpoint (haloUrl apiKey : string) : string :=
  (haloUrl ++ "/v1beta/models/gemini-3-flash-preview:generateContent?key="
     ++ apiKey)%string.

(** [data.candidates?.[0]?.content?.parts?.[0]?.text]: the part of the
    chain that the judge and the retry result share. *)
Definition candidate_text (data : value) : outcome value :=
  let* candidates := get data "candidates" in
  let* first := index_opt candidates 0 in
  let* content := get_opt first "content" in
  let* parts := get_opt content "parts" in
  let* part := index_opt parts 0 in
  get_opt part "text".

(** [text?.trim().toUpperCase()]: skipped on a nullish [text]; anything
    else than a string has no [trim] to call. *)
Definition trim_upper_opt (text : value) : outcome value :=
  match text with
  | VUndef | VNull => Ok VUndef
  | VStr s => Ok (VStr (Conv.toUpperCase (Str.trim s)))
  | _ => Throw TypeError
  end.

(** The value [consultJudge] returns for the parsed response [data]. *)
Definition judge_decision (data : value) : outcome value :=
  let* text := candidate_text data in
  let* shouted := trim_upper_opt text in
  Ok (or_else shouted (VStr "ERROR")).

(** [consultJudge(context, amountStr)].  The log line and the prompt are
    templates: both arguments are converted to text before anything is
    written or sent. *)
Definition consultJudge (tools : HaloPaymentTools) (w : World)
    (context amountStr : value) : Eff value :=
  let! resource := lift (Conv.toString context) in
  let! cost := lift (Conv.toString amountStr) in
  emit (Console (LogRescue resource cost)) ;;
  emit (JudgeRequest (endpoint (tools_haloUrl tools) (tools_apiKey tools))
          resource cost) ;;
  match judge_response w with
  | Rejected reason => throw (Thrown reason)
  | Responded _ body =>
      let! data := lift (response_json body) in
      lift (judge_decision data)
  end.

(** [v.first || v.second] *)
Definition get_or (v : value) (first second : string) : outcome value :=
  let* a := get v first in
  if truthy a then Ok a else get v second.

(** [v.extra?.name || fallback] *)
Definition extra_or (v : value) (name fallback : string) : outcome value :=
  let* extra := get v "extra" in
  let* x := get_opt extra name in
  Ok (or_else x (VStr fallback)).

Definition chainId : Z := 8453.

(** The object [payloadObj] of [signPayment]. *)
Definition payloadObj (requirement : value) (signature : string)
    (m : Authorization) : value :=
  VObj [("x402Version", VNum 2);
        ("accepted", requirement);
        ("payload",
          VObj [("signature", VStr signature);
                ("authorization",
                  VObj [("from", VStr (auth_from m));
                        ("to", auth_to m);
                        ("value", VStr (Conv.Zstr (auth_value m)));
                        ("validAfter", VStr (Conv.number_text (validAfter m)));
                        ("validBefore", VStr (Conv.number_text (validBefore m)));
                        ("nonce", VStr (nonce m))])])].

(** [Buffer.from(JSON.stringify(payloadObj)).toString("base64")] *)
Definition envelope (payload : value) : outcome string :=
  match Conv.stringify payload with
  | Some text => Ok (Conv.base64 text)
  | None => Throw TypeError
  end.

(** The message [signPayment] signs: the window is read off the clock
    twice, the nonce is the hex form of the random bytes. *)
Definition authorization (wal : Wallet) (w : World) (amount : Z)
    (payTo : value) : Authorization :=
  {| auth_from := address wal;
     auth_to := payTo;
     auth_value := amount;
     validAfter := now_first w / 1000 - 60;
     validBefore := now_second w / 1000 + 3600;
     nonce := Conv.hexlify (random_bytes w) |}.

Definition typed_domain (requirement : value) : outcome TypedDomain :=
  let* name := extra_or requirement "name" "USD Coin" in
  let* version := extra_or requirement "version" "2" in
  let* asset := get requirement "asset" in
  Ok {| domain_name := name;
        domain_version := version;
        domain_chainId := chainId;
        verifyingContract := asset |}.

(** [BigInt(requirement.amount || requirement.maxAmountRequired)] *)
Definition amount_of (requirement : value) : outcome Z :=
  let* source := get_or requirement "amount" "maxAmountRequired" in
  Conv.BigInt source.

(** [signPayment(requirement)] *)
Definition signPayment (tools : HaloPaymentTools) (w : World)
    (requirement : value) : Eff string :=
  emit (SignPaymentCall requirement) ;;
  match wallet tools with
  | None => throw (Error "No private key for signing.")
  | Some wal =>
      let! amount := lift (amount_of requirement) in
      let! domain := lift (typed_domain requirement) in
      let! payTo := lift (get requirement "payTo") in
      let message := authorization wal w amount payTo in
      emit (SignTypedDataCall domain message) ;;
      match signTypedData wal domain message with
      | None => throw HostError
      | Some signature =>
          lift (envelope (payloadObj requirement signature message))
      end
  end.

Definition getApiDetails (tools : HaloPaymentTools) : string * string :=
  (tools_apiKey tools, tools_haloUrl tools).

End Program.

(* ================================================================== *)
(** * 2. HALO System *)
(* ================================================================== *)

(** The regular expression [/\[(\{.*\})\]/] of the message strategy. *)
Module Pattern.

(** Does the text start with a line terminator, which [.] refuses?
    Line feed, carriage return, and U+2028 / U+2029 in UTF-8. *)
Definition at_line_terminator (s : string) : bool :=
  match s with
  | String c rest =>
      if Str.is_char c 10 || Str.is_char c 13 then true
      else if Str.is_char c 226 then
        match rest with
        | String d (String e _) =>
            Str.is_char d 128 && (Str.is_char e 168 || Str.is_char e 169)
        | _ => false
        end
      else false
  | EmptyString => false
  end.

(** [.*\}\]] at the start of [s], greedy: the text taken by [.*\}], the
    longest there is. *)
Fixpoint body (s : string) : option string :=
  match s with
  | EmptyString => None
  | String c rest =>
      match (if at_line_terminator s then None else body rest) with
      | Some m => Some (String c m)
      | None =>
          if Str.is_char c 125 then
            match rest with
            | String d _ => if Str.is_char d 93 then Some (String c EmptyString) else None
            | EmptyString => None
            end
          else None
      end
  end.

(** The first capture group of the leftmost match, if the text matches. *)
Fixpoint group1 (s : string) : option string :=
  match s with
  | EmptyString => None
  | String c rest =>
      let here :=
        if Str.is_char c 91 then
          match rest with
          | String d inner =>
              if Str.is_char d 123 then option_map (String d) (body inner) else None
          | EmptyString => None
          end
        else None in
      match here with
      | Some m => Some m
      | None => group1 rest
      end
  end.

End Pattern.

(** The object [retry] returns: its properties in the order they were
    defined, where the property built by the wrapper is the object
    holding the [text] accessor, which closes over the parsed response.
    (JavaScript enumerates index-like keys first; the statements below
    read the object by key and do not depend on the order.) *)
Inductive member : Type :=
| TextAccessor (json : value)
| Plain (v : value).

Definition result_object : Type := list (string * member).

(** What a wrapped method gives back: what the original returned, or the
    object built by [retry]. *)
Inductive retval : Type :=
| Native (v : value)
| Recovered (r : result_object).

(** How the original method completed. *)
Inductive completion : Type :=
| Returns (v : value)
| Throws (error : value).

Record HaloAutoHandler : Type := {
  tools : HaloPaymentTools;
  autoApprove : bool
}.

(** Defining a property on an object: an existing key keeps its place and
    takes the new value, a new key goes last. *)
Fixpoint assign {A} (k : string) (x : A) (o : list (string * A))
  : list (string * A) :=
  match o with
  | [] => [(k, x)]
  | (k', x') :: rest =>
      if String.eqb k k' then (k, x) :: rest else (k', x') :: assign k x rest
  end.

Fixpoint indexed {A} (from : nat) (l : list A) : list (string * A) :=
  match l with
  | [] => []
  | x :: rest => (JS.decimal from, x) :: indexed (S from) rest
  end.

(** The characters of a string, one per code unit. *)
Definition chars (s : string) : list value := map VStr (Str.units s).

(** The own enumerable properties that [...json] copies. *)
Definition own_enumerable (json : value) : list (string * value) :=
  match json with
  | VObj props => props
  | VArr items => indexed 0 items
  | VStr s => indexed 0 (chars s)
  | _ => []
  end.

(** [{ ...o, ...json }] *)
Definition spread (o : result_object) (json : value) : result_object :=
  fold_left (fun acc kv => assign (fst kv) (Plain (snd kv)) acc)
    (own_enumerable json) o.

Section Recovery.

Context `{Host}.

(** [new HaloAutoHandler(config)] *)
Definition new_HaloAutoHandler (env : Env) (config : HaloConfig)
  : outcome HaloAutoHandler :=
  let pk := or_string (privateKey config) (HALO_WALLET_PRIVATE_KEY env) in
  let* t := new_HaloPaymentTools env
              {| privateKey := pk;
                 apiKey := apiKey config;
                 haloUrl := haloUrl config;
                 rpcUrl := rpcUrl config |} in
  Ok {| tools := t; autoApprove := is_set pk |}.

(** [json.candidates?.[0]?.content?.parts?.[0]?.text || ""], the body of
    the [text] accessor. *)
Definition text_accessor (json : value) : outcome value :=
  let* text := candidate_text json in
  Ok (or_else text (VStr EmptyString)).

(** [result.response.text()] on a returned object. *)
Definition response_text (r : result_object) : outcome value :=
  match lookup "response" r with
  | Some (TextAccessor json) => text_accessor json
  | Some (Plain _) => Throw TypeError
  | None => Throw TypeError
  end.

(** [retry(signature, args, apiDetails)] *)
Definition retry (w : World) (signature : string) (args : list value)
    (apiDetails : string * string) : Eff result_object :=
  let (apiKey, haloUrl) := apiDetails in
  let contents := nth 0 args VUndef in
  let contents :=
    match contents with
    | VStr s =>
        VObj [("contents", VArr [VObj [("parts", VArr [VObj [("text", VStr s)]])]])]
    | _ => contents
    end in
  emit (Console LogRetry) ;;
  emit (RetryRequest (endpoint haloUrl apiKey) signature contents) ;;
  match retry_response w with
  | Rejected reason => throw (Thrown reason)
  | Responded ok body =>
      if negb ok then throw (Error ("Retry failed: " ++ body)%string)
      else
        let! json := lift (response_json body) in
        ret (spread [("response", TextAccessor json)] json)
  end.

(** [error.response?.headers?.get?.('payment-required') ||
     error.response?.headers?.['payment-required']] *)
Definition payment_header (error : value) : outcome value :=
  let* response := get error "response" in
  let* headers := get_opt response "headers" in
  let* viaGet :=
    if nullish headers then Ok VUndef
    else call_get_opt headers "payment-required" in
  if truthy viaGet then Ok viaGet
  else get_opt headers "payment-required".

(** The body of the [try] of strategy A: the new value of [reqData]. *)
Definition header_terms (error : value) : outcome value :=
  let* header := payment_header error in
  if truthy header then
    match Buffer_from_base64 header with
    | Some text => response_json text
    | None => Throw HostError
    end
  else Ok VUndef.

(** Strategy A: the header of [error.response].  Whatever is thrown inside
    is logged and leaves [reqData] undefined. *)
Definition strategyA (error : value) : Eff value :=
  match header_terms error with
  | Ok reqData => ret reqData
  | Throw e => emit (Console (LogHeaderFailed e)) ;; ret VUndef
  end.

(** Strategy B: [error.errorDetails], taking [reqData] as it stands and
    giving its new value. *)
Definition strategyB (error reqData : value) : outcome value :=
  if truthy reqData then Ok reqData
  else
    let* details := get error "errorDetails" in
    if truthy details && isArray details then
      let* len := get details "length" in
      if match len with VNum n => 0 <? n | _ => false end then
        let* first := index details 0 in
        let* accepts := get first "accepts" in
        if truthy accepts then Ok first
        else
          let* version := get first "x402Version" in
          if truthy version then Ok first else Ok VNull
      else Ok reqData
    else Ok reqData.

(** [message.match(/\[(\{.*\})\]/)], giving the first group. *)
Definition call_match (message : value) : outcome (option string) :=
  match message with
  | VStr s => Ok (Pattern.group1 s)
  | _ => Throw TypeError
  end.

(** Strategy C: a JSON object in brackets inside [error.message]. *)
Definition strategyC (error reqData : value) : outcome value :=
  if truthy reqData then Ok reqData
  else
    let* message := get error "message" in
    if truthy message then
      let* jsonMatch := call_match message in
      match jsonMatch with
      | Some group =>
          if truthy (VStr group) then
            match JSON_parse group with
            | Some parsed => Ok parsed
            | None => Ok reqData
            end
          else Ok reqData
      | None => Ok reqData
      end
    else Ok reqData.

(** Step 1 of [autoRecover]: the three strategies and the final test. *)
Definition extract (error : value) : Eff value :=
  let! reqData := strategyA error in
  let! reqData := lift (strategyB error reqData) in
  let! reqData := lift (strategyC error reqData) in
  if truthy reqData then ret reqData
  else
    emit (Console (LogDump error)) ;;
    throw (Error "Could not extract payment requirements from 402 error").

(** [reqData.accepts ? reqData.accepts[0] : reqData] *)
Definition requirement_of (reqData : value) : outcome value :=
  let* accepts := get reqData "accepts" in
  if truthy accepts then index accepts 0 else Ok reqData.

(** [reqData.resource || {}] *)
Definition resource_of (reqData : value) : outcome value :=
  let* resource := get reqData "resource" in
  Ok (or_else resource (VObj [])).

(** Step 2 of [autoRecover]: auto-approve or ask the judge. *)
Definition approve (h : HaloAutoHandler) (w : World)
    (resource amountStr : value) : Eff unit :=
  if autoApprove h then emit (Console LogAutoPay)
  else
    let! description := lift (get resource "description") in
    let! decision := consultJudge (tools h) w description amountStr in
    let! yes := lift (call_includes decision "YES") in
    if yes then ret tt else throw (Error "Judge denied payment.").

(** [autoRecover(error, args, originalMethod, originalContext)]; the last
    two arguments are not used by the method. *)
Definition autoRecover (h : HaloAutoHandler) (w : World) (error : value)
    (args : list value) : Eff result_object :=
  let! reqData := extract error in
  let! requirement := lift (requirement_of reqData) in
  let! resource := lift (resource_of reqData) in
  let! amountStr := lift (get_or requirement "amount" "maxAmountRequired") in
  approve h w resource amountStr ;;
  let! signature := signPayment (tools h) w requirement in
  retry w signature args (getApiDetails (tools h)).

(** [error.response?.status || error.status || 0] *)
Definition status_of (error : value) : outcome value :=
  let* response := get error "response" in
  let* fromResponse := get_opt response "status" in
  if truthy fromResponse then Ok fromResponse
  else
    let* own := get error "status" in
    Ok (or_else own (VNum 0)).

Definition is_402 (status : value) : bool :=
  match status with
  | VNum n => n =? 402
  | _ => false
  end.

(** The condition of the [if] in the [catch] block. *)
Definition payment_required (status error : value) : outcome bool :=
  if is_402 status then Ok true
  else
    let* message := get error "message" in
    let* has402 := includes_opt message "402" in
    if has402 then Ok true
    else includes_opt message "Payment Required".

(** The function the proxy returns for a method of the model, applied to
    [args]; [original] is how [value.apply(target, args)] completed.  The
    debug line is a template: the status and the message are converted to
    text before it is written. *)
Definition intercepted (h : HaloAutoHandler) (w : World) (args : list value)
    (original : completion) : Eff retval :=
  match original with
  | Returns v => ret (Native v)
  | Throws error =>
      let! status := lift (status_of error) in
      let! statusText := lift (Conv.toString status) in
      let! message := lift (get error "message") in
      let! messageText := lift (Conv.toString message) in
      emit (Console (LogCaught statusText messageText)) ;;
      let! detected := lift (payment_required status error) in
      if detected then
        emit (Console LogDetected) ;;
        let! r := autoRecover h w error args in
        ret (Recovered r)
      else throw (Thrown error)
  end.

(** A property of the wrapped model, as [Reflect.get] finds it. *)
Inductive property : Type :=
| Method (behaviour : list value -> completion)
| Data (v : value).

Definition Model : Type := string -> property.

Record Proxy : Type := {
  target : Model;
  handler : HaloAutoHandler
}.

(** [haloSystem(model, config)] *)
Definition haloSystem (env : Env) (model : Model) (config : HaloConfig)
  : outcome Proxy :=
  let pk := or_string (privateKey config) (HALO_WALLET_PRIVATE_KEY env) in
  if negb (is_set pk) then Throw (Error "privateKey is required for haloSystem")
  else
    let* h := new_HaloAutoHandler env config in
    Ok {| target := model; handler := h |}.

(** What reading a property of the proxy gives. *)
Inductive proxied : Type :=
| Wrapped (call : World -> list value -> Eff retval)
| Passed (v : value).

(** [proxyHandler.get] *)
Definition proxy_get (p : Proxy) (prop : string) : proxied :=
  match target p prop with
  | Method behaviour =>
      Wrapped (fun w args => intercepted (handler p) w args (behaviour args))
  | Data v => Passed v
  end.

End Recovery.

(* ================================================================== *)
(** * A host to run the program on *)
(* ================================================================== *)

(** A reader of JSON texts and of base64, and a stand-in for ethers, so
    that the program can be run on wire-level inputs.  The reader covers
    the JSON grammar with integer numbers and without [\u] escapes; it
    refuses the rest. *)
Module Sample.

Definition is_ws (c : ascii) : bool :=
  match nat_of_ascii c with
  | 9%nat | 10%nat | 13%nat | 32%nat => true
  | _ => false
  end.

Fixpoint skip_ws (s : string) : string :=
  match s with
  | String c rest => if is_ws c then skip_ws rest else s
  | EmptyString => s
  end.

Fixpoint drop (n : nat) (s : string) : string :=
  match n, s with
  | S m, String _ rest => drop m rest
  | _, _ => s
  end.

Fixpoint take_digits (s : string) : string * string :=
  match s with
  | String c rest =>
      if Str.is_digit c then let (d, r) := take_digits rest in (String c d, r)
      else (EmptyString, s)
  | EmptyString => (EmptyString, s)
  end.

(** The characters of a string literal after its opening quote. *)
Fixpoint string_body (s : string) : option (string * string) :=
  match s with
  | EmptyString => None
  | String c rest =>
      if Str.is_char c 34 then Some (EmptyString, rest)
      else if Str.is_char c 92 then
        match rest with
        | String e rest' =>
            let plain (x : ascii) :=
              option_map (fun p => (String x (fst p), snd p)) (string_body rest') in
            match nat_of_ascii e with
            | 34%nat | 92%nat | 47%nat => plain e
            | 98%nat => plain (ascii_of_nat 8)
            | 102%nat => plain (ascii_of_nat 12)
            | 110%nat => plain (ascii_of_nat 10)
            | 114%nat => plain (ascii_of_nat 13)
            | 116%nat => plain (ascii_of_nat 9)
            | _ => None
            end
        | EmptyString => None
        end
      else if Nat.ltb (nat_of_ascii c) 32 then None
      else option_map (fun p => (String c (fst p), snd p)) (string_body rest)
  end.

Definition number (s : string) : option (value * string) :=
  let (negative, s') :=
    match s with
    | String c rest => if Str.is_char c 45 then (true, rest) else (false, s)
    | EmptyString => (false, s)
    end in
  let (ds, rest) := take_digits s' in
  let integral :=
    match rest with
    | String c _ =>
        negb (Str.is_char c 46 || Str.is_char c 101 || Str.is_char c 69)
    | EmptyString => true
    end in
  let canonical :=
    match ds with
    | String c (String _ _) => negb (Str.is_char c 48)
    | _ => true
    end in
  if integral && canonical then
    match Conv.digits 10 ds with
    | Some n => Some (VNum (if negative then - n else n), rest)
    | None => None
    end
  else None.

Fixpoint element (fuel : nat) (s : string) : option (value * string) :=
  match fuel with
  | O => None
  | S fuel' =>
      let s := skip_ws s in
      if String.prefix "null" s then Some (VNull, drop 4 s)
      else if String.prefix "true" s then Some (VBool true, drop 4 s)
      else if String.prefix "false" s then Some (VBool false, drop 5 s)
      else
        match s with
        | EmptyString => None
        | String c rest =>
            if Str.is_char c 34 then
              option_map (fun p => (VStr (fst p), snd p)) (string_body rest)
            else if Str.is_char c 91 then
              match skip_ws rest with
              | String d rest' =>
                  if Str.is_char d 93 then Some (VArr [], rest')
                  else
                    option_map (fun p => (VArr (fst p), snd p))
                      (elements fuel' (skip_ws rest))
              | EmptyString => None
              end
            else if Str.is_char c 123 then
              match skip_ws rest with
              | String d rest' =>
                  if Str.is_char d 125 then Some (VObj [], rest')
                  else
                    option_map (fun p => (VObj (fst p), snd p))
                      (members fuel' (skip_ws rest) [])
              | EmptyString => None
              end
            else number s
        end
  end

with elements (fuel : nat) (s : string) : option (list value * string) :=
  match fuel with
  | O => None
  | S fuel' =>
      match element fuel' s with
      | Some (v, rest) =>
          match skip_ws rest with
          | String c rest' =>
              if Str.is_char c 44 then
                option_map (fun p => (v :: fst p, snd p)) (elements fuel' rest')
              else if Str.is_char c 93 then Some ([v], rest')
              else None
          | EmptyString => None
          end
      | None => None
      end
  end

with members (fuel : nat) (s : string) (acc : list (string * value))
  : option (list (string * value) * string) :=
  match fuel with
  | O => None
  | S fuel' =>
      match skip_ws s with
      | String q rest =>
          if Str.is_char q 34 then
            match string_body rest with
            | Some (k, rest1) =>
                match skip_ws rest1 with
                | String colon rest2 =>
                    if Str.is_char colon 58 then
                      match element fuel' rest2 with
                      | Some (v, rest3) =>
                          let acc' := assign k v acc in
                          match skip_ws rest3 with
                          | String c rest4 =>
                              if Str.is_char c 44 then members fuel' rest4 acc'
                              else if Str.is_char c 125 then Some (acc', rest4)
                              else None
                          | EmptyString => None
                          end
                      | None => None
                      end
                    else None
                | EmptyString => None
                end
            | None => None
            end
          else None
      | EmptyString => None
      end
  end.

Definition parse (text : string) : option value :=
  match element (2 * String.length text + 2) text with
  | Some (v, rest) =>
      match skip_ws rest with
      | EmptyString => Some v
      | _ => None
      end
  | None => None
  end.

Definition sextet (c : ascii) : option nat :=
  let n := nat_of_ascii c in
  if Nat.leb 65 n && Nat.leb n 90 then Some (n - 65)%nat
  else if Nat.leb 97 n && Nat.leb n 122 then Some (n - 71)%nat
  else if Nat.leb 48 n && Nat.leb n 57 then Some (n + 4)%nat
  else if Nat.eqb n 43 then Some 62%nat
  else if Nat.eqb n 47 then Some 63%nat
  else None.

(** The reverse of [Conv.base64], on padded text of the standard
    alphabet. *)
Fixpoint unbase64 (s : string) : option string :=
  match s with
  | EmptyString => Some EmptyString
  | String a (String b (String c (String d rest))) =>
      match sextet a, sextet b with
      | Some x, Some y =>
          let b1 := ascii_of_nat (x * 4 + y / 16) in
          if Str.is_char c 61 then
            if Str.is_char d 61 && Str.is_empty rest
            then Some (String b1 EmptyString) else None
          else
            match sextet c with
            | Some z =>
                let b2 := ascii_of_nat (y mod 16 * 16 + z / 4) in
                if Str.is_char d 61 then
                  if Str.is_empty rest
                  then Some (String b1 (String b2 EmptyString)) else None
                else
                  match sextet d with
                  | Some u =>
                      let b3 := ascii_of_nat (z mod 4 * 64 + u) in
                      option_map (fun t => String b1 (String b2 (String b3 t)))
                        (unbase64 rest)
                  | None => None
                  end
            | None => None
            end
      | _, _ => None
      end
  | _ => None
  end.

(** The host: the reader above for [JSON.parse], [unbase64] for [Buffer]
    on a string header, a wallet for every key that starts with 0x, and a
    signature that spells out the nonce and the value it covers.  The
    scenarios stay within safe integers and ASCII, so that the last two
    functions are never reached: they print all digits and map nothing. *)
Definition host : Host :=
  {| JSON_parse := parse;
     Buffer_from_base64 :=
       fun header => match header with VStr s => unbase64 s | _ => None end;
     Wallet_address :=
       fun pk => if String.prefix "0x" pk then Some ("0xacc" ++ pk)%string else None;
     signTypedData :=
       fun wal domain message =>
         Some ("0xsig:" ++ nonce message ++ ":"
                 ++ Conv.Zstr (auth_value message))%string;
     Number_toString := Conv.Zstr;
     Unicode_toUpperCase := fun s => s |}.

End Sample.

(* ================================================================== *)
(** * Scenarios *)
(* ================================================================== *)

(** Concrete configurations, worlds and failures on which the program is
    run below. *)
Module Scenario.

Definition no_env : Env :=
  {| HALO_API_KEY := None; HALO_PROXY_URL := None;
     HALO_WALLET_PRIVATE_KEY := None |}.

Definition keyed_config : HaloConfig :=
  {| privateKey := Some "0xabc"; apiKey := Some "sk-1";
     haloUrl := Some "https://halo.test/"; rpcUrl := None |}.

Definition keyless_config : HaloConfig :=
  {| privateKey := None; apiKey := Some "sk-1";
     haloUrl := Some "https://halo.test/"; rpcUrl := None |}.

Definition the_wallet : Wallet :=
  {| wallet_key := "0xabc"; wallet_rpc := "https://mainnet.base.org";
     address := "0xacc0xabc" |}.

Definition keyed_tools : HaloPaymentTools :=
  {| wallet := Some the_wallet; tools_apiKey := "sk-1";
     tools_haloUrl := "https://halo.test" |}.

Definition keyless_tools : HaloPaymentTools :=
  {| wallet := None; tools_apiKey := "sk-1";
     tools_haloUrl := "https://halo.test" |}.

Definition keyed : HaloAutoHandler :=
  {| tools := keyed_tools; autoApprove := true |}.

Definition keyless : HaloAutoHandler :=
  {| tools := keyless_tools; autoApprove := false |}.

Definition url : string :=
  "https://halo.test/v1beta/models/gemini-3-flash-preview:generateContent?key=sk-1".

Definition q : string := String Conv.dquote EmptyString.

(** A judge reply and a retry reply carrying [text] as candidate text. *)
Definition candidates_body (text : string) : string :=
  ("{" ++ q ++ "candidates" ++ q ++ ":[{" ++ q ++ "content" ++ q ++ ":{"
     ++ q ++ "parts" ++ q ++ ":[{" ++ q ++ "text" ++ q ++ ":" ++ q ++ text
     ++ q ++ "}]}}]}")%string.

Definition draw (b : Byte.byte) : list Byte.byte := repeat b 32.

(** The clock reads 1700000000.250 s and .260 s; the judge says [judge];
    the retry is answered 200 with the text hello. *)
Definition world (judge : string) (bytes : list Byte.byte) : World :=
  {| judge_response := Responded true (candidates_body judge);
     now_first := 1700000000250;
     now_second := 1700000000260;
     random_bytes := bytes;
     retry_response := Responded true (candidates_body "hello") |}.

Definition calm : World := world "YES" (draw Byte.x11).

(** The clock passes a full second between its two readings. *)
Definition ticking : World :=
  {| judge_response := Responded true (candidates_body "YES");
     now_first := 1700000000999;
     now_second := 1700000001000;
     random_bytes := draw Byte.x11;
     retry_response := Responded true (candidates_body "hello") |}.


Definition terms : value :=
  VObj [("amount", VStr "1000000"); ("asset", VStr "0xUSDC");
        ("payTo", VStr "0xDest")].

(** The failure of the end-to-end scenario: status 402 and the terms in
    the first entry of [errorDetails]. *)
Definition failure_402 : value :=
  VObj [("status", VNum 402);
        ("message", VStr "quota exceeded");
        ("errorDetails", VArr [VObj [("accepts", VArr [terms])]])].

Definition failure_500 : value :=
  VObj [("status", VNum 500); ("message", VStr "Internal Server Error")].

(** The response says 500, the error itself says 402. *)
Definition failure_mixed : value :=
  VObj [("response", VObj [("status", VNum 500)]);
        ("status", VNum 402);
        ("message", VStr "boom")].



(** The terms of [failure_402] with a described resource next to them. *)
Definition failure_described : value :=
  VObj [("status", VNum 402);
        ("message", VStr "quota exceeded");
        ("errorDetails",
          VArr [VObj [("accepts", VArr [terms]);
                      ("resource", VObj [("description", VStr "physics data")])]])].

(** A retry reply that has a [response] field of its own. *)
Definition shadowing_body : string :=
  ("{" ++ q ++ "response" ++ q ++ ":" ++ q ++ "native" ++ q ++ ","
     ++ q ++ "n" ++ q ++ ":1}")%string.

(** A retry reply with two candidates, the first of two parts, and a
    field next to them. *)
Definition two_candidates_body : string :=
  ("{" ++ q ++ "candidates" ++ q ++ ":[{" ++ q ++ "content" ++ q ++ ":{"
     ++ q ++ "parts" ++ q ++ ":[{" ++ q ++ "text" ++ q ++ ":" ++ q ++ "hello"
     ++ q ++ "},{" ++ q ++ "text" ++ q ++ ":" ++ q ++ "again" ++ q ++ "}]}},{"
     ++ q ++ "content" ++ q ++ ":{" ++ q ++ "parts" ++ q ++ ":[{" ++ q
     ++ "text" ++ q ++ ":" ++ q ++ "other" ++ q ++ "}]}}]," ++ q ++ "usage"
     ++ q ++ ":7}")%string.

Definition two_candidates : list (string * value) :=
  [("candidates",
     VArr [VObj [("content",
                   VObj [("parts", VArr [VObj [("text", VStr "hello")];
                                         VObj [("text", VStr "again")]])])];
           VObj [("content",
                   VObj [("parts", VArr [VObj [("text", VStr "other")]])])]]);
   ("usage", VNum 7)].

(** The retry is answered 200 with the body [body]. *)
Definition replied (body : string) : World :=
  {| judge_response := Rejected VNull;
     now_first := 1700000000250;
     now_second := 1700000000260;
     random_bytes := draw Byte.x11;
     retry_response := Responded true body |}.

(** The JSON text of the full protocol response, and its base64 form as
    a server puts it in the payment-required header. *)
Definition terms_text : string :=
  ("{" ++ q ++ "accepts" ++ q ++ ":[{" ++ q ++ "amount" ++ q ++ ":" ++ q
     ++ "1000000" ++ q ++ "," ++ q ++ "asset" ++ q ++ ":" ++ q ++ "0xUSDC"
     ++ q ++ "," ++ q ++ "payTo" ++ q ++ ":" ++ q ++ "0xDest" ++ q
     ++ "}]}")%string.

Definition terms_header : string := Conv.base64 terms_text.

(** The terms in the header of a fetch response, behind the accessor. *)
Definition failure_header_accessor : value :=
  VObj [("message", VStr "Payment Required");
        ("response",
          VObj [("status", VNum 402);
                ("headers", VHeaders [("payment-required", terms_header)])])].

(** The terms in the header of a response with plain-object headers. *)
Definition failure_header_plain : value :=
  VObj [("message", VStr "Payment Required");
        ("response",
          VObj [("status", VNum 402);
                ("headers", VObj [("payment-required", VStr terms_header)])])].

(** The terms only in the message text, in brackets. *)
Definition failure_message : value :=
  VObj [("message",
          VStr ("[402 Payment Required] quota exceeded [" ++ terms_text ++ "]"))].

(** Terms in all three places, each with another amount. *)
Definition failure_everywhere : value :=
  VObj [("message",
          VStr ("[402 Payment Required] [{" ++ q ++ "amount" ++ q ++ ":3}]"));
        ("errorDetails", VArr [VObj [("x402Version", VNum 2);
                                     ("amount", VNum 2)]]);
        ("response",
          VObj [("status", VNum 402);
                ("headers", VHeaders [("payment-required", terms_header)])])].

(** Payment required, and terms nowhere. *)
Definition failure_bare : value :=
  VObj [("status", VNum 402); ("message", VStr "Payment Required")].

(** A first details entry that is null. *)
Definition failure_null_details : value :=
  VObj [("status", VNum 402); ("message", VStr "Payment Required");
        ("errorDetails", VArr [VNull])].

(** A first details entry that is null, and the terms in the message. *)
Definition failure_null_details_terms : value :=
  VObj [("message",
          VStr ("[402 Payment Required] quota exceeded [" ++ terms_text ++ "]"));
        ("errorDetails", VArr [VNull])].

(** Terms whose [accepts] is the empty array. *)
Definition failure_empty_accepts : value :=
  VObj [("status", VNum 402); ("message", VStr "quota exceeded");
        ("errorDetails", VArr [VObj [("accepts", VArr [])]])].

(** The envelope [signPayment] returns for [terms] in the world [calm]. *)
Definition calm_envelope : string :=
  match settled (signPayment (H := Sample.host) keyed_tools calm terms) with
  | Ok env => env
  | Throw _ => EmptyString
  end.

(** A model with one method, which fails with [failure_402]. *)
Definition model : Model :=
  fun prop =>
    if String.eqb prop "generateContent" then Method (fun _ => Throws failure_402)
    else Data VUndef.


End Scenario.

(* ================================================================== *)
(** * Observations and statements *)
(* ================================================================== *)

(** Definitions the properties below are stated with. *)

(** The fields the classification reads, as plain observations of the
    failure: [undefined] where there is nothing to read. *)
Definition response_status (error : value) : value :=
  match get error "response" with
  | Ok response =>
      match get_opt response "status" with
      | Ok s => s
      | Throw _ => VUndef
      end
  | Throw _ => VUndef
  end.

Definition own_status (error : value) : value :=
  match get error "status" with
  | Ok s => s
  | Throw _ => VUndef
  end.

Definition message_of (error : value) : value :=
  match get error "message" with
  | Ok m => m
  | Throw _ => VUndef
  end.

Definition message_includes (error : value) (needle : string) : bool :=
  match message_of error with
  | VStr s => Str.includes needle s
  | _ => false
  end.

(** The classification in the words of the specification: either status
    field equals 402, or the message mentions it. *)
Definition claimed_payment_required (error : value) : bool :=
  is_402 (response_status error) || is_402 (own_status error)
  || message_includes error "402"
  || message_includes error "Payment Required".

(** The status the interceptor compares: the status of the response when
    that is truthy, the error's own status otherwise, 0 when neither is. *)
Definition effective_status (error : value) : value :=
  or_else (response_status error) (or_else (own_status error) (VNum 0)).

Definition classified (error : value) : bool :=
  is_402 (effective_status error)
  || message_includes error "402"
  || message_includes error "Payment Required".

(** A message the substring test applies to: a string, or none. *)
Definition textual (m : value) : bool :=
  match m with
  | VUndef | VNull | VStr _ => true
  | _ => false
  end.

Section Printed.

Context `{Host}.

(** Can the value be written into a template?  It cannot when the
    conversion to text throws. *)
Definition printable (v : value) : bool :=
  match Conv.toString v with
  | Ok _ => true
  | Throw _ => false
  end.

(** The text a template writes for a value. *)
Definition printed (v : value) : string :=
  match Conv.toString v with
  | Ok text => text
  | Throw _ => EmptyString
  end.

End Printed.

(** The property [name] of an object, [undefined] for what has no such
    property. *)
Definition field (v : value) (name : string) : value :=
  match v with
  | VObj props => from_option (lookup name props)
  | _ => VUndef
  end.

(** What stands at index 0: the first element of an array, the first
    code unit of a string, the property 0 of an object. *)
Definition first_of (v : value) : value :=
  match v with
  | VArr (x :: _) => x
  | VStr s =>
      match Str.units s with
      | unit :: _ => VStr unit
      | [] => VUndef
      end
  | VObj props => from_option (lookup "0" props)
  | _ => VUndef
  end.

(** The value at the end of a path of property names. *)
Fixpoint path (v : value) (names : list string) : value :=
  match names with
  | [] => v
  | name :: rest => path (field v name) rest
  end.

(** What one extraction strategy comes to when it is tried on its own. *)
Inductive attempt : Type :=
| Yields (reqData : value)
| Nothing
| Crashes (e : exn).

(** The first attempt that is not [Nothing]; later ones are not looked
    at. *)
Fixpoint first_yield (attempts : list attempt) : attempt :=
  match attempts with
  | [] => Nothing
  | Nothing :: later => first_yield later
  | found :: _ => found
  end.

(** How a strategy that ran came out, read off the value it left. *)
Definition attempt_of (r : outcome value) : attempt :=
  match r with
  | Ok v => if truthy v then Yields v else Nothing
  | Throw e => Crashes e
  end.

Section Strategies.

Context `{Host}.

(** The headers of the response attached to the failure. *)
Definition response_headers (error : value) : value :=
  field (field error "response") "headers".

(** The payment-required header as the strategy reads it: the entry of a
    [Headers] instance, through its accessor, or the property of that
    name of plain-object headers.  [None]: the reading throws, because
    the failure is null or undefined, or because the headers are an
    object with a [get] that is not a function. *)
Definition header_read (error : value) : option value :=
  if nullish error then None
  else
    match response_headers error with
    | VHeaders entries =>
        Some match lookup "payment-required" entries with
             | Some text => if Str.is_empty text then VUndef else VStr text
             | None => VUndef
             end
    | VObj props =>
        if nullish (from_option (lookup "get" props))
        then Some (from_option (lookup "payment-required" props))
        else None
    | _ => Some VUndef
    end.

(** Header strategy: the header, decoded from base64 and parsed, when
    there is a header and the parse gives something truthy; whatever is
    thrown on the way is swallowed. *)
Definition header_attempt (error : value) : attempt :=
  match header_read error with
  | Some header =>
      if truthy header then
        match Buffer_from_base64 header with
        | Some text =>
            match JSON_parse text with
            | Some reqData => if truthy reqData then Yields reqData else Nothing
            | None => Nothing
            end
        | None => Nothing
        end
      else Nothing
  | None => Nothing
  end.

(** What the header strategy writes to the console: the error it
    swallowed, if any. *)
Definition header_log (error : value) : trace :=
  match header_read error with
  | Some header =>
      if truthy header then
        match Buffer_from_base64 header with
        | Some text =>
            match JSON_parse text with
            | Some _ => []
            | None => [Console (LogHeaderFailed SyntaxError)]
            end
        | None => [Console (LogHeaderFailed HostError)]
        end
      else []
  | None => [Console (LogHeaderFailed TypeError)]
  end.

(** Details strategy: the first element of an array-valued
    [errorDetails], accepted when it has a truthy [accepts] or
    [x402Version], discarded otherwise.  Reading a property of a null or
    undefined first element throws. *)
Definition details_attempt (error : value) : attempt :=
  match get error "errorDetails" with
  | Throw e => Crashes e
  | Ok (VArr (first :: _)) =>
      match get first "accepts", get first "x402Version" with
      | Ok accepts, Ok version =>
          if truthy accepts || truthy version then Yields first else Nothing
      | _, _ => Crashes TypeError
      end
  | Ok _ => Nothing
  end.

(** Message strategy: the bracketed JSON object of the message text,
    parsed; a parse error discards it.  A truthy message that is not a
    string has no [match] to call. *)
Definition message_attempt (error : value) : attempt :=
  match get error "message" with
  | Throw e => Crashes e
  | Ok (VStr s) =>
      match Pattern.group1 s with
      | Some group =>
          match JSON_parse group with
          | Some v => if truthy v then Yields v else Nothing
          | None => Nothing
          end
      | None => Nothing
      end
  | Ok m => if truthy m then Crashes TypeError else Nothing
  end.

(** The three strategies in the order of the code. *)
Definition attempts (error : value) : list attempt :=
  [header_attempt error; details_attempt error; message_attempt error].

(** No strategy that is tried throws. *)
Definition crash_free (error : value) : bool :=
  match first_yield (attempts error) with
  | Crashes _ => false
  | _ => true
  end.

Definition extraction_failure : exn :=
  Error "Could not extract payment requirements from 402 error".

End Strategies.

(** An unsigned decimal literal: decimal digits only. *)
Fixpoint all_digits (s : string) : bool :=
  match s with
  | EmptyString => true
  | String c rest => Str.is_digit c && all_digits rest
  end.


(** [requirement.amount || requirement.maxAmountRequired] read off the
    properties of a requirement object. *)
Definition amount_source (props : list (string * value)) : value :=
  or_else (from_option (lookup "amount" props))
          (from_option (lookup "maxAmountRequired" props)).

(** The error of a judge that did not say yes. *)
Definition judge_denied : exn := Error "Judge denied payment.".

(** No request to the judge among the steps. *)
Definition judge_free (t : trace) : Prop :=
  forall url context amountStr, ~ In (JudgeRequest url context amountStr) t.

(** A run that neither asks the judge nor ends with its denial. *)
Definition without_judge {A} (m : Eff A) : Prop :=
  judge_free (steps m) /\ settled m <> Throw judge_denied.

(** The errors of the language and of the host, as opposed to the errors
    the program creates itself. *)
Definition builtin (e : exn) : Prop :=
  e = TypeError \/ e = SyntaxError \/ e = HostError.

(** A computation that throws nothing but builtin errors. *)
Definition quiet {A} (m : outcome A) : Prop :=
  forall e, m = Throw e -> builtin e.

Section Query.

Context `{Host}.

(** What the recovery reads off the extracted terms before it decides:
    the requirement, the description of the resource and the amount as
    written. *)
Definition judge_query (reqData : value) : outcome (value * value * value) :=
  let* requirement := requirement_of reqData in
  let* resource := resource_of reqData in
  let* amountStr := get_or requirement "amount" "maxAmountRequired" in
  let* description := get resource "description" in
  Ok (requirement, description, amountStr).

(** The two steps of a consultation about a description and an amount
    that print as [resource] and [cost]. *)
Definition consultation (t : HaloPaymentTools) (resource cost : string)
  : trace :=
  [Console (LogRescue resource cost);
   JudgeRequest (endpoint (tools_haloUrl t) (tools_apiKey t)) resource cost].

(** The steps of [consultJudge] for a description and an amount: the
    consultation about their texts, and nothing when one of the two
    cannot be written. *)
Definition asking (t : HaloPaymentTools) (description amountStr : value)
  : trace :=
  match Conv.toString description, Conv.toString amountStr with
  | Ok resource, Ok cost => consultation t resource cost
  | _, _ => []
  end.

Definition no_signing_key : exn := Error "No private key for signing.".

End Query.

Definition is_console (ev : event) : bool :=
  match ev with
  | Console _ => true
  | _ => false
  end.



Section Members.

Context `{Host}.

(** The members [JSON.stringify] prints for the properties of an object:
    key, colon and text of every property that is not undefined. *)
Fixpoint members_of (props : list (string * value)) : list string :=
  match props with
  | [] => []
  | (k, x) :: rest =>
      match Conv.stringify x with
      | Some text => (Conv.quote k ++ ":" ++ text)%string :: members_of rest
      | None => members_of rest
      end
  end.

End Members.

(** The description the judge is asked about, read off the extracted
    terms: the [description] of a truthy [resource], and [undefined] when
    there is no such resource or it has no description. *)
Definition description_of (reqData : value) : value :=
  match get reqData "resource" with
  | Ok resource =>
      if truthy resource then
        match get resource "description" with
        | Ok d => d
        | Throw _ => VUndef
        end
      else VUndef
  | Throw _ => VUndef
  end.

(** The text of the first part of the first candidate of a response,
    [undefined] where the response has none. *)
Definition first_part_text (json : value) : value :=
  field (first_of (field (field (first_of (field json "candidates"))
                            "content") "parts")) "text".

(** The body [retry] posts for the arguments of the original call: a
    string first argument wrapped as one message, anything else as it
    is, [undefined] when there is no argument. *)
Definition retry_body (args : list value) : value :=
  match nth 0 args VUndef with
  | VStr s =>
      VObj [("contents", VArr [VObj [("parts", VArr [VObj [("text", VStr s)]])]])]
  | other => other
  end.

Definition is_judge_request (ev : event) : bool :=
  match ev with JudgeRequest _ _ _ => true | _ => false end.

Definition is_sign_call (ev : event) : bool :=
  match ev with SignTypedDataCall _ _ => true | _ => false end.

Definition is_retry_request (ev : event) : bool :=
  match ev with RetryRequest _ _ _ => true | _ => false end.

(** How many steps of a kind a trace holds. *)
Definition count (kind : event -> bool) (t : trace) : nat :=
  List.length (filter kind t).

(** A lower-case hexadecimal digit. *)
Definition is_hex_lower (c : ascii) : bool :=
  let n := nat_of_ascii c in
  (Nat.leb 48 n && Nat.leb n 57) || (Nat.leb 97 n && Nat.leb n 102).

Fixpoint all_hex_lower (s : string) : bool :=
  match s with
  | EmptyString => true
  | String c rest => is_hex_lower c && all_hex_lower rest
  end.

Fixpoint ends_with_slash (s : string) : bool :=
  match s with
  | EmptyString => false
  | String c EmptyString => Ascii.eqb c "/"
  | String _ rest => ends_with_slash rest
  end.

(** Does the text hold a line terminator of the ASCII range? *)
Fixpoint has_line_break (s : string) : bool :=
  match s with
  | EmptyString => false
  | String c rest => Str.is_char c 10 || Str.is_char c 13 || has_line_break rest
  end.

(** [requirement.extra?.name || fallback] read off the properties of a
    requirement object. *)
Definition extra_field (props : list (string * value)) (name fallback : string)
  : value :=
  let extra := from_option (lookup "extra" props) in
  or_else
    (if nullish extra then VUndef
     else match get extra name with Ok x => x | Throw _ => VUndef end)
    (VStr fallback).

(** The domain [signPayment] signs under for a requirement object. *)
Definition domain_of (props : list (string * value)) : TypedDomain :=
  {| domain_name := extra_field props "name" "USD Coin";
     domain_version := extra_field props "version" "2";
     domain_chainId := 8453;
     verifyingContract := from_option (lookup "asset" props) |}.

(** The integer a sequence of decimal digits spells after [acc]. *)
Fixpoint uint_value (u : Decimal.uint) (acc : Z) : Z :=
  match u with
  | Decimal.Nil => acc
  | Decimal.D0 l => uint_value l (acc * 10 + 0)
  | Decimal.D1 l => uint_value l (acc * 10 + 1)
  | Decimal.D2 l => uint_value l (acc * 10 + 2)
  | Decimal.D3 l => uint_value l (acc * 10 + 3)
  | Decimal.D4 l => uint_value l (acc * 10 + 4)
  | Decimal.D5 l => uint_value l (acc * 10 + 5)
  | Decimal.D6 l => uint_value l (acc * 10 + 6)
  | Decimal.D7 l => uint_value l (acc * 10 + 7)
  | Decimal.D8 l => uint_value l (acc * 10 + 8)
  | Decimal.D9 l => uint_value l (acc * 10 + 9)
  end.

(* ================================================================== *)
(** * Properties *)
(* ================================================================== *)

(** ** The effect monad *)

Lemma ebind_ok {A B} (t : trace) (a : A) (k : A -> Eff B) :
  ebind (t, Ok a) k = (t ++ steps (k a), settled (k a)).
Proof. unfold ebind, steps, settled. destruct (k a). reflexivity. Qed.

Lemma ebind_throw {A B} (t : trace) (e : exn) (k : A -> Eff B) :
  ebind (t, Throw e) k = (t, Throw e).
Proof. reflexivity. Qed.

Lemma ebind_lift_ok {A B} (m : outcome A) (a : A) (k : A -> Eff B) :
  m = Ok a -> ebind (lift m) k = k a.
Proof.
  intros ->. unfold lift. rewrite ebind_ok. simpl.
  unfold steps, settled. destruct (k a). reflexivity.
Qed.

Lemma ebind_lift_throw {A B} (m : outcome A) (e : exn) (k : A -> Eff B) :
  m = Throw e -> ebind (lift m) k = ([], Throw e).
Proof. intros ->. reflexivity. Qed.

Lemma ebind_emit {B} (ev : event) (k : unit -> Eff B) :
  ebind (emit ev) k = (ev :: steps (k tt), settled (k tt)).
Proof. unfold emit. rewrite ebind_ok. reflexivity. Qed.

Lemma steps_ebind {A B} (m : Eff A) (k : A -> Eff B) :
  steps (ebind m k) =
  match settled m with
  | Ok a => steps m ++ steps (k a)
  | Throw _ => steps m
  end.
Proof.
  destruct m as [t [a | e]]; simpl; [| reflexivity].
  unfold steps. destruct (k a). reflexivity.
Qed.

Lemma settled_ebind {A B} (m : Eff A) (k : A -> Eff B) :
  settled (ebind m k) =
  match settled m with
  | Ok a => settled (k a)
  | Throw e => Throw e
  end.
Proof.
  destruct m as [t [a | e]]; simpl; [| reflexivity].
  unfold settled. destruct (k a). reflexivity.
Qed.

Lemma eff_eta {A} (m : Eff A) : m = (steps m, settled m).
Proof. destruct m. reflexivity. Qed.

(** ** Conversion to text *)

Section ToString.

Context `{Host}.

(** The conversion to text throws nothing but a TypeError. *)
Lemma toString_throws (v : value) (e : exn) :
  Conv.toString v = Throw e -> e = TypeError.
Proof.
  revert v e. fix IH 1. intros v e.
  destruct v as [| | b | n | s | items | props | entries];
    cbn [Conv.toString]; try discriminate.
  - intros Hthrow.
    match type of Hthrow with
    | bind (?each items) _ = _ =>
        assert (Heach : forall e', each items = Throw e' -> e' = TypeError)
    end.
    { clear Hthrow. induction items as [| x rest IHrest]; intros e'.
      - discriminate.
      - destruct (nullish x); cbn [bind].
        + match goal with
          | |- context [bind ?m _] => destruct m as [others | e0] eqn:Eo
          end; cbn [bind]; [discriminate |].
          intros [= <-]. exact (IHrest _ eq_refl).
        + destruct (Conv.toString x) as [first | e0] eqn:Ex; cbn [bind].
          * match goal with
            | |- context [bind ?m _] => destruct m as [others | e1] eqn:Eo
            end; cbn [bind]; [discriminate |].
            intros [= <-]. exact (IHrest _ eq_refl).
          * intros [= <-]. exact (IH x _ Ex). }
    match type of Hthrow with
    | bind ?m _ = _ => destruct m as [parts | e0] eqn:Ep
    end; cbn [bind] in Hthrow; [discriminate |].
    injection Hthrow as <-. exact (Heach _ eq_refl).
  - destruct (Conv.has_own "toString" props); [| discriminate].
    intros [= <-]. reflexivity.
Qed.

End ToString.

(** ** Classification of a failure (C1) *)

Section Classification.

Context `{Host}.

Lemma status_of_effective (error : value) :
  nullish error = false -> status_of error = Ok (effective_status error).
Proof.
  intros Hn. unfold status_of, effective_status, response_status, own_status.
  destruct error; try discriminate; simpl;
    try reflexivity.
  destruct (from_option (lookup "response" props)) as [| | b | n | s | l | l | l] eqn:E;
    simpl; try reflexivity;
    unfold or_else;
    repeat match goal with
           | |- context [truthy ?x] => destruct (truthy x); simpl; try reflexivity
           | |- context [if ?b then _ else _] => destruct b; simpl; try reflexivity
           end.
Qed.

Lemma payment_required_classified (error : value) :
  nullish error = false ->
  textual (message_of error) = true ->
  payment_required (effective_status error) error = Ok (classified error).
Proof.
  intros Hn Ht. unfold payment_required, classified, message_includes.
  destruct (is_402 (effective_status error)); [reflexivity |]. simpl.
  unfold message_of in *.
  destruct (get error "message") as [m | e] eqn:E.
  - simpl. destruct m; try discriminate; simpl; try reflexivity.
    destruct (Str.includes "402" s); reflexivity.
  - destruct error; discriminate.
Qed.

Lemma get_message_of (error : value) :
  nullish error = false -> get error "message" = Ok (message_of error).
Proof.
  intros Hn. unfold message_of.
  destruct error; try discriminate; reflexivity.
Qed.

End Classification.

Section Interceptor.

Context `{Host}.

Lemma textual_printable (m : value) :
  textual m = true -> Conv.toString m = Ok (printed m).
Proof. destruct m; try discriminate; reflexivity. Qed.

(** C1 (as amended).  For a failure that is not null or undefined, whose
    message is a string or absent and whose effective status -- the
    status of the attached response when that is truthy, the error's own
    status otherwise -- can be written into the debug line, the
    interceptor starts the recovery exactly when the effective status is
    402, or the message contains 402 or Payment Required.  Every other
    such failure is rethrown unchanged after the one debug line; nothing
    of the recovery runs.  A status that cannot be written ends the call
    with a TypeError before the line. *)
Theorem interceptor_classification
    (h : HaloAutoHandler) (w : World) (args : list value) (error : value) :
  nullish error = false ->
  textual (message_of error) = true ->
  (printable (effective_status error) = true ->
   intercepted h w args (Throws error) =
   if classified error then
     (Console (LogCaught (printed (effective_status error))
                 (printed (message_of error)))
        :: Console LogDetected :: steps (autoRecover h w error args),
      match settled (autoRecover h w error args) with
      | Ok r => Ok (Recovered r)
      | Throw e => Throw e
      end)
   else
     ([Console (LogCaught (printed (effective_status error))
                  (printed (message_of error)))],
      Throw (Thrown error)))
  /\ (printable (effective_status error) = false ->
      intercepted h w args (Throws error) = ([], Throw TypeError)).
Proof.
  intros Hn Ht. unfold intercepted, printable, printed.
  rewrite (ebind_lift_ok _ (status_of_effective error Hn)).
  destruct (Conv.toString (effective_status error)) as [statusText | e] eqn:Es.
  - split; [intros _ | discriminate].
    rewrite (ebind_lift_ok _ eq_refl).
    rewrite (ebind_lift_ok _ (get_message_of error Hn)).
    rewrite (ebind_lift_ok _ (textual_printable _ Ht)).
    rewrite ebind_emit.
    rewrite (ebind_lift_ok _ (payment_required_classified error Hn Ht)).
    unfold printed. destruct (classified error).
    + rewrite ebind_emit.
      destruct (autoRecover h w error args) as [t [r | e]]; simpl;
        rewrite ?app_nil_r; reflexivity.
    + reflexivity.
  - split; [discriminate | intros _].
    rewrite (toString_throws _ Es). reflexivity.
Qed.

End Interceptor.

(** The failure with status 500 and no 402 indicator passes through. *)
Lemma interceptor_classification_witness :
  intercepted (H := Sample.host) Scenario.keyed Scenario.calm [VStr "hi"]
    (Throws Scenario.failure_500)
  = ([Console (LogCaught "500" "Internal Server Error")],
     Throw (Thrown Scenario.failure_500)).
Proof.
  exact (proj1 (interceptor_classification (H := Sample.host) Scenario.keyed
                  Scenario.calm [VStr "hi"] Scenario.failure_500
                  eq_refl eq_refl) eq_refl).
Defined.

(** C1 as stated fails: the error's own status is 402, which the stated
    criterion accepts, but the response carries a truthy status 500, which
    the interceptor compares instead, and the failure is rethrown. *)
Lemma own_status_402_rethrown :
  own_status Scenario.failure_mixed = VNum 402
  /\ claimed_payment_required Scenario.failure_mixed = true
  /\ intercepted (H := Sample.host) Scenario.keyed Scenario.calm [VStr "hi"]
       (Throws Scenario.failure_mixed)
     = ([Console (LogCaught "500" "boom")],
        Throw (Thrown Scenario.failure_mixed)).
Proof. repeat split; reflexivity. Qed.

(** ** Extraction of the requirement (C2) *)

Section Extraction.

Context `{Host}.

Lemma strategyB_truthy (error reqData : value) :
  truthy reqData = true -> strategyB error reqData = Ok reqData.
Proof. intros Ht. unfold strategyB. rewrite Ht. reflexivity. Qed.

Lemma strategyC_truthy (error reqData : value) :
  truthy reqData = true -> strategyC error reqData = Ok reqData.
Proof. intros Ht. unfold strategyC. rewrite Ht. reflexivity. Qed.

Lemma strategyB_falsy (error reqData : value) :
  truthy reqData = false ->
  attempt_of (strategyB error reqData) = details_attempt error.
Proof.
  intros Hf. unfold strategyB, details_attempt. rewrite Hf.
  destruct (get error "errorDetails") as [details | e]; [| reflexivity].
  simpl.
  destruct details as [| | b | n | s | items | props | entries]; simpl;
    try (rewrite Hf; reflexivity);
    try (destruct b; simpl; rewrite Hf; reflexivity);
    try (destruct (negb _); simpl; rewrite Hf; reflexivity).
  destruct items as [| first rest]; simpl; [rewrite Hf; reflexivity |].
  replace (0 <? Z.pos (Pos.of_succ_nat (List.length rest))) with true
    by (symmetry; apply Z.ltb_lt; lia).
  destruct first; simpl; try reflexivity.
  destruct (truthy (from_option (lookup "accepts" props))); simpl;
    [reflexivity |].
  destruct (truthy (from_option (lookup "x402Version" props))); reflexivity.
Qed.

Lemma group1_not_empty (s group : string) :
  Pattern.group1 s = Some group -> Str.is_empty group = false.
Proof.
  induction s as [| c rest IH]; simpl; [discriminate |].
  destruct (Str.is_char c 91); [| exact IH].
  destruct rest as [| d inner]; [exact IH |].
  destruct (Str.is_char d 123); [| exact IH].
  destruct (Pattern.body inner); simpl; [| exact IH].
  intros [= <-]. reflexivity.
Qed.

Lemma strategyC_falsy (error reqData : value) :
  truthy reqData = false ->
  attempt_of (strategyC error reqData) = message_attempt error.
Proof.
  intros Hf. unfold strategyC, message_attempt. rewrite Hf.
  destruct (get error "message") as [message | e]; [| reflexivity].
  simpl.
  destruct message as [| | b | n | s | items | props | entries]; simpl;
    try reflexivity;
    try (rewrite Hf; reflexivity);
    try (destruct b; simpl; try rewrite Hf; reflexivity);
    try (destruct (negb _); simpl; try rewrite Hf; reflexivity).
  destruct s as [| c rest]; [simpl; rewrite Hf; reflexivity |].
  cbn [Str.is_empty negb].
  destruct (Pattern.group1 (String c rest)) as [group |] eqn:E;
    [| simpl; rewrite Hf; reflexivity].
  cbn [bind call_match]. unfold truthy at 1.
  rewrite (group1_not_empty _ E). cbn [negb].
  destruct (JSON_parse group); simpl; [reflexivity | rewrite Hf; reflexivity].
Qed.

(** The header chain of the code reads what [header_read] describes. *)
Lemma payment_header_read (error : value) :
  payment_header error =
  match header_read error with
  | Some header => Ok header
  | None => Throw TypeError
  end.
Proof.
  unfold payment_header, header_read, response_headers, field.
  destruct error as [| | b | n | s | items | props | entries];
    try reflexivity.
  cbn [get bind nullish].
  destruct (from_option (lookup "response" props))
    as [| | b | n | s | items | rprops | entries]; try reflexivity.
  cbn [get_opt get bind nullish].
  destruct (from_option (lookup "headers" rprops))
    as [| | b | n | s | items | hprops | entries]; try reflexivity.
  - cbn [nullish call_get_opt bind].
    destruct (nullish (from_option (lookup "get" hprops))); reflexivity.
  - cbn [nullish call_get_opt bind].
    destruct (lookup "payment-required" entries) as [text |]; [| reflexivity].
    cbn [truthy]. destruct (Str.is_empty text); reflexivity.
Qed.

Lemma header_terms_read (error : value) :
  header_terms error =
  match header_read error with
  | Some header =>
      if truthy header then
        match Buffer_from_base64 header with
        | Some text => response_json text
        | None => Throw HostError
        end
      else Ok VUndef
  | None => Throw TypeError
  end.
Proof.
  unfold header_terms. rewrite payment_header_read.
  destruct (header_read error); reflexivity.
Qed.

(** Strategy A leaves a value that is truthy exactly when the header
    attempt yields, and is then what it yields. *)
Lemma strategyA_run (error : value) :
  exists left,
    strategyA error = (header_log error, Ok left)
    /\ attempt_of (Ok left) = header_attempt error.
Proof.
  unfold strategyA, header_log, header_attempt. rewrite header_terms_read.
  destruct (header_read error) as [header |];
    [| exists VUndef; split; reflexivity].
  destruct (truthy header); [| exists VUndef; split; reflexivity].
  destruct (Buffer_from_base64 header) as [text |];
    [| exists VUndef; split; reflexivity].
  unfold response_json.
  destruct (JSON_parse text) as [reqData |];
    [| exists VUndef; split; reflexivity].
  exists reqData. split; reflexivity.
Qed.

Lemma extract_run (error : value) :
  extract error =
  match first_yield (attempts error) with
  | Yields reqData => (header_log error, Ok reqData)
  | Crashes e => (header_log error, Throw e)
  | Nothing =>
      (header_log error ++ [Console (LogDump error)], Throw extraction_failure)
  end.
Proof.
  unfold extract, attempts.
  destruct (strategyA_run error) as (a & -> & Ha).
  rewrite ebind_ok. cbn [steps settled fst snd].
  rewrite <- Ha. cbn [attempt_of].
  destruct (truthy a) eqn:Ta.
  - cbn [first_yield].
    rewrite (ebind_lift_ok _ (strategyB_truthy error a Ta)).
    rewrite (ebind_lift_ok _ (strategyC_truthy error a Ta)).
    rewrite Ta. simpl. rewrite app_nil_r. reflexivity.
  - assert (Hb := strategyB_falsy error a Ta).
    cbn [first_yield].
    destruct (strategyB error a) as [b | e] eqn:Eb.
    + rewrite (ebind_lift_ok _ eq_refl). simpl in Hb.
      destruct (truthy b) eqn:Tb.
      * rewrite <- Hb.
        rewrite (ebind_lift_ok _ (strategyC_truthy error b Tb)).
        rewrite Tb. simpl. rewrite app_nil_r. reflexivity.
      * rewrite <- Hb. assert (Hc := strategyC_falsy error b Tb).
        destruct (strategyC error b) as [c | e] eqn:Ec.
        -- rewrite (ebind_lift_ok _ eq_refl). simpl in Hc.
           destruct (truthy c) eqn:Tc; rewrite <- Hc; simpl;
             rewrite ?app_nil_r; reflexivity.
        -- simpl in Hc. rewrite <- Hc. simpl. rewrite app_nil_r. reflexivity.
    + simpl in Hb. rewrite <- Hb. simpl. rewrite app_nil_r. reflexivity.
Qed.

(** C2 (as amended).  When no strategy that is tried throws, extraction
    is the first of the header, details and message strategies, in that
    order, that yields something; a later strategy is not looked at, and
    nothing of two strategies is merged.  When all three come to nothing,
    the failure is dumped to the console and the recovery ends with the
    extraction error: no judge request, no signing and no retry request
    is made. *)
Theorem extraction_strategy_order
    (h : HaloAutoHandler) (w : World) (args : list value) (error : value) :
  crash_free error = true ->
  match first_yield (attempts error) with
  | Yields reqData => extract error = (header_log error, Ok reqData)
  | _ =>
      first_yield (attempts error) = Nothing
      /\ extract error =
         (header_log error ++ [Console (LogDump error)], Throw extraction_failure)
      /\ autoRecover h w error args =
         (header_log error ++ [Console (LogDump error)], Throw extraction_failure)
  end.
Proof.
  unfold crash_free, autoRecover. rewrite extract_run.
  destruct (first_yield (attempts error));
    [reflexivity | repeat split | discriminate].
Qed.

End Extraction.

(** Terms in all three places, each with another amount: the header
    wins.  Terms nowhere: the dump and the extraction error. *)
Lemma extraction_strategy_order_witness :
  extract (H := Sample.host) Scenario.failure_everywhere
  = ([], Ok (VObj [("accepts", VArr [Scenario.terms])]))
  /\ autoRecover (H := Sample.host) Scenario.keyed Scenario.calm
       Scenario.failure_bare [VStr "hi"]
     = ([Console (LogDump Scenario.failure_bare)], Throw extraction_failure).
Proof.
  split.
  - exact (extraction_strategy_order (H := Sample.host) Scenario.keyed
             Scenario.calm [VStr "hi"] Scenario.failure_everywhere eq_refl).
  - exact (proj2 (proj2 (extraction_strategy_order (H := Sample.host)
                           Scenario.keyed Scenario.calm [VStr "hi"]
                           Scenario.failure_bare eq_refl))).
Defined.

(** C2 as stated fails: the header strategy produces nothing, the first
    details entry is null, and the message holds the terms in brackets.
    The details strategy yields no structure, so the message strategy
    should be tried and supply the terms; instead the details strategy
    throws on the null entry and the recovery ends with that TypeError:
    the message is never looked at, nothing is dumped, and the error is
    not the extraction error. *)
Lemma null_details_entry_stops_extraction :
  header_attempt (H := Sample.host) Scenario.failure_null_details_terms
  = Nothing
  /\ field Scenario.failure_null_details_terms "errorDetails" = VArr [VNull]
  /\ message_attempt (H := Sample.host) Scenario.failure_null_details_terms
     = Yields (VObj [("accepts", VArr [Scenario.terms])])
  /\ extract (H := Sample.host) Scenario.failure_null_details_terms
     = ([], Throw TypeError)
  /\ autoRecover (H := Sample.host) Scenario.keyed Scenario.calm
       Scenario.failure_null_details_terms [VStr "hi"]
     = ([], Throw TypeError)
  /\ TypeError <> extraction_failure.
Proof. repeat split; try reflexivity. discriminate. Qed.

(** Each strategy finds the terms put in its place. *)
Example extract_from_header_accessor :
  extract (H := Sample.host) Scenario.failure_header_accessor
  = ([], Ok (VObj [("accepts", VArr [Scenario.terms])])).
Proof. reflexivity. Qed.

Example extract_from_header_plain :
  extract (H := Sample.host) Scenario.failure_header_plain
  = ([], Ok (VObj [("accepts", VArr [Scenario.terms])])).
Proof. reflexivity. Qed.

Example extract_from_details :
  extract (H := Sample.host) Scenario.failure_402
  = ([], Ok (VObj [("accepts", VArr [Scenario.terms])])).
Proof. reflexivity. Qed.

Example extract_from_message :
  extract (H := Sample.host) Scenario.failure_message
  = ([], Ok (VObj [("accepts", VArr [Scenario.terms])])).
Proof. reflexivity. Qed.

(** A null first entry of [errorDetails] is not discarded: reading its
    [accepts] throws, and the run ends there. *)
Example extract_null_details :
  autoRecover (H := Sample.host) Scenario.keyed Scenario.calm
    Scenario.failure_null_details [VStr "hi"]
  = ([], Throw TypeError).
Proof. reflexivity. Qed.

(** ** The amount (C3) *)

Section Amount.

Context `{Host}.

Lemma signPayment_run (t : HaloPaymentTools) (wal : Wallet) (w : World)
    (requirement : value) :
  wallet t = Some wal ->
  signPayment t w requirement =
  match amount_of requirement with
  | Throw e => ([SignPaymentCall requirement], Throw e)
  | Ok amount =>
      match typed_domain requirement with
      | Throw e => ([SignPaymentCall requirement], Throw e)
      | Ok domain =>
          match get requirement "payTo" with
          | Throw e => ([SignPaymentCall requirement], Throw e)
          | Ok payTo =>
              let message := authorization wal w amount payTo in
              ([SignPaymentCall requirement; SignTypedDataCall domain message],
               match signTypedData wal domain message with
               | None => Throw HostError
               | Some signature =>
                   envelope (payloadObj requirement signature message)
               end)
          end
      end
  end.
Proof.
  intros Hw. unfold signPayment. rewrite Hw, ebind_emit.
  destruct (amount_of requirement) as [amount | e]; [| reflexivity].
  rewrite (ebind_lift_ok _ eq_refl).
  destruct (typed_domain requirement) as [domain | e]; [| reflexivity].
  rewrite (ebind_lift_ok _ eq_refl).
  destruct (get requirement "payTo") as [payTo | e]; [| reflexivity].
  rewrite (ebind_lift_ok _ eq_refl), ebind_emit.
  destruct (signTypedData wal domain (authorization wal w amount payTo));
    reflexivity.
Qed.

Lemma amount_of_object (props : list (string * value)) :
  amount_of (VObj props) = Conv.BigInt (amount_source props).
Proof.
  unfold amount_of, get_or, amount_source, or_else. simpl.
  destruct (truthy (from_option (lookup "amount" props))); reflexivity.
Qed.

Lemma digit_facts (c : ascii) :
  Str.is_digit c = true ->
  Str.is_space c = false /\ Str.is_char c 45 = false
  /\ Str.is_char c 43 = false /\ Conv.radix_of c = None
  /\ exists d, Conv.digit_val c = Some d /\ 0 <= d < 10.
Proof.
  destruct c as [[] [] [] [] [] [] [] []]; vm_compute; try discriminate;
    intros _; repeat split; try reflexivity;
    eexists; (split; [reflexivity | split; discriminate || reflexivity]).
Qed.

(** No white space starts with a digit. *)
Lemma space_width_digit (c : ascii) (rest : string) :
  Str.is_digit c = true -> Str.space_width (String c rest) = 0%nat.
Proof.
  destruct c as [[] [] [] [] [] [] [] []]; vm_compute; try discriminate;
    intros _; destruct rest as [| b [| c' rest']]; reflexivity.
Qed.

Lemma trimStart_kept (c : ascii) (s : string) :
  Str.space_width (String c s) = 0%nat ->
  Str.trimStart (String c s) = String c s.
Proof.
  intros Hw. unfold Str.trimStart. cbn [Str.drop_spaces]. now rewrite Hw.
Qed.

Lemma trimEnd_kept (c : ascii) (s : string) :
  Str.space_width (String c s) = 0%nat ->
  Str.trimEnd (String c s) = String c (Str.trimEnd s).
Proof.
  intros Hw. cbn [Str.trimEnd Str.spaces_only]. now rewrite Hw.
Qed.

Lemma trimEnd_digits (s : string) : all_digits s = true -> Str.trimEnd s = s.
Proof.
  induction s as [| c rest IH]; [reflexivity |].
  cbn [all_digits]. intros Hd. apply andb_prop in Hd as [Hc Hr].
  cbn [Str.trimEnd Str.spaces_only]. rewrite (@space_width_digit c rest Hc).
  now rewrite (IH Hr).
Qed.

Lemma trim_digits (s : string) : all_digits s = true -> Str.trim s = s.
Proof.
  intros Hd. unfold Str.trim.
  replace (Str.trimStart s) with s; [apply trimEnd_digits, Hd |].
  destruct s as [| c rest]; [reflexivity |].
  cbn [all_digits] in Hd. apply andb_prop in Hd as [Hc _].
  unfold Str.trimStart. cbn [Str.drop_spaces].
  now rewrite (@space_width_digit c rest Hc).
Qed.

(** The conversion of a non-empty text of decimal digits reads its digits
    in base ten. *)
Lemma StringToBigInt_digits (s : string) :
  all_digits s = true -> Str.is_empty s = false ->
  Conv.StringToBigInt s = Conv.digits_from 10 s 0.
Proof.
  intros Hd Hne. destruct s as [| c rest]; [discriminate |].
  unfold Conv.StringToBigInt. rewrite (trim_digits _ Hd).
  pose proof Hd as Hd'. cbn [all_digits] in Hd'.
  apply andb_prop in Hd' as [Hc Hr].
  destruct (digit_facts c Hc) as (_ & -> & -> & _).
  assert (Hrl : Conv.radix_literal (String c rest) = None).
  { unfold Conv.radix_literal. destruct rest as [| r ds]; [reflexivity |].
    cbn [all_digits] in Hr. apply andb_prop in Hr as [Hr _].
    destruct (digit_facts r Hr) as (_ & _ & _ & -> & _).
    destruct (Str.is_char c 48); reflexivity. }
  rewrite Hrl. reflexivity.
Qed.

Lemma digits_of_uint (u : Decimal.uint) (acc : Z) :
  Conv.digits_from 10 (NilEmpty.string_of_uint u) acc = Some (uint_value u acc).
Proof.
  revert acc. induction u; intros acc; cbn [NilEmpty.string_of_uint uint_value];
    [reflexivity | ..];
    match goal with
    | |- Conv.digits_from 10 (String ?c ?r) acc = _ =>
        change (Conv.digits_from 10 (String c r) acc)
          with (match Conv.digit_val c with
                | Some d =>
                    if d <? 10 then Conv.digits_from 10 r (acc * 10 + d)
                    else None
                | None => None
                end)
    end;
    cbv [Conv.digit_val]; cbn; apply IHu.
Qed.

Lemma uint_value_acc (u : Decimal.uint) (acc : positive) :
  Z.pos (Pos.of_uint_acc u acc) = uint_value u (Z.pos acc).
Proof.
  revert acc. induction u; intros acc; cbn [Pos.of_uint_acc uint_value];
    [reflexivity | ..];
    rewrite IHu; f_equal; lia.
Qed.

Lemma uint_value_of_uint (u : Decimal.uint) :
  Z.of_N (Pos.of_uint u) = uint_value u 0.
Proof.
  induction u; cbn [Pos.of_uint uint_value]; [reflexivity | exact IHu | ..];
    cbn [Z.of_N]; rewrite uint_value_acc; reflexivity.
Qed.



Section Conversion.

Context `{Host}.


End Conversion.

End Amount.

Section AmountAtSigning.

Context `{Host}.

Lemma resource_of_ok (reqData requirement : value) :
  requirement_of reqData = Ok requirement ->
  exists resource, resource_of reqData = Ok resource /\ nullish resource = false.
Proof.
  unfold requirement_of, resource_of.
  destruct (get reqData "resource") as [r | e] eqn:E.
  - intros _. exists (or_else r (VObj [])). split; [reflexivity |].
    unfold or_else. destruct (truthy r) eqn:T; [| reflexivity].
    destruct r; try discriminate; reflexivity.
  - destruct reqData; discriminate.
Qed.





End AmountAtSigning.



(** ** Construction of the wrapper (C4) *)

Lemma quiet_ok {A} (a : A) : quiet (Ok a).
Proof. intros e [=]. Qed.

Lemma quiet_builtin {A} (e : exn) : builtin e -> quiet (@Throw A e).
Proof. intros Hb e' [= <-]. exact Hb. Qed.

Lemma quiet_bind {A B} (m : outcome A) (k : A -> outcome B) :
  quiet m -> (forall a, quiet (k a)) -> quiet (bind m k).
Proof.
  intros Hm Hk e. destruct m as [a | e']; simpl.
  - apply Hk.
  - intros [= <-]. apply Hm. reflexivity.
Qed.

Lemma quiet_get (v : value) (name : string) : quiet (get v name).
Proof. destruct v; simpl; intros e [= <-]. all: left; reflexivity. Qed.

Lemma quiet_get_opt (v : value) (name : string) : quiet (get_opt v name).
Proof.
  unfold get_opt. destruct (nullish v); [apply quiet_ok | apply quiet_get].
Qed.

Lemma quiet_index (v : value) (i : nat) : quiet (index v i).
Proof. destruct v; simpl; intros e [= <-]. all: left; reflexivity. Qed.

Lemma quiet_index_opt (v : value) (i : nat) : quiet (index_opt v i).
Proof.
  unfold index_opt. destruct (nullish v); [apply quiet_ok | apply quiet_index].
Qed.

Lemma quiet_call_includes (v : value) (needle : string) :
  quiet (call_includes v needle).
Proof. destruct v; simpl; intros e [= <-]. all: left; reflexivity. Qed.

Create HintDb quiet.
#[local] Hint Resolve quiet_ok quiet_get quiet_get_opt quiet_index
  quiet_index_opt quiet_call_includes : quiet.

(** Splits a computation along its binds and branches. *)
Ltac quiet_steps :=
  repeat first
    [ solve [auto with quiet]
    | apply quiet_bind; [| intros ?]
    | match goal with
      | |- quiet (if ?c then _ else _) => destruct c
      | |- quiet (match ?x with _ => _ end) => destruct x
      end
    | apply quiet_builtin; unfold builtin; tauto ].

Section Quiet.

Context `{Host}.

Lemma quiet_toString (v : value) : quiet (Conv.toString v).
Proof. intros e He. left. exact (toString_throws _ He). Qed.

Lemma quiet_BigInt (v : value) : quiet (Conv.BigInt v).
Proof.
  unfold Conv.BigInt. pose proof quiet_toString.
  destruct v; try (intros e [= <-]; left; reflexivity); try apply quiet_ok;
    (apply quiet_bind; [auto | intros text]);
    destruct (Conv.StringToBigInt text);
    try apply quiet_ok; intros e [= <-]; right; left; reflexivity.
Qed.

#[local] Hint Resolve quiet_toString quiet_BigInt : quiet.

Lemma quiet_response_json (body : string) : quiet (response_json body).
Proof. unfold response_json. quiet_steps. Qed.

Lemma quiet_requirement_of (reqData : value) : quiet (requirement_of reqData).
Proof. unfold requirement_of. quiet_steps. Qed.

Lemma quiet_resource_of (reqData : value) : quiet (resource_of reqData).
Proof. unfold resource_of. quiet_steps. Qed.

Lemma quiet_get_or (v : value) (a b : string) : quiet (get_or v a b).
Proof. unfold get_or. quiet_steps. Qed.

Lemma quiet_amount_of (requirement : value) : quiet (amount_of requirement).
Proof. unfold amount_of. pose proof quiet_get_or. quiet_steps. Qed.

Lemma quiet_typed_domain (requirement : value) : quiet (typed_domain requirement).
Proof. unfold typed_domain, extra_or. quiet_steps. Qed.

Lemma quiet_envelope (payload : value) : quiet (envelope payload).
Proof. unfold envelope. quiet_steps. Qed.

Lemma quiet_strategyB (error reqData : value) : quiet (strategyB error reqData).
Proof. unfold strategyB. quiet_steps. Qed.

Lemma quiet_strategyC (error reqData : value) : quiet (strategyC error reqData).
Proof. unfold strategyC, call_match. quiet_steps. Qed.

Lemma quiet_candidate_text (data : value) : quiet (candidate_text data).
Proof. unfold candidate_text. quiet_steps. Qed.

Lemma quiet_judge_decision (data : value) : quiet (judge_decision data).
Proof.
  unfold judge_decision, trim_upper_opt. pose proof quiet_candidate_text.
  quiet_steps.
Qed.

End Quiet.

Lemma builtin_not_denied (e : exn) : builtin e -> e <> judge_denied.
Proof. intros [-> | [-> | ->]]; discriminate. Qed.

Lemma without_judge_ret {A} (a : A) : without_judge (ret a).
Proof. split; [intros u c a' [] | discriminate]. Qed.

Lemma without_judge_throw {A} (e : exn) :
  e <> judge_denied -> without_judge (@throw A e).
Proof.
  intros He. split; [intros u c a' [] |]. simpl. intros [= ->].
  apply He. reflexivity.
Qed.

Lemma without_judge_lift {A} (m : outcome A) : quiet m -> without_judge (lift m).
Proof.
  intros Hq. split; [intros u c a' [] |]. simpl. intros ->.
  exact (builtin_not_denied (Hq _ eq_refl) eq_refl).
Qed.

Lemma without_judge_console (line : log_line) :
  without_judge (emit (Console line)).
Proof.
  split; [| discriminate]. intros u c a [Hin | []]. discriminate.
Qed.

Lemma without_judge_ebind {A B} (m : Eff A) (k : A -> Eff B) :
  without_judge m -> (forall a, without_judge (k a)) ->
  without_judge (ebind m k).
Proof.
  intros [Hs Hd] Hk. unfold without_judge.
  rewrite steps_ebind, settled_ebind.
  destruct (settled m) as [a | e] eqn:E.
  - destruct (Hk a) as [Hs' Hd']. split; [| exact Hd'].
    intros u c a' Hin. apply in_app_or in Hin as [Hin | Hin].
    + exact (Hs _ _ _ Hin).
    + exact (Hs' _ _ _ Hin).
  - split; [exact Hs |]. intros [= ->]. apply Hd. reflexivity.
Qed.

Section WithoutJudge.

Context `{Host}.

Lemma without_judge_extract (error : value) : without_judge (extract error).
Proof.
  unfold extract.
  apply without_judge_ebind.
  { unfold strategyA. destruct (header_terms error).
    - apply without_judge_ret.
    - apply without_judge_ebind; [apply without_judge_console |].
      intros _. apply without_judge_ret. }
  intros a. apply without_judge_ebind;
    [apply without_judge_lift, quiet_strategyB |].
  intros b. apply without_judge_ebind;
    [apply without_judge_lift, quiet_strategyC |].
  intros c. destruct (truthy c); [apply without_judge_ret |].
  apply without_judge_ebind; [apply without_judge_console |].
  intros _. apply without_judge_throw. discriminate.
Qed.

Lemma without_judge_signPayment (t : HaloPaymentTools) (w : World)
    (requirement : value) :
  without_judge (signPayment t w requirement).
Proof.
  unfold signPayment. apply without_judge_ebind.
  { split; [| discriminate]. intros u c a [Hin | []]. discriminate. }
  intros _. destruct (wallet t) as [wal |];
    [| apply without_judge_throw; discriminate].
  apply without_judge_ebind; [apply without_judge_lift, quiet_amount_of |].
  intros amount.
  apply without_judge_ebind; [apply without_judge_lift, quiet_typed_domain |].
  intros domain.
  apply without_judge_ebind; [apply without_judge_lift, quiet_get |].
  intros payTo. apply without_judge_ebind.
  { split; [| discriminate]. intros u c a [Hin | []]. discriminate. }
  intros _. destruct (signTypedData _ _ _).
  - apply without_judge_lift, quiet_envelope.
  - apply without_judge_throw. discriminate.
Qed.

Lemma without_judge_retry (w : World) (signature : string)
    (args : list value) (api : string * string) :
  without_judge (retry w signature args api).
Proof.
  destruct api as [k u]. unfold retry.
  apply without_judge_ebind; [apply without_judge_console |]. intros _.
  apply without_judge_ebind.
  { split; [| discriminate]. intros u' c a [Hin | []]. discriminate. }
  intros _. destruct (retry_response w) as [reason | ok body].
  - apply without_judge_throw. discriminate.
  - destruct ok; cbn [negb].
    + apply without_judge_ebind;
        [apply without_judge_lift, quiet_response_json |].
      intros json. apply without_judge_ret.
    + apply without_judge_throw. discriminate.
Qed.

(** A handler that approves on its own never turns to the judge. *)
Lemma autoRecover_without_judge (h : HaloAutoHandler) (w : World)
    (error : value) (args : list value) :
  autoApprove h = true -> without_judge (autoRecover h w error args).
Proof.
  intros Ha. unfold autoRecover.
  apply without_judge_ebind; [apply without_judge_extract |]. intros reqData.
  apply without_judge_ebind;
    [apply without_judge_lift, quiet_requirement_of |]. intros requirement.
  apply without_judge_ebind;
    [apply without_judge_lift, quiet_resource_of |]. intros resource.
  apply without_judge_ebind;
    [apply without_judge_lift, quiet_get_or |]. intros amountStr.
  apply without_judge_ebind.
  { unfold approve. rewrite Ha. apply without_judge_console. }
  intros _.
  apply without_judge_ebind; [apply without_judge_signPayment |].
  intros signature. apply without_judge_retry.
Qed.

Lemma intercepted_without_judge (h : HaloAutoHandler) (w : World)
    (args : list value) (original : completion) :
  autoApprove h = true -> without_judge (intercepted h w args original).
Proof.
  intros Ha. unfold intercepted.
  destruct original as [v | error]; [apply without_judge_ret |].
  apply without_judge_ebind.
  { apply without_judge_lift. unfold status_of. quiet_steps. }
  intros status. apply without_judge_ebind;
    [apply without_judge_lift, quiet_toString |]. intros statusText.
  apply without_judge_ebind;
    [apply without_judge_lift, quiet_get |]. intros message.
  apply without_judge_ebind;
    [apply without_judge_lift, quiet_toString |]. intros messageText.
  apply without_judge_ebind; [apply without_judge_console |]. intros _.
  apply without_judge_ebind.
  { apply without_judge_lift. unfold payment_required, includes_opt.
    quiet_steps. }
  intros detected. destruct detected; [| apply without_judge_throw; discriminate].
  apply without_judge_ebind; [apply without_judge_console |]. intros _.
  apply without_judge_ebind; [apply autoRecover_without_judge, Ha |].
  intros r. apply without_judge_ret.
Qed.

Lemma new_HaloAutoHandler_autoApprove (env : Env) (config : HaloConfig)
    (h : HaloAutoHandler) :
  new_HaloAutoHandler env config = Ok h ->
  autoApprove h =
  is_set (or_string (privateKey config) (HALO_WALLET_PRIVATE_KEY env)).
Proof.
  unfold new_HaloAutoHandler.
  destruct (new_HaloPaymentTools _ _) as [t | e]; simpl; [| discriminate].
  intros [= <-]. reflexivity.
Qed.

(** C4.  With neither the [privateKey] option nor its environment
    fallback, [haloSystem] throws instead of returning a wrapper.  Hence
    the handler of every wrapper it does return approves on its own, and
    no call through such a wrapper asks the judge or ends with the judge's
    denial. *)
Theorem haloSystem_requires_key
    (env : Env) (model : Model) (config : HaloConfig) :
  (privateKey config = None ->
   HALO_WALLET_PRIVATE_KEY env = None ->
   haloSystem env model config
   = Throw (Error "privateKey is required for haloSystem"))
  /\ (forall p, haloSystem env model config = Ok p ->
      autoApprove (handler p) = true
      /\ forall prop call, proxy_get p prop = Wrapped call ->
         forall w args,
           judge_free (steps (call w args))
           /\ settled (call w args) <> Throw judge_denied).
Proof.
  split.
  - intros Hc He. unfold haloSystem. rewrite Hc, He. reflexivity.
  - intros p Hp. unfold haloSystem in Hp.
    destruct (is_set (or_string (privateKey config)
                        (HALO_WALLET_PRIVATE_KEY env))) eqn:Hset;
      simpl in Hp; [| discriminate].
    destruct (new_HaloAutoHandler env config) as [h | e] eqn:Hh;
      simpl in Hp; [| discriminate].
    injection Hp as <-. simpl.
    assert (Ha : autoApprove h = true).
    { rewrite (new_HaloAutoHandler_autoApprove _ _ Hh). exact Hset. }
    split; [exact Ha |].
    intros prop call Hcall w args. unfold proxy_get in Hcall. simpl in Hcall.
    destruct (model prop) as [behaviour | v]; [| discriminate].
    injection Hcall as <-.
    exact (intercepted_without_judge h w args (behaviour args) Ha).
Qed.

End WithoutJudge.

(** No key at all: construction throws.  A key in the configuration: the
    handler approves on its own, and the failing call of the model is
    recovered without the judge. *)
Lemma haloSystem_requires_key_witness :
  haloSystem (H := Sample.host) Scenario.no_env Scenario.model
    Scenario.keyless_config
  = Throw (Error "privateKey is required for haloSystem")
  /\ judge_free
       (steps (intercepted (H := Sample.host) Scenario.keyed Scenario.calm
                 [VStr "hi"] (Throws Scenario.failure_402))).
Proof.
  split.
  - exact (proj1 (haloSystem_requires_key (H := Sample.host) Scenario.no_env
                    Scenario.model Scenario.keyless_config) eq_refl eq_refl).
  - exact (proj1 (proj2 (proj2 (haloSystem_requires_key (H := Sample.host)
                                  Scenario.no_env Scenario.model
                                  Scenario.keyed_config)
                           {| target := Scenario.model;
                              handler := Scenario.keyed |} eq_refl)
                    "generateContent" _ eq_refl Scenario.calm [VStr "hi"])).
Defined.

(** ** Recovery without a key (C5) *)

Section Keyless.

Context `{Host}.

Lemma new_HaloAutoHandler_keyless (env : Env) (config : HaloConfig)
    (h : HaloAutoHandler) :
  new_HaloAutoHandler env config = Ok h ->
  is_set (or_string (privateKey config) (HALO_WALLET_PRIVATE_KEY env)) = false ->
  wallet (tools h) = None /\ autoApprove h = false.
Proof.
  intros Hh Hset. split.
  - unfold new_HaloAutoHandler, new_HaloPaymentTools in Hh. simpl in Hh.
    destruct (or_string (privateKey config) (HALO_WALLET_PRIVATE_KEY env))
      as [pk |]; simpl in *.
    + destruct (Str.is_empty pk); [| discriminate].
      simpl in Hh. injection Hh as <-. reflexivity.
    + injection Hh as <-. reflexivity.
  - rewrite (new_HaloAutoHandler_autoApprove _ _ Hh). exact Hset.
Qed.

Lemma consultJudge_steps (t : HaloPaymentTools) (w : World)
    (description amountStr : value) :
  steps (consultJudge t w description amountStr)
  = asking t description amountStr.
Proof.
  unfold consultJudge, asking, consultation.
  destruct (Conv.toString description) as [resource | e]; [| reflexivity].
  rewrite (ebind_lift_ok _ eq_refl).
  destruct (Conv.toString amountStr) as [cost | e]; [| reflexivity].
  rewrite (ebind_lift_ok _ eq_refl), ebind_emit, ebind_emit.
  destruct (judge_response w) as [reason | ok body]; [reflexivity |].
  cbn [steps fst]. f_equal. f_equal.
  destruct (response_json body) as [data | e]; [| reflexivity].
  rewrite (ebind_lift_ok _ eq_refl). reflexivity.
Qed.

(** How a consultation settles: on the conversion of its arguments
    first, on the answer then. *)
Lemma consultJudge_settled (t : HaloPaymentTools) (w : World)
    (description amountStr : value) :
  settled (consultJudge t w description amountStr) =
  if printable description && printable amountStr then
    match judge_response w with
    | Rejected reason => Throw (Thrown reason)
    | Responded _ body =>
        match JSON_parse body with
        | Some data => judge_decision data
        | None => Throw SyntaxError
        end
    end
  else Throw TypeError.
Proof.
  unfold consultJudge, printable.
  destruct (Conv.toString description) as [resource | e] eqn:Ed.
  2:{ rewrite (toString_throws _ Ed). reflexivity. }
  rewrite (ebind_lift_ok _ eq_refl).
  destruct (Conv.toString amountStr) as [cost | e] eqn:Ea.
  2:{ rewrite (toString_throws _ Ea). reflexivity. }
  rewrite (ebind_lift_ok _ eq_refl).
  rewrite !settled_ebind. cbn [emit settled snd andb].
  destruct (judge_response w) as [reason | ok body]; [reflexivity |].
  rewrite settled_ebind. unfold response_json.
  destruct (JSON_parse body); reflexivity.
Qed.


Lemma header_log_console (error : value) :
  forallb is_console (header_log error) = true.
Proof.
  unfold header_log.
  destruct (header_read error) as [header |]; [| reflexivity].
  destruct (truthy header); [| reflexivity].
  destruct (Buffer_from_base64 header) as [text |]; [| reflexivity].
  destruct (JSON_parse text); reflexivity.
Qed.

Lemma extract_steps_console (error : value) :
  forallb is_console (steps (extract error)) = true.
Proof.
  rewrite extract_run. pose proof (header_log_console error) as Hlog.
  destruct (first_yield _); cbn [steps fst]; try exact Hlog.
  rewrite forallb_app, Hlog. reflexivity.
Qed.

(** The run of a handler without a key, in full. *)
Lemma autoRecover_keyless (h : HaloAutoHandler) (w : World) (error : value)
    (args : list value) :
  wallet (tools h) = None -> autoApprove h = false ->
  autoRecover h w error args =
  match settled (extract error) with
  | Throw e => (steps (extract error), Throw e)
  | Ok reqData =>
      match judge_query reqData with
      | Throw e => (steps (extract error), Throw e)
      | Ok (requirement, description, amountStr) =>
          let asked :=
            steps (extract error)
              ++ asking (tools h) description amountStr in
          match settled (consultJudge (tools h) w description amountStr) with
          | Throw e => (asked, Throw e)
          | Ok decision =>
              match call_includes decision "YES" with
              | Throw e => (asked, Throw e)
              | Ok false => (asked, Throw judge_denied)
              | Ok true =>
                  (asked ++ [SignPaymentCall requirement], Throw no_signing_key)
              end
          end
      end
  end.
Proof.
  intros Hw Ha. unfold autoRecover, judge_query.
  rewrite (eff_eta (extract error)) at 1.
  destruct (settled (extract error)) as [reqData | e]; [| reflexivity].
  rewrite ebind_ok.
  destruct (requirement_of reqData) as [requirement | e];
    [| simpl; rewrite app_nil_r; reflexivity].
  rewrite (ebind_lift_ok _ eq_refl). cbn [bind].
  destruct (resource_of reqData) as [resource | e];
    [| simpl; rewrite app_nil_r; reflexivity].
  rewrite (ebind_lift_ok _ eq_refl). cbn [bind].
  destruct (get_or requirement "amount" "maxAmountRequired") as [amountStr | e];
    [| simpl; rewrite app_nil_r; reflexivity].
  rewrite (ebind_lift_ok _ eq_refl). cbn [bind].
  unfold approve. rewrite Ha.
  destruct (get resource "description") as [description | e];
    [| simpl; rewrite app_nil_r; reflexivity].
  rewrite (ebind_lift_ok _ eq_refl). cbn [bind].
  pose proof (consultJudge_steps (tools h) w description amountStr) as Hc.
  rewrite !steps_ebind, !settled_ebind, Hc.
  destruct (settled (consultJudge (tools h) w description amountStr))
    as [decision | e]; [| reflexivity].
  unfold lift. cbn [steps settled fst snd].
  destruct (call_includes decision "YES") as [[|] | e];
    cbn [ebind ret throw steps settled fst snd app]; rewrite ?app_nil_r;
    [| reflexivity | reflexivity].
  unfold signPayment. rewrite Hw, ebind_emit.
  cbn [throw steps settled fst snd]. rewrite app_assoc. reflexivity.
Qed.

End Keyless.


Section KeylessRecovery.

Context `{Host}.




End KeylessRecovery.


(** ** The decision of the judge (C6) *)

Section CandidateText.

Lemma get_field (v : value) (name : string) :
  nullish v = false -> String.eqb name "length" = false ->
  get v name = Ok (field v name).
Proof.
  intros Hn Hl. destruct v; try discriminate; cbn [get field];
    rewrite ?Hl; reflexivity.
Qed.

Lemma get_opt_field (v : value) (name : string) :
  String.eqb name "length" = false -> get_opt v name = Ok (field v name).
Proof.
  intros Hl. unfold get_opt. destruct (nullish v) eqn:Hn.
  - destruct v; try discriminate; reflexivity.
  - apply get_field; assumption.
Qed.

Lemma index_opt_first (v : value) : index_opt v 0 = Ok (first_of v).
Proof.
  destruct v as [| | b | n | s | items | props | entries];
    try reflexivity.
  - unfold index_opt. cbn [nullish index first_of nth_error].
    destruct (Str.units s); reflexivity.
  - destruct items; reflexivity.
Qed.

(** The chain of optional accesses reads the text of the first part of
    the first candidate; only a response that is null or undefined makes
    it throw. *)
Lemma candidate_text_first (data : value) :
  candidate_text data =
  if nullish data then Throw TypeError else Ok (first_part_text data).
Proof.
  unfold candidate_text, first_part_text.
  destruct (nullish data) eqn:Hn.
  - destruct data; try discriminate; reflexivity.
  - rewrite (get_field data "candidates" Hn eq_refl). cbn [bind].
    rewrite index_opt_first. cbn [bind].
    rewrite (get_opt_field _ "content" eq_refl). cbn [bind].
    rewrite (get_opt_field _ "parts" eq_refl). cbn [bind].
    rewrite index_opt_first. cbn [bind].
    apply (get_opt_field _ "text" eq_refl).
Qed.

End CandidateText.

Section Judge.

Context `{Host}.




End Judge.



(** ** The window of the authorization (C7) *)

Section Window.

Context `{Host}.

(** What a successful signing has done. *)
Lemma signPayment_success (t : HaloPaymentTools) (wal : Wallet) (w : World)
    (requirement : value) (env : string) :
  wallet t = Some wal ->
  settled (signPayment t w requirement) = Ok env ->
  exists amount domain payTo signature,
    amount_of requirement = Ok amount
    /\ get requirement "payTo" = Ok payTo
    /\ steps (signPayment t w requirement)
       = [SignPaymentCall requirement;
          SignTypedDataCall domain (authorization wal w amount payTo)]
    /\ signTypedData wal domain (authorization wal w amount payTo)
       = Some signature
    /\ envelope (payloadObj requirement signature
                   (authorization wal w amount payTo)) = Ok env.
Proof.
  intros Hw. rewrite (signPayment_run t w requirement Hw).
  destruct (amount_of requirement) as [amount | e]; [| discriminate].
  destruct (typed_domain requirement) as [domain | e]; [| discriminate].
  destruct (get requirement "payTo") as [payTo | e]; [| discriminate].
  cbv zeta. cbn [settled steps fst snd].
  destruct (signTypedData wal domain (authorization wal w amount payTo))
    as [signature |] eqn:Hs; [| discriminate].
  intros Henv. exists amount, domain, payTo, signature. auto.
Qed.

(** The width of the window when the clock is read twice. *)
Lemma window_width (wal : Wallet) (w : World) (amount : Z) (payTo : value) :
  validBefore (authorization wal w amount payTo)
  - validAfter (authorization wal w amount payTo)
  = 3660 + (now_second w / 1000 - now_first w / 1000).
Proof. unfold authorization. cbn [validBefore validAfter]. lia. Qed.

(** C7 (as amended).  The clock is read twice.  When a signing call
    succeeds, the authorization that was signed has [validAfter] 60
    seconds before the whole second of the first reading and
    [validBefore] 3600 seconds after the whole second of the second
    reading, and the envelope carries these two as decimal texts.  The
    window is 3660 seconds wider by the seconds that passed between the
    readings: 3660 when both fall in the same second, and for a clock
    that does not run backwards at least 3660, with both readings
    inside. *)
Theorem authorization_window
    (t : HaloPaymentTools) (wal : Wallet) (w : World) (requirement : value)
    (env : string) :
  wallet t = Some wal ->
  settled (signPayment t w requirement) = Ok env ->
  exists domain m signature payload text,
    steps (signPayment t w requirement)
    = [SignPaymentCall requirement; SignTypedDataCall domain m]
    /\ signTypedData wal domain m = Some signature
    /\ validAfter m = now_first w / 1000 - 60
    /\ validBefore m = now_second w / 1000 + 3600
    /\ validBefore m - validAfter m
       = 3660 + (now_second w / 1000 - now_first w / 1000)
    /\ (now_first w / 1000 = now_second w / 1000 ->
        validBefore m - validAfter m = 3660)
    /\ (now_first w <= now_second w ->
        3660 <= validBefore m - validAfter m
        /\ validAfter m < now_first w / 1000 <= validBefore m
        /\ validAfter m < now_second w / 1000 <= validBefore m)
    /\ Conv.stringify payload = Some text
    /\ env = Conv.base64 text
    /\ path payload ["payload"; "authorization"; "validAfter"]
       = VStr (Conv.number_text (validAfter m))
    /\ path payload ["payload"; "authorization"; "validBefore"]
       = VStr (Conv.number_text (validBefore m)).
Proof.
  intros Hw Hs.
  destruct (signPayment_success t w requirement Hw Hs)
    as (amount & domain & payTo & signature & _ & _ & Hsteps & Hsig & Henv).
  unfold envelope in Henv.
  destruct (Conv.stringify
              (payloadObj requirement signature
                 (authorization wal w amount payTo))) as [text |] eqn:Ht;
    [| discriminate].
  injection Henv as <-.
  exists domain, (authorization wal w amount payTo), signature,
    (payloadObj requirement signature (authorization wal w amount payTo)),
    text.
  assert (Hdiv : now_first w <= now_second w ->
                 now_first w / 1000 <= now_second w / 1000)
    by (intros Hle; apply Z.div_le_mono; lia).
  unfold authorization in *. cbn [validBefore validAfter].
  repeat split; try assumption; try reflexivity; try lia.
  all: intros Hle; specialize (Hdiv Hle); lia.
Qed.

End Window.

(** The end-to-end scenario, both readings in second 1700000000: the
    window is 3660 seconds wide, and the envelope carries its bounds. *)
Lemma authorization_window_witness :
  exists domain m signature payload text,
    steps (signPayment (H := Sample.host) Scenario.keyed_tools Scenario.calm
             Scenario.terms)
    = [SignPaymentCall Scenario.terms; SignTypedDataCall domain m]
    /\ signTypedData (Host := Sample.host) Scenario.the_wallet domain m
       = Some signature
    /\ validAfter m = 1699999940
    /\ validBefore m = 1700003600
    /\ validBefore m - validAfter m = 3660
    /\ Conv.stringify (H := Sample.host) payload = Some text
    /\ settled (signPayment (H := Sample.host) Scenario.keyed_tools
                  Scenario.calm Scenario.terms)
       = Ok (Conv.base64 text)
    /\ path payload ["payload"; "authorization"; "validAfter"]
       = VStr "1699999940"
    /\ path payload ["payload"; "authorization"; "validBefore"]
       = VStr "1700003600".
Proof.
  destruct (authorization_window (H := Sample.host) Scenario.keyed_tools
              Scenario.calm Scenario.terms (wal := Scenario.the_wallet)
              (env := Scenario.calm_envelope) eq_refl eq_refl)
    as (domain & m & signature & payload & text & Hsteps & Hsig & Hafter
        & Hbefore & _ & Hsame & _ & Htext & Henv & Hpa & Hpb).
  exists domain, m, signature, payload, text.
  split; [exact Hsteps |]. split; [exact Hsig |].
  split; [exact Hafter |]. split; [exact Hbefore |].
  split; [exact (Hsame eq_refl) |]. split; [exact Htext |].
  split; [rewrite <- Henv; reflexivity |].
  rewrite Hpa, Hpb, Hafter, Hbefore. split; reflexivity.
Defined.

(** C7 as stated fails: the first reading of the clock falls in the last
    millisecond of a second and the second reading in the next second.
    The call succeeds, and the window that is signed is 3661 seconds
    wide. *)
Lemma window_wider_across_a_tick :
  exists domain m env,
    signPayment (H := Sample.host) Scenario.keyed_tools Scenario.ticking
      Scenario.terms
    = ([SignPaymentCall Scenario.terms; SignTypedDataCall domain m], Ok env)
    /\ validAfter m = 1700000000 - 60
    /\ validBefore m = 1700000001 + 3600
    /\ validBefore m - validAfter m = 3661.
Proof.
  eexists. eexists. eexists. split; [reflexivity |]. repeat split.
Qed.

(** ** Nonce and envelope (C9) *)

Section StringFacts.

Local Open Scope string_scope.

Lemma append_assoc (a b c : string) : (a ++ b) ++ c = a ++ (b ++ c).
Proof. induction a as [| x a IH]; simpl; [reflexivity | now rewrite IH]. Qed.

Lemma length_append (a b : string) :
  String.length (a ++ b) = (String.length a + String.length b)%nat.
Proof. induction a as [| x a IH]; simpl; [reflexivity | now rewrite IH]. Qed.

(** Two texts that end in parts of the same length agree part by part. *)
Lemma append_same_length (p1 p2 s1 s2 : string) :
  p1 ++ s1 = p2 ++ s2 -> String.length s1 = String.length s2 ->
  p1 = p2 /\ s1 = s2.
Proof.
  revert p2. induction p1 as [| x p1 IH]; intros [| y p2] Heq Hlen; simpl in Heq.
  - auto.
  - exfalso. subst s1. simpl in Hlen. rewrite length_append in Hlen. lia.
  - exfalso. subst s2. simpl in Hlen. rewrite length_append in Hlen. lia.
  - injection Heq as -> Heq. destruct (IH p2 Heq Hlen) as [-> ->]. auto.
Qed.

End StringFacts.

Section Hex.

Lemma hex_digit_inj (n m : nat) :
  (n < 16)%nat -> (m < 16)%nat ->
  Conv.hex_digit n = Conv.hex_digit m -> n = m.
Proof.
  intros Hn Hm Heq.
  assert (Hv : forall k, (k < 16)%nat ->
                         Conv.digit_val (Conv.hex_digit k) = Some (Z.of_nat k)).
  { intros k Hk. do 16 (destruct k as [| k]; [reflexivity |]). lia. }
  pose proof (Hv n Hn) as H1. pose proof (Hv m Hm) as H2.
  rewrite Heq, H2 in H1. injection H1 as H1. lia.
Qed.

Lemma byte_bounded (b : Byte.byte) : (N.to_nat (Byte.to_N b) < 256)%nat.
Proof. pose proof (Byte.to_N_bounded b). lia. Qed.

Lemma byte_to_nat_inj (b c : Byte.byte) :
  N.to_nat (Byte.to_N b) = N.to_nat (Byte.to_N c) -> b = c.
Proof.
  intros Heq. apply N2Nat.inj in Heq.
  pose proof (Byte.of_to_N b) as Hb. rewrite Heq, Byte.of_to_N in Hb.
  now injection Hb.
Qed.

Lemma hex_byte_inj (b c : Byte.byte) (r s : string) :
  Conv.hex_byte b r = Conv.hex_byte c s -> b = c /\ r = s.
Proof.
  unfold Conv.hex_byte.
  pose proof (byte_bounded b) as Hb. pose proof (byte_bounded c) as Hc.
  set (n := N.to_nat (Byte.to_N b)) in *.
  set (m := N.to_nat (Byte.to_N c)) in *.
  pose proof (Nat.div_mod_eq n 16) as Dn.
  pose proof (Nat.div_mod_eq m 16) as Dm.
  assert (Hnh : (n / 16 < 16)%nat) by (apply Nat.Div0.div_lt_upper_bound; lia).
  assert (Hmh : (m / 16 < 16)%nat) by (apply Nat.Div0.div_lt_upper_bound; lia).
  assert (Hnl : (n mod 16 < 16)%nat) by (apply Nat.mod_upper_bound; lia).
  assert (Hml : (m mod 16 < 16)%nat) by (apply Nat.mod_upper_bound; lia).
  revert Dn Dm Hnh Hmh Hnl Hml.
  generalize (n / 16)%nat (n mod 16)%nat (m / 16)%nat (m mod 16)%nat.
  intros nh nl mh ml Dn Dm Hnh Hmh Hnl Hml Heq.
  injection Heq as Hhi Hlo Hrest.
  apply hex_digit_inj in Hhi; [| assumption ..].
  apply hex_digit_inj in Hlo; [| assumption ..].
  split; [| assumption]. apply byte_to_nat_inj. fold n m. lia.
Qed.

(** Different bytes have different hex forms. *)
Lemma hexlify_inj (bs cs : list Byte.byte) :
  Conv.hexlify bs = Conv.hexlify cs -> bs = cs.
Proof.
  unfold Conv.hexlify. intros Heq. injection Heq as Heq.
  revert cs Heq. induction bs as [| b bs IH]; intros [| c cs] Heq; simpl in Heq.
  - reflexivity.
  - discriminate.
  - discriminate.
  - apply hex_byte_inj in Heq as [-> Heq]. now rewrite (IH cs Heq).
Qed.

Lemma hexlify_length (bs : list Byte.byte) :
  String.length (Conv.hexlify bs) = (2 + 2 * List.length bs)%nat.
Proof.
  unfold Conv.hexlify. simpl. do 2 f_equal.
  induction bs as [| b bs IH]; simpl; [reflexivity | rewrite IH; lia].
Qed.

Lemma hex_digit_plain (n : nat) (rest : string) :
  (n < 16)%nat ->
  Conv.escape_char (Conv.hex_digit n) rest = String (Conv.hex_digit n) rest.
Proof.
  intros Hn. do 16 (destruct n as [| n]; [reflexivity |]). lia.
Qed.

Lemma escape_hex_byte (b : Byte.byte) (rest : string) :
  Conv.escape (Conv.hex_byte b rest) = Conv.hex_byte b (Conv.escape rest).
Proof.
  unfold Conv.hex_byte. pose proof (byte_bounded b) as Hb.
  set (n := N.to_nat (Byte.to_N b)) in *.
  assert (Hnh : (n / 16 < 16)%nat) by (apply Nat.Div0.div_lt_upper_bound; lia).
  assert (Hnl : (n mod 16 < 16)%nat) by (apply Nat.mod_upper_bound; lia).
  revert Hnh Hnl. generalize (n / 16)%nat (n mod 16)%nat. intros nh nl Hnh Hnl.
  cbn [Conv.escape]. now rewrite !hex_digit_plain.
Qed.

(** The hex form needs no escaping in a JSON string. *)
Lemma escape_hexlify (bs : list Byte.byte) :
  Conv.escape (Conv.hexlify bs) = Conv.hexlify bs.
Proof.
  unfold Conv.hexlify.
  change (Conv.escape ("0x" ++ fold_right Conv.hex_byte EmptyString bs)%string)
    with (String "0"%char (String "x"%char
            (Conv.escape (fold_right Conv.hex_byte EmptyString bs)))).
  cbn [String.append]. do 2 f_equal.
  induction bs as [| b bs IH]; [reflexivity |].
  cbn [fold_right]. now rewrite escape_hex_byte, IH.
Qed.

End Hex.

Section Base64.

Lemma sextet_base64_char (n : nat) :
  (n < 64)%nat -> Sample.sextet (Conv.base64_char n) = Some n.
Proof. intros Hn. do 64 (destruct n as [| n]; [reflexivity |]). lia. Qed.

Lemma base64_char_inj (n m : nat) :
  (n < 64)%nat -> (m < 64)%nat ->
  Conv.base64_char n = Conv.base64_char m -> n = m.
Proof.
  intros Hn Hm Heq. pose proof (sextet_base64_char Hn) as H1.
  rewrite Heq, (sextet_base64_char Hm) in H1. now injection H1.
Qed.

Lemma base64_char_not_pad (n : nat) :
  (n < 64)%nat -> Conv.base64_char n <> "="%char.
Proof.
  intros Hn Heq. pose proof (sextet_base64_char Hn) as H1.
  rewrite Heq in H1. discriminate.
Qed.

Lemma code_inj (a b : ascii) : nat_of_ascii a = nat_of_ascii b -> a = b.
Proof.
  intros Heq. rewrite <- (ascii_nat_embedding a), <- (ascii_nat_embedding b).
  now rewrite Heq.
Qed.

(** Quotients and remainders by 4, 16 and 64, as [lia] needs them. *)
Lemma code_split (a : nat) :
  (a = 4 * (a / 4) + a mod 4 /\ a mod 4 < 4
   /\ a = 16 * (a / 16) + a mod 16 /\ a mod 16 < 16
   /\ a = 64 * (a / 64) + a mod 64 /\ a mod 64 < 64)%nat.
Proof.
  repeat split;
    try apply Nat.div_mod_eq; apply Nat.mod_upper_bound; discriminate.
Qed.

Local Opaque Nat.div Nat.modulo Conv.base64_char.

Ltac pad_contradiction :=
  match goal with
  | H : "="%char = Conv.base64_char _ |- _ =>
      symmetry in H; apply base64_char_not_pad in H; [contradiction | lia]
  | H : Conv.base64_char _ = "="%char |- _ =>
      apply base64_char_not_pad in H; [contradiction | lia]
  end.

Ltac sextets_equal :=
  repeat match goal with
         | H : Conv.base64_char _ = Conv.base64_char _ |- _ =>
             apply base64_char_inj in H; [| lia ..]
         end.

Lemma base64_inj_bounded (n : nat) :
  forall s1 s2, (String.length s1 <= n)%nat ->
    Conv.base64 s1 = Conv.base64 s2 -> s1 = s2.
Proof.
  induction n as [| n IH]; intros s1 s2 Hlen Heq.
  - destruct s1; [| simpl in Hlen; lia].
    destruct s2 as [| a' [| b' [| c' r2]]]; [reflexivity | discriminate ..].
  - destruct s1 as [| a [| b [| c r1]]]; destruct s2 as [| a' [| b' [| c' r2]]];
      cbn [Conv.base64] in Heq; cbv zeta in Heq;
      try reflexivity; try discriminate;
      repeat match goal with
             | x : ascii |- _ =>
                 lazymatch goal with
                 | _ : (nat_of_ascii x < 256)%nat |- _ => fail
                 | _ => pose proof (nat_ascii_bounded x);
                        pose proof (code_split (nat_of_ascii x))
                 end
             end;
      injection Heq; intros;
      try pad_contradiction;
      sextets_equal.
    + assert (nat_of_ascii a = nat_of_ascii a') as Ha by lia.
      apply code_inj in Ha. now subst.
    + assert (nat_of_ascii a = nat_of_ascii a') as Ha by lia.
      assert (nat_of_ascii b = nat_of_ascii b') as Hb by lia.
      apply code_inj in Ha, Hb. now subst.
    + assert (nat_of_ascii a = nat_of_ascii a') as Ha by lia.
      assert (nat_of_ascii b = nat_of_ascii b') as Hb by lia.
      assert (nat_of_ascii c = nat_of_ascii c') as Hc by lia.
      apply code_inj in Ha, Hb, Hc. subst.
      rewrite (IH r1 r2); [reflexivity | simpl in Hlen; lia | assumption].
Qed.

(** Different texts have different base64 forms. *)
Lemma base64_inj (s1 s2 : string) : Conv.base64 s1 = Conv.base64 s2 -> s1 = s2.
Proof. apply (base64_inj_bounded (n := String.length s1)). lia. Qed.

End Base64.

Section Envelope.

Context `{Host}.

Local Open Scope string_scope.

Lemma stringify_object (props : list (string * value)) :
  Conv.stringify (VObj props)
  = Some ("{" ++ String.concat "," (members_of props) ++ "}").
Proof.
  reflexivity.
Qed.

Lemma concat_last (sep : string) (l : list string) (x : string) :
  exists pre, String.concat sep (l ++ [x]) = pre ++ x.
Proof.
  induction l as [| a l [pre IH]].
  - exists EmptyString. reflexivity.
  - exists (a ++ sep ++ pre).
    change ((a :: l) ++ [x])%list with (a :: (l ++ [x]))%list.
    destruct (l ++ [x])%list as [| b rest] eqn:E.
    + destruct l; discriminate.
    + cbn [String.concat]. cbn [String.concat] in IH.
      rewrite IH, !append_assoc. reflexivity.
Qed.

Lemma members_last (init : list (string * value)) (k : string) (v : value)
    (text : string) :
  Conv.stringify v = Some text ->
  members_of (init ++ [(k, v)])
  = (members_of init ++ [(Conv.quote k ++ ":" ++ text)%string])%list.
Proof.
  intros Hv. induction init as [| [k' x] rest IH]; cbn [members_of app].
  - rewrite Hv. reflexivity.
  - destruct (Conv.stringify x); [cbn [app]; f_equal |]; exact IH.
Qed.

(** The text of an object ends with the text of its last property, when
    that is not undefined, and the closing brace. *)
Lemma stringify_last_member (init : list (string * value)) (k : string)
    (v : value) (text : string) :
  Conv.stringify v = Some text ->
  exists pre,
    Conv.stringify (VObj (init ++ [(k, v)])) = Some (pre ++ text ++ "}").
Proof.
  intros Hv. rewrite stringify_object, (@members_last init k v text Hv).
  destruct (concat_last "," (members_of init) (Conv.quote k ++ ":" ++ text))
    as [pre ->].
  exists ("{" ++ pre ++ Conv.quote k ++ ":").
  rewrite !append_assoc. reflexivity.
Qed.

(** The serialised payload ends with the nonce. *)
Lemma payload_text (requirement : value) (signature : string)
    (m : Authorization) :
  exists pre,
    Conv.stringify (payloadObj requirement signature m)
    = Some (pre ++ Conv.quote (nonce m) ++ "}}}").
Proof.
  unfold payloadObj.
  destruct (stringify_last_member
              [("from", VStr (auth_from m)); ("to", auth_to m);
               ("value", VStr (Conv.Zstr (auth_value m)));
               ("validAfter", VStr (Conv.number_text (validAfter m)));
               ("validBefore", VStr (Conv.number_text (validBefore m)))]
              "nonce" (VStr (nonce m)) eq_refl) as [pa Ha].
  cbn [app] in Ha.
  destruct (stringify_last_member [("signature", VStr signature)]
              "authorization" _ Ha) as [pp Hp].
  cbn [app] in Hp.
  destruct (stringify_last_member
              [("x402Version", VNum 2); ("accepted", requirement)]
              "payload" _ Hp) as [pt Ht].
  cbn [app] in Ht.
  exists (pt ++ pp ++ pa). rewrite Ht, !append_assoc. reflexivity.
Qed.

Lemma quote_hexlify_tail_inj (bs cs : list Byte.byte) :
  List.length bs = List.length cs ->
  forall p1 p2,
    p1 ++ Conv.quote (Conv.hexlify bs) ++ "}}}"
    = p2 ++ Conv.quote (Conv.hexlify cs) ++ "}}}" ->
    bs = cs.
Proof.
  intros Hlen p1 p2 Heq. unfold Conv.quote in Heq.
  rewrite !escape_hexlify in Heq.
  apply append_same_length in Heq as [_ Heq].
  - cbn [String.append] in Heq. injection Heq as Heq.
    rewrite !append_assoc in Heq.
    apply append_same_length in Heq as [Heq _]; [| reflexivity].
    apply hexlify_inj. unfold Conv.hexlify. now rewrite Heq.
  - cbn [String.append String.length]. rewrite !length_append, !hexlify_length.
    rewrite Hlen. reflexivity.
Qed.

End Envelope.

Section Nonce.

Context `{Host}.

Lemma signed_message (t : HaloPaymentTools) (wal : Wallet) (w : World)
    (requirement : value) (d : TypedDomain) (m : Authorization) :
  wallet t = Some wal ->
  In (SignTypedDataCall d m) (steps (signPayment t w requirement)) ->
  nonce m = Conv.hexlify (random_bytes w).
Proof.
  intros Hw. rewrite (signPayment_run t w requirement Hw).
  destruct (amount_of requirement) as [amount | e];
    [| intros [Hin | []]; discriminate].
  destruct (typed_domain requirement) as [domain | e];
    [| intros [Hin | []]; discriminate].
  destruct (get requirement "payTo") as [payTo | e];
    [| intros [Hin | []]; discriminate].
  cbv zeta. cbn [steps fst]. intros [Hin | [Hin | []]]; [discriminate |].
  injection Hin as _ <-. reflexivity.
Qed.

(** C9.  For one requirement and one signing key, two successful signing
    calls whose draws of 32 random bytes differ sign authorizations with
    different nonces and return different envelopes.  The nonce is the
    hex form of the draw and of nothing else. *)
Theorem distinct_draws_distinct_envelopes
    (t : HaloPaymentTools) (wal : Wallet) (w1 w2 : World) (requirement : value)
    (env1 env2 : string) :
  wallet t = Some wal ->
  List.length (random_bytes w1) = 32%nat ->
  List.length (random_bytes w2) = 32%nat ->
  random_bytes w1 <> random_bytes w2 ->
  settled (signPayment t w1 requirement) = Ok env1 ->
  settled (signPayment t w2 requirement) = Ok env2 ->
  env1 <> env2
  /\ (forall d1 m1 d2 m2,
        In (SignTypedDataCall d1 m1) (steps (signPayment t w1 requirement)) ->
        In (SignTypedDataCall d2 m2) (steps (signPayment t w2 requirement)) ->
        nonce m1 <> nonce m2)
  /\ (forall d m,
        In (SignTypedDataCall d m) (steps (signPayment t w1 requirement)) ->
        nonce m = Conv.hexlify (random_bytes w1)).
Proof.
  intros Hw L1 L2 Hdiff S1 S2. split; [| split].
  - destruct (signPayment_success t w1 requirement Hw S1)
      as (a1 & d1 & p1 & s1 & _ & _ & _ & _ & E1).
    destruct (signPayment_success t w2 requirement Hw S2)
      as (a2 & d2 & p2 & s2 & _ & _ & _ & _ & E2).
    unfold envelope in E1, E2.
    destruct (payload_text requirement s1 (authorization wal w1 a1 p1))
      as [pre1 T1].
    destruct (payload_text requirement s2 (authorization wal w2 a2 p2))
      as [pre2 T2].
    rewrite T1 in E1. rewrite T2 in E2.
    injection E1 as <-. injection E2 as <-.
    intros Heq. apply base64_inj in Heq. apply Hdiff.
    cbn [nonce authorization] in Heq.
    apply (quote_hexlify_tail_inj (random_bytes w1) (random_bytes w2)
             (eq_trans L1 (eq_sym L2)) pre1 pre2 Heq).
  - intros d1 m1 d2 m2 H1 H2.
    rewrite (@signed_message t wal w1 requirement d1 m1 Hw H1).
    rewrite (@signed_message t wal w2 requirement d2 m2 Hw H2).
    intros Heq. apply Hdiff. apply hexlify_inj, Heq.
  - intros d m Hin. exact (@signed_message t wal w1 requirement d m Hw Hin).
Qed.

End Nonce.

(** Two draws, two envelopes. *)
Lemma distinct_draws_distinct_envelopes_witness :
  exists env1 env2,
    settled (signPayment (H := Sample.host) Scenario.keyed_tools
               (Scenario.world "YES" (Scenario.draw Byte.x11)) Scenario.terms)
    = Ok env1
    /\ settled (signPayment (H := Sample.host) Scenario.keyed_tools
                  (Scenario.world "YES" (Scenario.draw Byte.x22)) Scenario.terms)
       = Ok env2
    /\ env1 <> env2.
Proof.
  eexists. eexists. split; [reflexivity |]. split; [reflexivity |].
  refine (proj1 (distinct_draws_distinct_envelopes (H := Sample.host)
                   Scenario.keyed_tools (wal := Scenario.the_wallet)
                   (Scenario.world "YES" (Scenario.draw Byte.x11))
                   (Scenario.world "YES" (Scenario.draw Byte.x22))
                   Scenario.terms eq_refl eq_refl eq_refl _ eq_refl eq_refl)).
  discriminate.
Defined.

(** ** The description given to the judge (C8) *)

Section Description.

Context `{Host}.

Lemma judge_query_description (reqData requirement amountStr : value) :
  requirement_of reqData = Ok requirement ->
  get_or requirement "amount" "maxAmountRequired" = Ok amountStr ->
  judge_query reqData = Ok (requirement, description_of reqData, amountStr).
Proof.
  intros Hr Hg. unfold judge_query, description_of, resource_of.
  rewrite Hr. cbn [bind].
  destruct (get reqData "resource") as [resource | e] eqn:E.
  2:{ unfold requirement_of in Hr. destruct reqData; discriminate. }
  cbn [bind]. rewrite Hg. cbn [bind]. unfold or_else.
  destruct (truthy resource) eqn:T.
  - destruct resource; try discriminate; reflexivity.
  - reflexivity.
Qed.

(** C8 (as amended).  On a handler built without a key, once the terms
    are extracted and name a requirement and an amount, the judge is
    consulted about [description_of] the terms: the [description]
    property of the [resource] next to the requirement when that resource
    is truthy.  When the description and the amount can be written into
    the prompt, the request to the judge carries their texts.  When there
    is no resource an empty object stands in for it, the description
    given to the judge is [undefined], not the empty string, and the
    request says undefined. *)
Theorem judge_description
    (env : Env) (config : HaloConfig) (h : HaloAutoHandler) (w : World)
    (error : value) (args : list value)
    (reqData requirement amountStr : value) :
  new_HaloAutoHandler env config = Ok h ->
  is_set (or_string (privateKey config) (HALO_WALLET_PRIVATE_KEY env)) = false ->
  settled (extract error) = Ok reqData ->
  requirement_of reqData = Ok requirement ->
  get_or requirement "amount" "maxAmountRequired" = Ok amountStr ->
  judge_query reqData = Ok (requirement, description_of reqData, amountStr)
  /\ (printable (description_of reqData) = true ->
      printable amountStr = true ->
      exists rest,
        steps (autoRecover h w error args)
        = steps (extract error)
            ++ consultation (tools h) (printed (description_of reqData))
                 (printed amountStr)
            ++ rest)
  /\ (forall resource,
        get reqData "resource" = Ok resource -> truthy resource = true ->
        get resource "description" = Ok (description_of reqData))
  /\ (forall resource,
        get reqData "resource" = Ok resource -> truthy resource = false ->
        description_of reqData = VUndef
        /\ printed (description_of reqData) = "undefined").
Proof.
  intros Hh Hset He Hr Hg.
  destruct (new_HaloAutoHandler_keyless _ _ Hh Hset) as [Hw Ha].
  split; [exact (judge_query_description _ Hr Hg) |].
  split; [| split].
  - intros Hpd Hpa.
    rewrite (autoRecover_keyless h w error args Hw Ha), He.
    rewrite (judge_query_description _ Hr Hg). cbv zeta.
    assert (Hask : asking (tools h) (description_of reqData) amountStr
                   = consultation (tools h) (printed (description_of reqData))
                       (printed amountStr)).
    { unfold asking, printable, printed in *.
      destruct (Conv.toString (description_of reqData)); [| discriminate].
      destruct (Conv.toString amountStr); [| discriminate]. reflexivity. }
    rewrite Hask.
    destruct (settled (consultJudge _ _ _ _)) as [decision | e];
      [| exists []; cbn [steps fst]; now rewrite app_nil_r].
    destruct (call_includes decision "YES") as [[|] | e]; cbn [steps fst];
      [| exists []; now rewrite app_nil_r ..].
    exists [SignPaymentCall requirement]. now rewrite app_assoc.
  - intros resource Hres Ht. unfold description_of. rewrite Hres, Ht.
    destruct resource; try discriminate; reflexivity.
  - intros resource Hres Hf. unfold description_of. rewrite Hres, Hf.
    split; reflexivity.
Qed.

End Description.

(** A described resource: its description is what the judge is asked
    about. *)
Lemma judge_description_witness :
  exists rest,
    steps (autoRecover (H := Sample.host) Scenario.keyless
             (Scenario.world "no" (Scenario.draw Byte.x11))
             Scenario.failure_described [VStr "hi"])
    = [] ++ [Console (LogRescue "physics data" "1000000");
             JudgeRequest Scenario.url "physics data" "1000000"]
         ++ rest.
Proof.
  exact (proj1 (proj2 (judge_description (H := Sample.host)
                  Scenario.no_env Scenario.keyless_config (h := Scenario.keyless)
                  (Scenario.world "no" (Scenario.draw Byte.x11))
                  Scenario.failure_described [VStr "hi"]
                  (reqData := VObj [("accepts", VArr [Scenario.terms]);
                                    ("resource",
                                      VObj [("description", VStr "physics data")])])
                  (requirement := Scenario.terms) (amountStr := VStr "1000000")
                  eq_refl eq_refl eq_refl eq_refl eq_refl)) eq_refl eq_refl).
Defined.

(** C8 as stated fails: the terms name no resource, and the description
    in the request to the judge is [undefined], not the empty string. *)
Lemma absent_resource_description_undefined :
  get (VObj [("accepts", VArr [Scenario.terms])]) "resource" = Ok VUndef
  /\ judge_query (VObj [("accepts", VArr [Scenario.terms])])
     = Ok (Scenario.terms, VUndef, VStr "1000000")
  /\ steps (autoRecover (H := Sample.host) Scenario.keyless
              (Scenario.world "no" (Scenario.draw Byte.x11))
              Scenario.failure_402 [VStr "hi"])
     = [Console (LogRescue "undefined" "1000000");
        JudgeRequest Scenario.url "undefined" "1000000"]
  /\ VUndef <> VStr EmptyString
  /\ "undefined"%string <> EmptyString.
Proof. repeat split; try reflexivity; discriminate. Qed.

(** ** The object returned by the retry (C10) *)

Section Reshape.

Context `{Host}.

Lemma lookup_assign {A} (k k' : string) (x : A) (o : list (string * A)) :
  lookup k (assign k' x o) = if String.eqb k k' then Some x else lookup k o.
Proof.
  induction o as [| [k0 x0] o IH]; cbn [assign lookup].
  - reflexivity.
  - destruct (String.eqb k' k0) eqn:E0; cbn [lookup].
    + apply String.eqb_eq in E0. subst k0.
      destruct (String.eqb k k'); reflexivity.
    + destruct (String.eqb k k0) eqn:E1.
      * apply String.eqb_eq in E1. subst k0.
        rewrite String.eqb_sym, E0. reflexivity.
      * exact IH.
Qed.

Lemma lookup_absent {A} (k : string) (l : list (string * A)) :
  ~ In k (map fst l) -> lookup k l = None.
Proof.
  induction l as [| [k0 x0] l IH]; cbn [lookup map fst]; [reflexivity |].
  intros Hnot. destruct (String.eqb k k0) eqn:E.
  - apply String.eqb_eq in E. exfalso. apply Hnot. left. now subst.
  - apply IH. intros Hin. apply Hnot. right. exact Hin.
Qed.

(** Copying the properties of an object over [o]: a key of the object
    takes its value, any other key keeps what [o] had. *)
Lemma lookup_spread (props : list (string * value)) (o : result_object)
    (k : string) :
  NoDup (map fst props) ->
  lookup k (spread o (VObj props)) =
  match lookup k props with
  | Some v => Some (Plain v)
  | None => lookup k o
  end.
Proof.
  unfold spread. cbn [own_enumerable].
  revert o. induction props as [| [k1 v1] rest IH]; intros o Hnd.
  - reflexivity.
  - inversion Hnd as [| ? ? Hnot Hnd']; subst.
    cbn [fold_left fst snd lookup]. rewrite (IH _ Hnd'), lookup_assign.
    destruct (String.eqb k k1) eqn:E.
    + apply String.eqb_eq in E. subst k1.
      rewrite (lookup_absent _ _ Hnot). reflexivity.
    + reflexivity.
Qed.

Lemma retry_settled (w : World) (signature : string) (args : list value)
    (api : string * string) (body : string) (json : value) :
  retry_response w = Responded true body ->
  JSON_parse body = Some json ->
  settled (retry w signature args api)
  = Ok (spread [("response", TextAccessor json)] json).
Proof.
  intros Hw Hp. destruct api as [k u]. unfold retry.
  rewrite !settled_ebind. cbn [emit settled snd]. rewrite Hw. cbn [negb].
  rewrite settled_ebind. unfold response_json. rewrite Hp. reflexivity.
Qed.

(** C10 (as amended).  A retry answered with success and a JSON object
    returns an object that has every top-level field of that JSON.  When
    the JSON has no field [response], the returned [response] is the
    wrapper, whose [text()] gives the text of the first part of the first
    candidate, or the empty string when there is none (or it is falsy).
    When the JSON has a field [response], that field takes the place of
    the wrapper, and there is no [text] accessor to call. *)
Theorem retry_result_shape
    (w : World) (signature : string) (args : list value)
    (api : string * string) (body : string) (props : list (string * value)) :
  retry_response w = Responded true body ->
  JSON_parse body = Some (VObj props) ->
  NoDup (map fst props) ->
  exists r,
    settled (retry w signature args api) = Ok r
    /\ (forall k v, lookup k props = Some v -> lookup k r = Some (Plain v))
    /\ match lookup "response" props with
       | None =>
           lookup "response" r = Some (TextAccessor (VObj props))
           /\ response_text r
              = Ok (or_else (first_part_text (VObj props)) (VStr EmptyString))
       | Some native =>
           lookup "response" r = Some (Plain native)
           /\ response_text r = Throw TypeError
       end.
Proof.
  intros Hw Hp Hnd.
  exists (spread [("response", TextAccessor (VObj props))] (VObj props)).
  split; [exact (retry_settled w signature args api Hw Hp) |].
  split.
  - intros k v Hk. rewrite (@lookup_spread props _ k Hnd), Hk. reflexivity.
  - unfold response_text. rewrite (@lookup_spread props _ "response" Hnd).
    destruct (lookup "response" props) as [native |].
    + split; reflexivity.
    + split; [reflexivity |]. cbn [lookup String.eqb Ascii.eqb Bool.eqb].
      unfold text_accessor. rewrite candidate_text_first. reflexivity.
Qed.

End Reshape.

(** A reply with two candidates: the fields pass through, and the text
    accessor gives the first part of the first candidate.  A reply with a
    [response] field of its own: no accessor. *)
Lemma retry_result_shape_witness :
  (exists r,
     settled (retry (H := Sample.host)
                (Scenario.replied Scenario.two_candidates_body)
                "proof" [VStr "hi"] ("sk-1", "https://halo.test")) = Ok r
     /\ lookup "usage" r = Some (Plain (VNum 7))
     /\ response_text r = Ok (VStr "hello"))
  /\ (exists r,
        settled (retry (H := Sample.host)
                   (Scenario.replied Scenario.shadowing_body)
                   "proof" [VStr "hi"] ("sk-1", "https://halo.test")) = Ok r
        /\ lookup "response" r = Some (Plain (VStr "native"))
        /\ response_text r = Throw TypeError).
Proof.
  assert (Hnd : forall (a b : string), a <> b -> NoDup [a; b]).
  { intros a b Hab. constructor; [intros [Heq | []]; now apply Hab |].
    constructor; [intros [] | constructor]. }
  assert (Hfirst : JSON_parse (Host := Sample.host) Scenario.two_candidates_body
                   = Some (VObj Scenario.two_candidates))
    by (vm_compute; reflexivity).
  assert (Hsecond : JSON_parse (Host := Sample.host) Scenario.shadowing_body
                    = Some (VObj [("response", VStr "native"); ("n", VNum 1)]))
    by (vm_compute; reflexivity).
  split.
  - destruct (retry_result_shape (H := Sample.host)
                (Scenario.replied Scenario.two_candidates_body) "proof"
                [VStr "hi"] ("sk-1", "https://halo.test") eq_refl Hfirst
                (Hnd "candidates" "usage" ltac:(discriminate)))
      as (r & Hr & Hfields & Hresp & Htext).
    exists r. split; [exact Hr |].
    split; [exact (Hfields "usage" (VNum 7) eq_refl) | exact Htext].
  - destruct (retry_result_shape (H := Sample.host)
                (Scenario.replied Scenario.shadowing_body)
                "proof" [VStr "hi"] ("sk-1", "https://halo.test")
                eq_refl Hsecond (Hnd "response" "n" ltac:(discriminate)))
      as (r & Hr & _ & Hresp & Htext).
    exists r. split; [exact Hr | split; [exact Hresp | exact Htext]].
Defined.

(** C10 as stated fails: the retry is answered 200 with the body null,
    which has no top-level field [response].  The retry returns the
    wrapper, and its [text()] throws on reading [candidates] of null
    where the claim has it return the empty string. *)
Lemma null_body_text_throws :
  JSON_parse (Host := Sample.host) "null" = Some VNull
  /\ settled (retry (H := Sample.host) (Scenario.replied "null") "proof"
                [VStr "hi"] ("sk-1", "https://halo.test"))
     = Ok [("response", TextAccessor VNull)]
  /\ response_text [("response", TextAccessor VNull)] = Throw TypeError
  /\ @Throw value TypeError <> Ok (VStr EmptyString).
Proof. repeat split; try reflexivity; discriminate. Qed.

(** ** The end-to-end scenarios *)

(** A key is configured: the failing call is recovered on the fast track,
    and the text accessor of what the wrapper returns gives hello. *)
Example recovered_text :
  match settled (intercepted (H := Sample.host) Scenario.keyed Scenario.calm
                   [VStr "hi"] (Throws Scenario.failure_402)) with
  | Ok (Recovered r) => response_text r = Ok (VStr "hello")
  | _ => False
  end.
Proof. reflexivity. Qed.

(** No key, and a judge that says yes: the signing step is entered and
    has no key to sign with. *)
Example keyless_yes :
  autoRecover (H := Sample.host) Scenario.keyless Scenario.calm
    Scenario.failure_402 [VStr "hi"]
  = ([Console (LogRescue "undefined" "1000000");
      JudgeRequest Scenario.url "undefined" "1000000";
      SignPaymentCall Scenario.terms],
     Throw no_signing_key).
Proof. reflexivity. Qed.

(* ================================================================== *)
(** * Further properties of the code *)
(* ================================================================== *)

(** ** The interceptor on a thrown null or undefined *)

Section ThrownNullish.

Context `{Host}.

(** X1.  When the wrapped method throws [null] or [undefined], reading
    [error.response] in the [catch] block throws: the wrapper ends with a
    TypeError of its own, before the debug line, and the thrown value is
    not rethrown. *)
Theorem thrown_nullish_not_rethrown
    (h : HaloAutoHandler) (w : World) (args : list value) (error : value) :
  nullish error = true ->
  intercepted h w args (Throws error) = ([], Throw TypeError).
Proof.
  intros Hn. destruct error; try discriminate; reflexivity.
Qed.

End ThrownNullish.

Lemma thrown_nullish_not_rethrown_witness :
  intercepted (H := Sample.host) Scenario.keyed Scenario.calm [VStr "hi"]
    (Throws VNull)
  = ([], Throw TypeError).
Proof.
  exact (thrown_nullish_not_rethrown (H := Sample.host) Scenario.keyed
           Scenario.calm [VStr "hi"] VNull eq_refl).
Defined.

(** ** Construction of the tools and of the handler *)

Section Construction.

Context `{Host}.

(** X2.  A handler that was constructed approves on its own exactly when
    its tools hold a wallet, and that wallet is the one of the first
    truthy key among the option and the environment variable. *)
Theorem handler_auto_iff_wallet
    (env : Env) (config : HaloConfig) (h : HaloAutoHandler) :
  new_HaloAutoHandler env config = Ok h ->
  (autoApprove h = true <-> wallet (tools h) <> None)
  /\ forall wal, wallet (tools h) = Some wal ->
       or_string (privateKey config) (HALO_WALLET_PRIVATE_KEY env)
       = Some (wallet_key wal)
       /\ Wallet_address (wallet_key wal) = Some (address wal).
Proof.
  unfold new_HaloAutoHandler, new_HaloPaymentTools. cbn [privateKey rpcUrl].
  destruct (or_string (privateKey config) (HALO_WALLET_PRIVATE_KEY env))
    as [pk |] eqn:Epk; cbn [is_set].
  - destruct (Str.is_empty pk) eqn:Ee; cbn [bind negb].
    + intros [= <-]. cbn. split; [split; [discriminate | congruence] |].
      discriminate.
    + destruct (Wallet_address pk) as [a |] eqn:Ea; cbn [bind]; [| discriminate].
      intros [= <-]. cbn. split; [split; [discriminate | reflexivity] |].
      intros wal [= <-]. cbn. auto.
  - cbn [bind]. intros [= <-]. cbn. split; [split; [discriminate | congruence] |].
    discriminate.
Qed.

(** X3.  Tools constructed without the [privateKey] option hold no
    wallet, whatever the environment says, and their [signPayment] fails
    with the no-key error for every requirement, before looking at it. *)
Theorem tools_without_key_cannot_sign
    (env : Env) (config : HaloConfig) (t : HaloPaymentTools) (w : World)
    (requirement : value) :
  new_HaloPaymentTools env config = Ok t ->
  is_set (privateKey config) = false ->
  wallet t = None
  /\ signPayment t w requirement
     = ([SignPaymentCall requirement], Throw no_signing_key).
Proof.
  intros Ht Hset.
  assert (Hw : wallet t = None).
  { unfold new_HaloPaymentTools in Ht.
    destruct (privateKey config) as [pk |]; cbn [is_set] in Hset.
    - destruct (Str.is_empty pk); [| discriminate].
      cbn [bind] in Ht. injection Ht as <-. reflexivity.
    - cbn [bind] in Ht. injection Ht as <-. reflexivity. }
  split; [exact Hw |]. unfold signPayment. rewrite Hw. reflexivity.
Qed.

End Construction.

Lemma handler_auto_iff_wallet_witness :
  (autoApprove Scenario.keyed = true <-> wallet (tools Scenario.keyed) <> None).
Proof.
  exact (proj1 (handler_auto_iff_wallet (H := Sample.host) Scenario.no_env
                  Scenario.keyed_config (h := Scenario.keyed) eq_refl)).
Defined.

(** The environment names a key, the option does not: the tools ignore
    the environment. *)
Lemma tools_without_key_cannot_sign_witness :
  signPayment (H := Sample.host) Scenario.keyless_tools Scenario.calm
    Scenario.terms
  = ([SignPaymentCall Scenario.terms], Throw no_signing_key).
Proof.
  exact (proj2 (tools_without_key_cannot_sign (H := Sample.host)
                  {| HALO_API_KEY := None; HALO_PROXY_URL := None;
                     HALO_WALLET_PRIVATE_KEY := Some "0xabc" |}
                  Scenario.keyless_config (t := Scenario.keyless_tools)
                  Scenario.calm Scenario.terms eq_refl eq_refl)).
Defined.

(** ** What is signed, and when signing succeeds *)

Section Signing.

Context `{Host}.

Lemma typed_domain_object (props : list (string * value)) :
  typed_domain (VObj props) = Ok (domain_of props).
Proof.
  unfold typed_domain, domain_of, extra_or, extra_field, get_opt.
  cbn [get bind].
  destruct (nullish (from_option (lookup "extra" props))) eqn:En;
    [reflexivity |].
  destruct (from_option (lookup "extra" props)); try discriminate; reflexivity.
Qed.

Lemma envelope_object (requirement : value) (signature : string)
    (m : Authorization) :
  exists text,
    Conv.stringify (payloadObj requirement signature m) = Some text
    /\ envelope (payloadObj requirement signature m) = Ok (Conv.base64 text).
Proof.
  unfold envelope, payloadObj. rewrite stringify_object. eauto.
Qed.

(** The run of [signPayment] on a requirement object, with a wallet. *)
Lemma signPayment_object (t : HaloPaymentTools) (wal : Wallet) (w : World)
    (props : list (string * value)) :
  wallet t = Some wal ->
  signPayment t w (VObj props) =
  match Conv.BigInt (amount_source props) with
  | Throw e => ([SignPaymentCall (VObj props)], Throw e)
  | Ok amount =>
      let message :=
        authorization wal w amount (from_option (lookup "payTo" props)) in
      ([SignPaymentCall (VObj props);
        SignTypedDataCall (domain_of props) message],
       match signTypedData wal (domain_of props) message with
       | None => Throw HostError
       | Some signature =>
           envelope (payloadObj (VObj props) signature message)
       end)
  end.
Proof.
  intros Hw. rewrite (signPayment_run t w (VObj props) Hw).
  rewrite amount_of_object, typed_domain_object. reflexivity.
Qed.

(** X4.  With a wallet, [signPayment] signs at most once, and what it
    signs for a requirement object is fixed by the requirement, the
    wallet and the world: the domain has chain id 8453, the name and
    version of [extra] or else USD Coin and 2, and [asset] as verifying
    contract; the message goes from the wallet's address to [payTo] and
    carries the converted amount. *)
Theorem signed_content
    (t : HaloPaymentTools) (wal : Wallet) (w : World)
    (props : list (string * value)) (d : TypedDomain) (m : Authorization) :
  wallet t = Some wal ->
  In (SignTypedDataCall d m) (steps (signPayment t w (VObj props))) ->
  d = domain_of props
  /\ domain_chainId d = 8453
  /\ auth_from m = address wal
  /\ auth_to m = from_option (lookup "payTo" props)
  /\ Conv.BigInt (amount_source props) = Ok (auth_value m)
  /\ count is_sign_call (steps (signPayment t w (VObj props))) = 1%nat.
Proof.
  intros Hw. rewrite (signPayment_object t w props Hw).
  destruct (Conv.BigInt (amount_source props)) as [amount | e].
  - cbv zeta. cbn [steps fst]. intros [Hin | [Hin | []]]; [discriminate |].
    injection Hin as <- <-. repeat split; reflexivity.
  - intros [Hin | []]. discriminate.
Qed.

(** X5.  With a wallet, [signPayment] succeeds on a requirement object
    exactly when the amount converts and the wallet returns a signature:
    with these two it always returns, and the envelope is the base64 form
    of the JSON text of the payload. *)
Theorem signPayment_succeeds_iff
    (t : HaloPaymentTools) (wal : Wallet) (w : World)
    (props : list (string * value)) :
  wallet t = Some wal ->
  (forall env,
     settled (signPayment t w (VObj props)) = Ok env
     <-> exists amount signature text,
           Conv.BigInt (amount_source props) = Ok amount
           /\ signTypedData wal (domain_of props)
                (authorization wal w amount
                   (from_option (lookup "payTo" props)))
              = Some signature
           /\ Conv.stringify
                (payloadObj (VObj props) signature
                   (authorization wal w amount
                      (from_option (lookup "payTo" props))))
              = Some text
           /\ env = Conv.base64 text)
  /\ (forall amount signature,
        Conv.BigInt (amount_source props) = Ok amount ->
        signTypedData wal (domain_of props)
          (authorization wal w amount (from_option (lookup "payTo" props)))
        = Some signature ->
        exists env, settled (signPayment t w (VObj props)) = Ok env).
Proof.
  intros Hw. rewrite (signPayment_object t w props Hw). split.
  - intros env. split.
    + destruct (Conv.BigInt (amount_source props)) as [amount | e];
        [| discriminate].
      cbv zeta. cbn [settled snd].
      destruct (signTypedData wal (domain_of props) _) as [signature |] eqn:Es;
        [| discriminate].
      destruct (envelope_object (VObj props) signature
                  (authorization wal w amount
                     (from_option (lookup "payTo" props))))
        as (text & Ht & He).
      rewrite He. intros [= <-]. exists amount, signature, text. auto.
    + intros (amount & signature & text & Ha & Hs & Ht & ->).
      rewrite Ha. cbv zeta. cbn [settled snd]. rewrite Hs.
      unfold envelope. rewrite Ht. reflexivity.
  - intros amount signature Ha Hs.
    rewrite Ha. cbv zeta. cbn [settled snd]. rewrite Hs.
    destruct (envelope_object (VObj props) signature
                (authorization wal w amount
                   (from_option (lookup "payTo" props))))
      as (text & Ht & He).
    rewrite He. eauto.
Qed.

End Signing.

Lemma signed_content_witness :
  domain_of [("amount", VStr "1000000"); ("asset", VStr "0xUSDC");
             ("payTo", VStr "0xDest")]
  = {| domain_name := VStr "USD Coin"; domain_version := VStr "2";
       domain_chainId := 8453; verifyingContract := VStr "0xUSDC" |}
  /\ Conv.BigInt (H := Sample.host) (VStr "1000000") = Ok 1000000.
Proof.
  destruct (signed_content (H := Sample.host) Scenario.keyed_tools
              (wal := Scenario.the_wallet) Scenario.calm
              [("amount", VStr "1000000"); ("asset", VStr "0xUSDC");
               ("payTo", VStr "0xDest")]
              (domain_of [("amount", VStr "1000000");
                          ("asset", VStr "0xUSDC");
                          ("payTo", VStr "0xDest")])
              (authorization Scenario.the_wallet Scenario.calm 1000000
                 (VStr "0xDest"))
              eq_refl (or_intror (or_introl eq_refl)))
    as (_ & _ & _ & _ & Hv & _).
  split; [reflexivity | exact Hv].
Defined.

Lemma signPayment_succeeds_iff_witness :
  exists amount signature text,
    Conv.BigInt (H := Sample.host) (VStr "1000000") = Ok amount
    /\ signTypedData (Host := Sample.host) Scenario.the_wallet
         (domain_of [("amount", VStr "1000000"); ("asset", VStr "0xUSDC");
                     ("payTo", VStr "0xDest")])
         (authorization Scenario.the_wallet Scenario.calm amount (VStr "0xDest"))
       = Some signature
    /\ Conv.stringify (H := Sample.host)
         (payloadObj (H := Sample.host) Scenario.terms signature
            (authorization Scenario.the_wallet Scenario.calm amount
               (VStr "0xDest")))
       = Some text.
Proof.
  destruct (proj1 (proj1 (signPayment_succeeds_iff (H := Sample.host)
                            Scenario.keyed_tools (wal := Scenario.the_wallet)
                            Scenario.calm
                            [("amount", VStr "1000000");
                             ("asset", VStr "0xUSDC");
                             ("payTo", VStr "0xDest")] eq_refl) _) eq_refl)
    as (amount & signature & text & Ha & Hs & Ht & _).
  exists amount, signature, text. auto.
Defined.

(** ** The shape of the nonce *)

Section NonceShape.

Context `{Host}.

Lemma hex_digit_lower (n : nat) :
  (n < 16)%nat -> is_hex_lower (Conv.hex_digit n) = true.
Proof. intros Hn. do 16 (destruct n as [| n]; [reflexivity |]). lia. Qed.

Lemma hex_bytes_lower (bytes : list Byte.byte) :
  all_hex_lower (fold_right Conv.hex_byte EmptyString bytes) = true
  /\ String.length (fold_right Conv.hex_byte EmptyString bytes)
     = (2 * List.length bytes)%nat.
Proof.
  induction bytes as [| b bytes [IHl IHn]]; [split; reflexivity |].
  cbn [fold_right]. unfold Conv.hex_byte at 1 3.
  pose proof (byte_bounded b) as Hb.
  set (n := N.to_nat (Byte.to_N b)) in *.
  assert (Hnh : (n / 16 < 16)%nat) by (apply Nat.Div0.div_lt_upper_bound; lia).
  assert (Hnl : (n mod 16 < 16)%nat) by (apply Nat.mod_upper_bound; lia).
  cbn [all_hex_lower String.length List.length].
  rewrite (hex_digit_lower Hnh), (hex_digit_lower Hnl), IHl, IHn.
  split; [reflexivity | lia].
Qed.

(** X6.  The nonce handed to the wallet is 0x followed by two lower-case
    hexadecimal digits per random byte: for a draw of 32 bytes, a text of
    66 characters, as the [bytes32] field of the message needs. *)
Theorem nonce_shape
    (t : HaloPaymentTools) (wal : Wallet) (w : World) (requirement : value)
    (d : TypedDomain) (m : Authorization) :
  wallet t = Some wal ->
  List.length (random_bytes w) = 32%nat ->
  In (SignTypedDataCall d m) (steps (signPayment t w requirement)) ->
  exists digits,
    nonce m = ("0x" ++ digits)%string
    /\ all_hex_lower digits = true
    /\ String.length digits = 64%nat
    /\ String.length (nonce m) = 66%nat.
Proof.
  intros Hw Hlen Hin.
  rewrite (@signed_message _ t wal w requirement d m Hw Hin).
  destruct (hex_bytes_lower (random_bytes w)) as [Hl Hn].
  exists (fold_right Conv.hex_byte EmptyString (random_bytes w)).
  rewrite hexlify_length, Hn, Hlen. repeat split; try reflexivity. exact Hl.
Qed.

End NonceShape.

Lemma nonce_shape_witness :
  exists digits,
    Conv.hexlify (Scenario.draw Byte.x11) = ("0x" ++ digits)%string
    /\ all_hex_lower digits = true
    /\ String.length digits = 64%nat
    /\ String.length (Conv.hexlify (Scenario.draw Byte.x11)) = 66%nat.
Proof.
  exact (nonce_shape (H := Sample.host) Scenario.keyed_tools
           (wal := Scenario.the_wallet) Scenario.calm Scenario.terms
           (domain_of [("amount", VStr "1000000"); ("asset", VStr "0xUSDC");
                       ("payTo", VStr "0xDest")])
           (authorization Scenario.the_wallet Scenario.calm 1000000
              (VStr "0xDest"))
           eq_refl eq_refl (or_intror (or_introl eq_refl))).
Defined.

(** ** The retry *)

Section Retry.

Context `{Host}.

Lemma retry_run (w : World) (signature : string) (args : list value)
    (apiKey haloUrl : string) :
  steps (retry w signature args (apiKey, haloUrl))
  = [Console LogRetry;
     RetryRequest (endpoint haloUrl apiKey) signature (retry_body args)]
  /\ settled (retry w signature args (apiKey, haloUrl))
     = match retry_response w with
       | Rejected reason => Throw (Thrown reason)
       | Responded false body => Throw (Error ("Retry failed: " ++ body)%string)
       | Responded true body =>
           match JSON_parse body with
           | Some json => Ok (spread [("response", TextAccessor json)] json)
           | None => Throw SyntaxError
           end
       end.
Proof.
  unfold retry, retry_body. rewrite !steps_ebind, !settled_ebind.
  cbn [emit steps settled fst snd].
  destruct (retry_response w) as [reason | [|] body]; cbn [negb].
  - destruct (nth 0 args VUndef); split; reflexivity.
  - rewrite steps_ebind, settled_ebind. unfold response_json.
    destruct (JSON_parse body); destruct (nth 0 args VUndef); split; reflexivity.
  - destruct (nth 0 args VUndef); split; reflexivity.
Qed.

End Retry.

(** ** The steps of a recovery *)

Section Steps.

Context `{Host}.

Lemma count_app (kind : event -> bool) (t1 t2 : trace) :
  count kind (t1 ++ t2) = (count kind t1 + count kind t2)%nat.
Proof. unfold count. now rewrite filter_app, length_app. Qed.

Lemma count_console (kind : event -> bool) (t : trace) :
  (forall line, kind (Console line) = false) ->
  forallb is_console t = true -> count kind t = 0%nat.
Proof.
  intros Hk. induction t as [| ev t IH]; [reflexivity |].
  cbn [forallb]. intros Hall. apply andb_prop in Hall as [Hc Ht].
  destruct ev; try discriminate. unfold count in *. cbn [filter].
  rewrite Hk. exact (IH Ht).
Qed.

Lemma count_ebind (kind : event -> bool) {A B} (m : Eff A) (k : A -> Eff B)
    (n1 n2 : nat) :
  (count kind (steps m) <= n1)%nat ->
  (forall a, count kind (steps (k a)) <= n2)%nat ->
  (count kind (steps (ebind m k)) <= n1 + n2)%nat.
Proof.
  intros Hm Hk. rewrite steps_ebind.
  destruct (settled m) as [a | e]; [| lia].
  rewrite count_app. specialize (Hk a). lia.
Qed.

Lemma approve_steps (h : HaloAutoHandler) (w : World)
    (resource amountStr : value) :
  steps (approve h w resource amountStr) =
  if autoApprove h then [Console LogAutoPay]
  else match get resource "description" with
       | Ok description => asking (tools h) description amountStr
       | Throw _ => []
       end.
Proof.
  unfold approve. destruct (autoApprove h); [reflexivity |].
  destruct (get resource "description") as [description | e]; [| reflexivity].
  rewrite (ebind_lift_ok _ eq_refl), steps_ebind, consultJudge_steps.
  destruct (settled (consultJudge _ _ _ _)) as [decision | e]; [| reflexivity].
  rewrite steps_ebind. cbn [lift steps settled fst snd].
  destruct (call_includes decision "YES") as [[|] | e];
    cbn [ret throw steps fst app]; rewrite ?app_nil_r; reflexivity.
Qed.

Lemma signPayment_steps (t : HaloPaymentTools) (w : World)
    (requirement : value) :
  steps (signPayment t w requirement) = [SignPaymentCall requirement]
  \/ exists d m,
       steps (signPayment t w requirement)
       = [SignPaymentCall requirement; SignTypedDataCall d m].
Proof.
  destruct (wallet t) as [wal |] eqn:Hw.
  - rewrite (signPayment_run t w requirement Hw).
    destruct (amount_of requirement); [| left; reflexivity].
    destruct (typed_domain requirement); [| left; reflexivity].
    destruct (get requirement "payTo"); [| left; reflexivity].
    right. cbv zeta. cbn [steps fst]. eauto.
  - left. unfold signPayment. rewrite Hw. reflexivity.
Qed.

Lemma counts_approve (h : HaloAutoHandler) (w : World)
    (resource amountStr : value) :
  (count is_judge_request (steps (approve h w resource amountStr)) <= 1)%nat
  /\ count is_sign_call (steps (approve h w resource amountStr)) = 0%nat
  /\ count is_retry_request (steps (approve h w resource amountStr)) = 0%nat.
Proof.
  rewrite approve_steps. destruct (autoApprove h); [cbn; lia |].
  destruct (get resource "description") as [description | e]; [| cbn; lia].
  unfold asking.
  destruct (Conv.toString description); [| cbn; lia].
  destruct (Conv.toString amountStr); cbn; lia.
Qed.

Lemma counts_signPayment (t : HaloPaymentTools) (w : World)
    (requirement : value) :
  count is_judge_request (steps (signPayment t w requirement)) = 0%nat
  /\ (count is_sign_call (steps (signPayment t w requirement)) <= 1)%nat
  /\ count is_retry_request (steps (signPayment t w requirement)) = 0%nat.
Proof.
  destruct (signPayment_steps t w requirement) as [-> | (d & m & ->)];
    cbn; lia.
Qed.

Lemma counts_retry (w : World) (signature : string) (args : list value)
    (api : string * string) :
  count is_judge_request (steps (retry w signature args api)) = 0%nat
  /\ count is_sign_call (steps (retry w signature args api)) = 0%nat
  /\ count is_retry_request (steps (retry w signature args api)) = 1%nat.
Proof.
  destruct api as [k u]. rewrite (proj1 (retry_run w signature args k u)).
  cbn. lia.
Qed.

Lemma counts_extract (error : value) (kind : event -> bool) :
  (forall line, kind (Console line) = false) ->
  count kind (steps (extract error)) = 0%nat.
Proof.
  intros Hk. apply count_console; [exact Hk | apply extract_steps_console].
Qed.

(** The bound of one kind of step over the whole of [autoRecover], from
    the bounds of its parts. *)
Lemma count_autoRecover (kind : event -> bool) (h : HaloAutoHandler)
    (w : World) (error : value) (args : list value) (a s r : nat) :
  (forall line, kind (Console line) = false) ->
  (forall resource amountStr,
     count kind (steps (approve h w resource amountStr)) <= a)%nat ->
  (forall requirement,
     count kind (steps (signPayment (tools h) w requirement)) <= s)%nat ->
  (forall signature,
     count kind (steps (retry w signature args (getApiDetails (tools h)))) <= r)%nat ->
  (count kind (steps (autoRecover h w error args)) <= a + s + r)%nat.
Proof.
  intros Hk Ha Hs Hr. unfold autoRecover.
  replace (a + s + r)%nat with (0 + (0 + (0 + (0 + (a + (s + r))))))%nat by lia.
  apply count_ebind; [rewrite (counts_extract error kind Hk); lia |].
  intros reqData. apply count_ebind; [cbn; lia |].
  intros requirement. apply count_ebind; [cbn; lia |].
  intros resource. apply count_ebind; [cbn; lia |].
  intros amountStr. apply count_ebind; [apply Ha |].
  intros _. apply count_ebind; [apply Hs |].
  intros signature. apply Hr.
Qed.

(** X8.  No step of a recovery is made twice: whatever the handler, the
    failure and the world, one run of [autoRecover] sends at most one
    request to the judge, asks the wallet for at most one signature and
    sends at most one retry request. *)
Theorem recovery_steps_at_most_once
    (h : HaloAutoHandler) (w : World) (error : value) (args : list value) :
  (count is_judge_request (steps (autoRecover h w error args)) <= 1)%nat
  /\ (count is_sign_call (steps (autoRecover h w error args)) <= 1)%nat
  /\ (count is_retry_request (steps (autoRecover h w error args)) <= 1)%nat.
Proof.
  split; [| split].
  - apply (count_autoRecover is_judge_request h w error args (a := 1) (s := 0) (r := 0)).
    + reflexivity.
    + intros. apply counts_approve.
    + intros. rewrite (proj1 (counts_signPayment _ _ _)). lia.
    + intros. rewrite (proj1 (counts_retry _ _ _ _)). lia.
  - apply (count_autoRecover is_sign_call h w error args (a := 0) (s := 1) (r := 0)).
    + reflexivity.
    + intros. rewrite (proj1 (proj2 (counts_approve _ _ _ _))). lia.
    + intros. apply counts_signPayment.
    + intros. rewrite (proj1 (proj2 (counts_retry _ _ _ _))). lia.
  - apply (count_autoRecover is_retry_request h w error args (a := 0) (s := 0) (r := 1)).
    + reflexivity.
    + intros. rewrite (proj2 (proj2 (counts_approve _ _ _ _))). lia.
    + intros. rewrite (proj2 (proj2 (counts_signPayment _ _ _))). lia.
    + intros. rewrite (proj2 (proj2 (counts_retry _ _ _ _))). lia.
Qed.

End Steps.

(** ** What the retry carries, and when a recovery returns *)

Section RecoveryOutcome.

Context `{Host}.

Lemma count_zero_absent (kind : event -> bool) (t : trace) (ev : event) :
  count kind t = 0%nat -> In ev t -> kind ev = false.
Proof.
  unfold count. induction t as [| x t IH]; [intros _ [] |].
  cbn [filter]. destruct (kind x) eqn:Ex; [discriminate |].
  intros Hc [<- | Hin]; [exact Ex | exact (IH Hc Hin)].
Qed.

(** X9.  A retry request is only ever sent with the envelope that
    [signPayment] returned in the same run, for the requirement read off
    the extracted terms; its body is the first argument of the original
    call, and it goes to the endpoint of the handler's tools. *)
Theorem retry_carries_signed_envelope
    (h : HaloAutoHandler) (w : World) (error : value) (args : list value)
    (url signature : string) (body : value) :
  In (RetryRequest url signature body) (steps (autoRecover h w error args)) ->
  exists reqData requirement,
    settled (extract error) = Ok reqData
    /\ requirement_of reqData = Ok requirement
    /\ settled (signPayment (tools h) w requirement) = Ok signature
    /\ body = retry_body args
    /\ url = endpoint (tools_haloUrl (tools h)) (tools_apiKey (tools h)).
Proof.
  intros Hin. unfold autoRecover in Hin. rewrite steps_ebind in Hin.
  assert (Hex : ~ In (RetryRequest url signature body) (steps (extract error))).
  { intros Hx.
    pose proof (count_zero_absent is_retry_request _ _
                  (counts_extract error is_retry_request (fun _ => eq_refl)) Hx).
    discriminate. }
  destruct (settled (extract error)) as [reqData | e] eqn:He;
    [| contradiction].
  apply in_app_or in Hin as [Hin | Hin]; [contradiction |].
  rewrite steps_ebind in Hin. cbn [lift steps settled fst snd app] in Hin.
  destruct (requirement_of reqData) as [requirement | e] eqn:Hr;
    [| destruct Hin].
  rewrite steps_ebind in Hin. cbn [lift steps settled fst snd app] in Hin.
  destruct (resource_of reqData) as [resource | e]; [| destruct Hin].
  rewrite steps_ebind in Hin. cbn [lift steps settled fst snd app] in Hin.
  destruct (get_or requirement "amount" "maxAmountRequired")
    as [amountStr | e]; [| destruct Hin].
  rewrite steps_ebind in Hin.
  assert (Hap : ~ In (RetryRequest url signature body)
                  (steps (approve h w resource amountStr))).
  { intros Hx.
    pose proof (count_zero_absent is_retry_request _ _
                  (proj2 (proj2 (counts_approve h w resource amountStr))) Hx).
    discriminate. }
  destruct (settled (approve h w resource amountStr)); [| contradiction].
  apply in_app_or in Hin as [Hin | Hin]; [contradiction |].
  rewrite steps_ebind in Hin.
  assert (Hsg : ~ In (RetryRequest url signature body)
                  (steps (signPayment (tools h) w requirement))).
  { intros Hx.
    pose proof (count_zero_absent is_retry_request _ _
                  (proj2 (proj2 (counts_signPayment (tools h) w requirement))) Hx).
    discriminate. }
  destruct (settled (signPayment (tools h) w requirement)) as [env | e] eqn:Hs;
    [| contradiction].
  apply in_app_or in Hin as [Hin | Hin]; [contradiction |].
  unfold getApiDetails in Hin.
  rewrite (proj1 (retry_run w env args _ _)) in Hin.
  destruct Hin as [Hin | [Hin | []]]; [discriminate |].
  injection Hin as <- <- <-.
  exists reqData, requirement. auto.
Qed.

(** X10.  Terms whose requirement comes out null or undefined -- an
    [accepts] that is truthy but has no first entry, such as the empty
    array -- are extracted, and the run then ends with a TypeError when
    the amount is read, before any approval, signing or retry. *)
Theorem nullish_requirement_crashes
    (h : HaloAutoHandler) (w : World) (error : value) (args : list value)
    (t : trace) (reqData requirement : value) :
  extract error = (t, Ok reqData) ->
  requirement_of reqData = Ok requirement ->
  nullish requirement = true ->
  autoRecover h w error args = (t, Throw TypeError).
Proof.
  intros He Hr Hn. unfold autoRecover. rewrite He, ebind_ok.
  rewrite (ebind_lift_ok _ Hr).
  destruct (resource_of_ok _ Hr) as (resource & Hres & _).
  rewrite (ebind_lift_ok _ Hres).
  assert (Hg : get_or requirement "amount" "maxAmountRequired" = Throw TypeError)
    by (destruct requirement; try discriminate; reflexivity).
  rewrite (ebind_lift_throw _ Hg). cbn [steps settled fst snd].
  now rewrite app_nil_r.
Qed.

(** X11.  A handler that approves on its own returns from a recovery
    exactly when the terms are extracted, name a requirement, the signing
    of that requirement succeeds, and the retry is answered ok with a body
    that parses; what it returns is then the reshaped answer. *)
Theorem auto_recovery_succeeds_iff
    (h : HaloAutoHandler) (w : World) (error : value) (args : list value)
    (r : result_object) :
  autoApprove h = true ->
  settled (autoRecover h w error args) = Ok r
  <-> exists reqData requirement env body json,
        settled (extract error) = Ok reqData
        /\ requirement_of reqData = Ok requirement
        /\ settled (signPayment (tools h) w requirement) = Ok env
        /\ retry_response w = Responded true body
        /\ JSON_parse body = Some json
        /\ r = spread [("response", TextAccessor json)] json.
Proof.
  intros Ha. split.
  - unfold autoRecover. rewrite settled_ebind.
    destruct (settled (extract error)) as [reqData | e] eqn:He;
      [| discriminate].
    rewrite settled_ebind. cbn [lift settled snd].
    destruct (requirement_of reqData) as [requirement | e] eqn:Hr;
      [| discriminate].
    rewrite settled_ebind. cbn [lift settled snd].
    destruct (resource_of reqData) as [resource | e]; [| discriminate].
    rewrite settled_ebind. cbn [lift settled snd].
    destruct (get_or requirement "amount" "maxAmountRequired")
      as [amountStr | e]; [| discriminate].
    rewrite settled_ebind. unfold approve at 1. rewrite Ha.
    cbn [emit settled snd]. rewrite settled_ebind.
    destruct (settled (signPayment (tools h) w requirement)) as [env | e] eqn:Hs;
      [| discriminate].
    unfold getApiDetails. rewrite (proj2 (retry_run w env args _ _)).
    destruct (retry_response w) as [reason | [|] body] eqn:Hw;
      try discriminate.
    destruct (JSON_parse body) as [json |] eqn:Hp; [| discriminate].
    intros [= <-]. exists reqData, requirement, env, body, json.
    repeat split; auto.
  - intros (reqData & requirement & env & body & json
            & He & Hr & Hs & Hw & Hp & ->).
    assert (Hg : exists amountStr,
               get_or requirement "amount" "maxAmountRequired" = Ok amountStr).
    { destruct (wallet (tools h)) as [wal |] eqn:Hwal.
      - destruct (signPayment_success (tools h) w requirement Hwal Hs)
          as (amount & _ & _ & _ & Hamount & _).
        unfold amount_of in Hamount.
        destruct (get_or requirement "amount" "maxAmountRequired");
          [eauto | discriminate].
      - unfold signPayment in Hs. rewrite Hwal in Hs. discriminate. }
    destruct Hg as [amountStr Hg].
    destruct (resource_of_ok _ Hr) as (resource & Hres & _).
    unfold autoRecover. rewrite settled_ebind, He.
    rewrite settled_ebind. cbn [lift settled snd]. rewrite Hr.
    rewrite settled_ebind. cbn [lift settled snd]. rewrite Hres.
    rewrite settled_ebind. cbn [lift settled snd]. rewrite Hg.
    rewrite settled_ebind. unfold approve at 1. rewrite Ha.
    cbn [emit settled snd]. rewrite settled_ebind, Hs.
    unfold getApiDetails.
    rewrite (proj2 (retry_run w env args _ _)), Hw, Hp. reflexivity.
Qed.

End RecoveryOutcome.

Lemma retry_carries_signed_envelope_witness :
  exists reqData requirement,
    settled (extract (H := Sample.host) Scenario.failure_402) = Ok reqData
    /\ requirement_of reqData = Ok requirement
    /\ settled (signPayment (H := Sample.host) Scenario.keyed_tools
                  Scenario.calm requirement) = Ok Scenario.calm_envelope
    /\ retry_body [VStr "hi"] = retry_body [VStr "hi"]
    /\ Scenario.url = endpoint "https://halo.test" "sk-1".
Proof.
  apply (retry_carries_signed_envelope (H := Sample.host) Scenario.keyed
           Scenario.calm Scenario.failure_402 [VStr "hi"]
           Scenario.url Scenario.calm_envelope (retry_body [VStr "hi"])).
  vm_compute. do 4 right. left. reflexivity.
Defined.

Lemma nullish_requirement_crashes_witness :
  autoRecover (H := Sample.host) Scenario.keyed Scenario.calm
    Scenario.failure_empty_accepts [VStr "hi"]
  = ([], Throw TypeError).
Proof.
  exact (nullish_requirement_crashes (H := Sample.host) Scenario.keyed
           Scenario.calm Scenario.failure_empty_accepts [VStr "hi"]
           (t := []) (reqData := VObj [("accepts", VArr [])])
           (requirement := VUndef) eq_refl eq_refl eq_refl).
Defined.

Lemma auto_recovery_succeeds_iff_witness :
  exists reqData requirement env body json,
    settled (extract (H := Sample.host) Scenario.failure_402) = Ok reqData
    /\ requirement_of reqData = Ok requirement
    /\ settled (signPayment (H := Sample.host) Scenario.keyed_tools
                  Scenario.calm requirement) = Ok env
    /\ retry_response Scenario.calm = Responded true body
    /\ JSON_parse (Host := Sample.host) body = Some json
    /\ lookup "response" (spread [("response", TextAccessor json)] json)
       = Some (TextAccessor json).
Proof.
  destruct (proj1 (auto_recovery_succeeds_iff (H := Sample.host) Scenario.keyed
                     Scenario.calm Scenario.failure_402 [VStr "hi"] _ eq_refl)
              eq_refl)
    as (reqData & requirement & env & body & json
        & He & Hr & Hs & Hw & Hp & Hres).
  exists reqData, requirement, env, body, json.
  repeat split; try assumption.
  injection Hw as <-. vm_compute in Hp. injection Hp as <-. reflexivity.
Defined.

(** ** The pattern of the message strategy *)

Section PatternShape.

Local Open Scope string_scope.

Lemma is_char_eq (c : ascii) (n : nat) :
  Str.is_char c n = true -> c = ascii_of_nat n.
Proof.
  unfold Str.is_char. intros Heq. apply Nat.eqb_eq in Heq.
  now rewrite <- Heq, ascii_nat_embedding.
Qed.

Lemma not_at_line_terminator (c : ascii) (rest : string) :
  Pattern.at_line_terminator (String c rest) = false ->
  Str.is_char c 10 || Str.is_char c 13 = false.
Proof.
  cbn [Pattern.at_line_terminator].
  destruct (Str.is_char c 10 || Str.is_char c 13); [discriminate | reflexivity].
Qed.

Lemma body_shape (s m : string) :
  Pattern.body s = Some m ->
  exists inner post,
    m = inner ++ "}"
    /\ s = m ++ "]" ++ post
    /\ has_line_break inner = false.
Proof.
  revert m. induction s as [| c rest IH]; intros m; [discriminate |].
  cbn [Pattern.body].
  destruct (Pattern.at_line_terminator (String c rest)) eqn:Et.
  - destruct (Str.is_char c 125) eqn:Ec; [| discriminate].
    destruct rest as [| d post]; [discriminate |].
    destruct (Str.is_char d 93) eqn:Ed; [| discriminate].
    intros [= <-]. apply is_char_eq in Ec, Ed. subst c d.
    exists EmptyString, post. repeat split.
  - destruct (Pattern.body rest) as [m' |] eqn:Eb.
    + intros [= <-]. destruct (IH m' eq_refl) as (inner & post & -> & Hs & Hb).
      exists (String c inner), post. repeat split.
      * rewrite Hs at 1. reflexivity.
      * cbn [has_line_break]. rewrite Hb.
        pose proof (not_at_line_terminator c rest Et) as Hc.
        rewrite <- orb_assoc, orb_false_r. exact Hc.
    + destruct (Str.is_char c 125) eqn:Ec; [| discriminate].
      destruct rest as [| d post]; [discriminate |].
      destruct (Str.is_char d 93) eqn:Ed; [| discriminate].
      intros [= <-]. apply is_char_eq in Ec, Ed. subst c d.
      exists EmptyString, post. repeat split.
Qed.

(** X12.  What the message strategy hands to [JSON.parse] is a piece of
    the message that stands between an opening and a closing bracket,
    starts with an opening brace, ends with a closing brace, and has no
    line feed or carriage return inside. *)
Theorem group1_shape (s group : string) :
  Pattern.group1 s = Some group ->
  exists before inner after,
    s = before ++ "[" ++ group ++ "]" ++ after
    /\ group = "{" ++ inner ++ "}"
    /\ has_line_break inner = false.
Proof.
  revert group. induction s as [| c rest IH]; intros group; [discriminate |].
  cbn [Pattern.group1].
  assert (Hskip : Pattern.group1 rest = Some group ->
                  exists before inner after,
                    String c rest = before ++ "[" ++ group ++ "]" ++ after
                    /\ group = "{" ++ inner ++ "}"
                    /\ has_line_break inner = false).
  { intros Hg. destruct (IH group Hg) as (before & inner & after & -> & Hi & Hb).
    exists (String c before), inner, after. repeat split; assumption. }
  destruct (Str.is_char c 91) eqn:Ec; [| exact Hskip].
  destruct rest as [| d inner0]; [exact Hskip |].
  destruct (Str.is_char d 123) eqn:Ed; [| exact Hskip].
  destruct (Pattern.body inner0) as [m |] eqn:Eb; cbn [option_map];
    [| exact Hskip].
  intros [= <-]. apply is_char_eq in Ec, Ed. subst c d.
  destruct (body_shape _ Eb) as (inner & post & -> & Hs & Hb).
  exists EmptyString, inner, post. repeat split; [| assumption].
  rewrite Hs at 1. cbn [String.append]. reflexivity.
Qed.

End PatternShape.

Lemma group1_shape_witness :
  exists before inner after,
    ("[402] [{a}] tail" = before ++ "[" ++ "{a}" ++ "]" ++ after)%string
    /\ ("{a}" = "{" ++ inner ++ "}")%string
    /\ has_line_break inner = false.
Proof.
  exact (group1_shape "[402] [{a}] tail" (group := "{a}") eq_refl).
Defined.

(** ** The request to the judge *)

Section JudgeRequestOnce.

Context `{Host}.

(** X13.  [consultJudge] reads the body of the answer without looking
    at its status: two answers with the same body give the same run,
    whether they are ok or not.  It sends one request when both of its
    arguments can be written into the prompt, and none when one cannot:
    the conversion throws before anything is sent. *)
Theorem consultJudge_ignores_status
    (t : HaloPaymentTools) (w1 w2 : World) (context amountStr : value)
    (ok1 ok2 : bool) (body : string) :
  judge_response w1 = Responded ok1 body ->
  judge_response w2 = Responded ok2 body ->
  consultJudge t w1 context amountStr = consultJudge t w2 context amountStr
  /\ count is_judge_request (steps (consultJudge t w1 context amountStr))
     = (if printable context && printable amountStr then 1 else 0)%nat
  /\ (printable context && printable amountStr = false ->
      consultJudge t w1 context amountStr = ([], Throw TypeError)).
Proof.
  intros H1 H2. split; [| split].
  - rewrite (eff_eta (consultJudge t w1 context amountStr)).
    rewrite (eff_eta (consultJudge t w2 context amountStr)).
    rewrite !consultJudge_steps, !consultJudge_settled, H1, H2. reflexivity.
  - rewrite consultJudge_steps. unfold asking, printable.
    destruct (Conv.toString context); [| reflexivity].
    destruct (Conv.toString amountStr); reflexivity.
  - intros Hp. rewrite (eff_eta (consultJudge t w1 context amountStr)).
    rewrite consultJudge_steps, consultJudge_settled, Hp.
    unfold asking, printable in *.
    destruct (Conv.toString context); [| reflexivity].
    destruct (Conv.toString amountStr); [discriminate | reflexivity].
Qed.

End JudgeRequestOnce.

(** The same body with an ok and with a failed status: the same run.  A
    description with a [toString] of its own that is no function: no
    request. *)
Lemma consultJudge_ignores_status_witness :
  consultJudge (H := Sample.host) Scenario.keyless_tools
    (Scenario.world "YES" (Scenario.draw Byte.x11)) VUndef (VStr "1")
  = consultJudge (H := Sample.host) Scenario.keyless_tools
      {| judge_response := Responded false (Scenario.candidates_body "YES");
         now_first := 0; now_second := 0; random_bytes := [];
         retry_response := Rejected VNull |} VUndef (VStr "1")
  /\ consultJudge (H := Sample.host) Scenario.keyless_tools
       (Scenario.world "YES" (Scenario.draw Byte.x11))
       (VObj [("toString", VNum 1)]) (VStr "1")
     = ([], Throw TypeError).
Proof.
  split.
  - exact (proj1 (consultJudge_ignores_status (H := Sample.host)
                    Scenario.keyless_tools
                    (Scenario.world "YES" (Scenario.draw Byte.x11))
                    {| judge_response :=
                         Responded false (Scenario.candidates_body "YES");
                       now_first := 0; now_second := 0; random_bytes := [];
                       retry_response := Rejected VNull |}
                    VUndef (VStr "1") (ok1 := true) (ok2 := false)
                    (body := Scenario.candidates_body "YES") eq_refl eq_refl)).
  - exact (proj2 (proj2 (consultJudge_ignores_status (H := Sample.host)
                           Scenario.keyless_tools
                           (Scenario.world "YES" (Scenario.draw Byte.x11))
                           (Scenario.world "YES" (Scenario.draw Byte.x11))
                           (VObj [("toString", VNum 1)]) (VStr "1")
                           (ok1 := true) (ok2 := true)
                           (body := Scenario.candidates_body "YES")
                           eq_refl eq_refl)) eq_refl).
Defined.

(** ** The endpoint of the tools *)

Section Endpoint.

Context `{Host}.

Local Open Scope string_scope.

Lemma strip_appended_slash (u : string) : Str.stripTrailingSlash (u ++ "/") = u.
Proof.
  induction u as [| c u IH]; [reflexivity |].
  cbn [String.append Str.stripTrailingSlash].
  destruct (u ++ "/") as [| d rest] eqn:E.
  - destruct u; discriminate.
  - now rewrite IH.
Qed.

Lemma strip_without_slash (u : string) :
  ends_with_slash u = false -> Str.stripTrailingSlash u = u.
Proof.
  induction u as [| c u IH]; [reflexivity |].
  cbn [ends_with_slash Str.stripTrailingSlash].
  destruct u as [| d rest].
  - intros ->. reflexivity.
  - intros Hu. now rewrite (IH Hu).
Qed.

(** X14.  The base URL of the tools is the first non-empty one among the
    option, the environment variable and the default, with one trailing
    slash taken off: a URL given with a slash and the same URL given
    without it lead to the same endpoint. *)
Theorem tools_url_normalised
    (env : Env) (config : HaloConfig) (t : HaloPaymentTools) (u : string) :
  new_HaloPaymentTools env config = Ok t ->
  Str.is_empty u = false ->
  ends_with_slash u = false ->
  (or_string (haloUrl config) (HALO_PROXY_URL env) = Some u
   \/ or_string (haloUrl config) (HALO_PROXY_URL env) = Some (u ++ "/")
   \/ (is_set (or_string (haloUrl config) (HALO_PROXY_URL env)) = false
       /\ u = DEFAULT_HALO_URL)) ->
  tools_haloUrl t = u.
Proof.
  intros Ht Hne Hslash Hu. unfold new_HaloPaymentTools in Ht.
  destruct (match privateKey config with
            | Some pk => _
            | None => _
            end) as [w0 | e]; cbn [bind] in Ht; [| discriminate].
  injection Ht as <-. cbn [tools_haloUrl]. unfold string_or.
  destruct Hu as [-> | [-> | [Hunset ->]]].
  - cbn [or_string]. rewrite Hne. apply strip_without_slash, Hslash.
  - cbn [or_string].
    replace (Str.is_empty (u ++ "/")) with false by (destruct u; reflexivity).
    apply strip_appended_slash.
  - destruct (or_string (haloUrl config) (HALO_PROXY_URL env)) as [x |].
    + cbn [is_set] in Hunset. cbn [or_string].
      destruct (Str.is_empty x); [reflexivity | discriminate].
    + reflexivity.
Qed.

End Endpoint.

Lemma tools_url_normalised_witness :
  tools_haloUrl Scenario.keyed_tools = "https://halo.test".
Proof.
  exact (@tools_url_normalised Sample.host Scenario.no_env
           Scenario.keyed_config Scenario.keyed_tools
           "https://halo.test" eq_refl eq_refl eq_refl
           (or_intror (or_introl eq_refl))).
Defined.

(** ** The amount as text and back *)

Section AmountText.

Context `{Host}.

Lemma all_digits_of_uint (u : Decimal.uint) :
  all_digits (NilEmpty.string_of_uint u) = true.
Proof. induction u; cbn; auto. Qed.

Lemma digits_of_positive (p : positive) :
  Conv.digits_from 10 (NilEmpty.string_of_uint (Pos.to_uint p)) 0
  = Some (Z.pos p)
  /\ Str.is_empty (NilEmpty.string_of_uint (Pos.to_uint p)) = false
  /\ NilZero.string_of_uint (Pos.to_uint p)
     = NilEmpty.string_of_uint (Pos.to_uint p).
Proof.
  pose proof (DecimalPos.Unsigned.to_uint_nonnil p) as Hnil.
  rewrite digits_of_uint, <- uint_value_of_uint, DecimalPos.Unsigned.of_to.
  repeat split; destruct (Pos.to_uint p); try reflexivity; contradiction.
Qed.

Lemma StringToBigInt_minus_digits (s : string) :
  all_digits s = true -> Str.is_empty s = false ->
  Conv.StringToBigInt (String "-" s)
  = option_map Z.opp (Conv.digits_from 10 s 0).
Proof.
  intros Hd Hne. destruct s as [| c rest]; [discriminate |].
  assert (Hkeep : Str.trim (String "-" (String c rest))
                  = String "-" (String c rest)).
  { assert (Hw : Str.space_width (String "-" (String c rest)) = 0%nat)
      by (destruct rest as [| c' rest']; reflexivity).
    unfold Str.trim.
    rewrite (@trimStart_kept _ _ Hw), (@trimEnd_kept _ _ Hw).
    now rewrite (trimEnd_digits _ Hd). }
  unfold Conv.StringToBigInt. rewrite Hkeep. reflexivity.
Qed.

(** X15.  The decimal text [signPayment] writes for an integer in the
    envelope ([toString]) converts back, with [BigInt], to that integer:
    for every amount, the negative ones included. *)
Theorem BigInt_of_decimal_text (n : Z) :
  Conv.BigInt (VStr (Conv.Zstr n)) = Ok n.
Proof.
  unfold Conv.BigInt, Conv.Zstr. cbn [Conv.toString bind].
  destruct n as [| p | p]; [reflexivity | |];
    destruct (digits_of_positive p) as (Hv & Hne & Hz);
    cbn [Z.to_int NilZero.string_of_int]; rewrite Hz.
  - rewrite (StringToBigInt_digits _ (all_digits_of_uint _) Hne), Hv.
    reflexivity.
  - rewrite (StringToBigInt_minus_digits _ (all_digits_of_uint _) Hne), Hv.
    reflexivity.
Qed.

End AmountText.

(** ** The keys of the object a retry returns *)

Section ResultKeys.

Context `{Host}.

Local Open Scope string_scope.

Lemma keys_assign {A} (k k' : string) (x : A) (o : list (string * A)) :
  In k (map fst (assign k' x o)) <-> k = k' \/ In k (map fst o).
Proof.
  induction o as [| [k0 x0] o IH]; cbn [assign map fst In].
  - intuition congruence.
  - destruct (String.eqb k' k0) eqn:E; cbn [map fst In].
    + apply String.eqb_eq in E. subst k0. intuition congruence.
    + rewrite IH. intuition congruence.
Qed.

Lemma NoDup_assign {A} (k : string) (x : A) (o : list (string * A)) :
  NoDup (map fst o) -> NoDup (map fst (assign k x o)).
Proof.
  induction o as [| [k0 x0] o IH]; cbn [assign map fst]; intros Hnd.
  - constructor; [intros [] | constructor].
  - inversion Hnd as [| ? ? Hnot Hnd']; subst.
    destruct (String.eqb k k0) eqn:E; cbn [map fst].
    + apply String.eqb_eq in E. subst k0. constructor; assumption.
    + constructor; [| exact (IH Hnd')].
      rewrite keys_assign. intros [Heq | Hin]; [| exact (Hnot Hin)].
      subst k0. rewrite String.eqb_refl in E. discriminate.
Qed.

Lemma keys_spread (o : result_object) (json : value) (k : string) :
  In k (map fst (spread o json))
  <-> In k (map fst o) \/ In k (map fst (own_enumerable json)).
Proof.
  unfold spread. generalize (own_enumerable json) as l. intros l. revert o.
  induction l as [| [k1 v1] l IH]; intros o; cbn [fold_left map fst snd In].
  - intuition.
  - rewrite IH, keys_assign. intuition congruence.
Qed.

Lemma NoDup_spread (o : result_object) (json : value) :
  NoDup (map fst o) -> NoDup (map fst (spread o json)).
Proof.
  unfold spread. generalize (own_enumerable json) as l. intros l. revert o.
  induction l as [| [k1 v1] l IH]; intros o Hnd; cbn [fold_left fst snd].
  - exact Hnd.
  - apply IH, NoDup_assign, Hnd.
Qed.

(** X16.  Whatever JSON the retry is answered with (an object, an array, a
    string, a number, null), the object [retry] returns has a property
    [response], has each property once, and has exactly the properties
    [response] and the own enumerable ones of the JSON: the fields of an
    object, the indices of an array or of a string, none for the rest. *)
Theorem retry_result_keys
    (w : World) (signature : string) (args : list value)
    (api : string * string) (body : string) (json : value) :
  retry_response w = Responded true body ->
  JSON_parse body = Some json ->
  exists r,
    settled (retry w signature args api) = Ok r
    /\ In "response" (map fst r)
    /\ NoDup (map fst r)
    /\ forall k, In k (map fst r)
                 <-> k = "response" \/ In k (map fst (own_enumerable json)).
Proof.
  intros Hw Hp.
  exists (spread [("response", TextAccessor json)] json).
  split; [exact (retry_settled w signature args api Hw Hp) |].
  split; [apply keys_spread; left; left; reflexivity |].
  split.
  - apply NoDup_spread. constructor; [intros [] | constructor].
  - intros k. rewrite keys_spread. cbn [map fst In]. intuition congruence.
Qed.

End ResultKeys.

(** The retry of the end-to-end scenario: the keys are [response] and
    [candidates]. *)
Lemma retry_result_keys_witness :
  exists r,
    settled (retry (H := Sample.host) Scenario.calm "proof" [VStr "hi"]
               ("sk-1", "https://halo.test")) = Ok r
    /\ In "response"%string (map fst r)
    /\ NoDup (map fst r)
    /\ forall k, In k (map fst r)
                 <-> k = "response"%string
                     \/ In k (map fst (own_enumerable
                          (VObj [("candidates"%string,
                            VArr [VObj [("content"%string,
                              VObj [("parts"%string,
                                VArr [VObj [("text"%string,
                                             VStr "hello")]])])]])]))).
Proof.
  exact (@retry_result_keys Sample.host Scenario.calm "proof" [VStr "hi"]
           ("sk-1", "https://halo.test")%string
           (Scenario.candidates_body "hello") _ eq_refl eq_refl).
Defined.

(** ** Calls that do not fail *)

Section Transparent.

Context `{Host}.


End Transparent.


(** ** What the envelope carries *)

Section EnvelopeContent.

Context `{Host}.

(** X18.  The envelope of a successful signing call is the base64 form
    of the JSON text of an object that carries what was signed: version
    2, the requirement as it was given, the signature the wallet
    returned, and the fields of the authorization the wallet was asked to
    sign -- sender, recipient, the value in decimal, the nonce. *)
Theorem envelope_carries_what_was_signed
    (t : HaloPaymentTools) (wal : Wallet) (w : World) (requirement : value)
    (env : string) :
  wallet t = Some wal ->
  settled (signPayment t w requirement) = Ok env ->
  exists domain m signature payload text,
    In (SignTypedDataCall domain m) (steps (signPayment t w requirement))
    /\ signTypedData wal domain m = Some signature
    /\ Conv.stringify payload = Some text
    /\ env = Conv.base64 text
    /\ path payload ["x402Version"] = VNum 2
    /\ path payload ["accepted"] = requirement
    /\ path payload ["payload"; "signature"] = VStr signature
    /\ path payload ["payload"; "authorization"; "from"] = VStr (auth_from m)
    /\ path payload ["payload"; "authorization"; "to"] = auth_to m
    /\ path payload ["payload"; "authorization"; "value"]
       = VStr (Conv.Zstr (auth_value m))
    /\ path payload ["payload"; "authorization"; "nonce"] = VStr (nonce m).
Proof.
  intros Hw Hs.
  destruct (signPayment_success t w requirement Hw Hs)
    as (amount & domain & payTo & signature & _ & _ & Hsteps & Hsig & Henv).
  unfold envelope in Henv.
  destruct (Conv.stringify
              (payloadObj requirement signature
                 (authorization wal w amount payTo))) as [text |] eqn:Ht;
    [| discriminate].
  injection Henv as <-.
  exists domain, (authorization wal w amount payTo), signature,
    (payloadObj requirement signature (authorization wal w amount payTo)),
    text.
  split; [rewrite Hsteps; right; left; reflexivity |].
  repeat split; try assumption; reflexivity.
Qed.

End EnvelopeContent.

(** The end-to-end scenario: the envelope names the recipient and the
    value of the terms, and the signature of the sample wallet. *)
Lemma envelope_carries_what_was_signed_witness :
  exists payload text,
    Conv.stringify (H := Sample.host) payload = Some text
    /\ settled (signPayment (H := Sample.host) Scenario.keyed_tools
                  Scenario.calm Scenario.terms)
       = Ok (Conv.base64 text)
    /\ path payload ["accepted"] = Scenario.terms
    /\ path payload ["payload"; "authorization"; "from"] = VStr "0xacc0xabc"
    /\ path payload ["payload"; "authorization"; "to"] = VStr "0xDest"
    /\ path payload ["payload"; "authorization"; "value"] = VStr "1000000".
Proof.
  destruct (envelope_carries_what_was_signed (H := Sample.host)
              Scenario.keyed_tools Scenario.calm Scenario.terms
              (wal := Scenario.the_wallet) (env := Scenario.calm_envelope)
              eq_refl eq_refl)
    as (domain & m & signature & payload & text & Hin & _ & Htext & Henv
        & _ & Haccepted & _ & Hfrom & Hto & Hvalue & _).
  assert (Hm : m = authorization Scenario.the_wallet Scenario.calm 1000000
                     (VStr "0xDest")).
  { destruct Hin as [Hin | [Hin | []]]; [discriminate |].
    injection Hin as _ <-. reflexivity. }
  subst m. exists payload, text.
  split; [exact Htext |]. split; [rewrite <- Henv; reflexivity |].
  split; [exact Haccepted |]. split; [exact Hfrom |].
  split; [exact Hto | exact Hvalue].
Defined.
